(** * Verification of the Verilator harness [src/sim/rtl_dump_main.cpp]

    The harness streams a synthetic 640x480 RGB frame into an opaque
    device under test (DUT) over an AXI4-Stream port, drains the DUT's
    output stream into a second image buffer, and bounds the run by a
    cycle budget.  The DUT is a parameter of the development: an internal
    state type together with an [eval] function from state and input pins
    to a new state and output pins.  Of what the run leaves behind, the
    lines on the console, the timestamps of the VCD dumps and the bytes of
    the PPM file are modelled. *)

From Stdlib Require Import ZArith Lia Bool List.
From Stdlib Require DecimalString DecimalZ DecimalPos.
From stdpp Require Import base list strings.
Import ListNotations.
Open Scope Z_scope.

(** ** Constants of the source *)

Definition IMAGE_WIDTH : Z := 640.
Definition IMAGE_HEIGHT : Z := 480.

(** The literal bound of the main loop condition ([cycle_count < 1000000]). *)
Definition maxCycles : Z := 1000000.

(** ** Results of fallible code

    [OutOfRange] is a vector subscript outside the vector (undefined
    behaviour in C++); [NoFuel] is a loop that has not finished within the
    number of iterations the model was given. *)

Inductive res (A : Type) : Type :=
| Ret (a : A)
| OutOfRange
| NoFuel.
Arguments Ret {A} a.
Arguments OutOfRange {A}.
Arguments NoFuel {A}.

Definition bind {A B : Type} (m : res A) (k : A -> res B) : res B :=
  match m with
  | Ret a => k a
  | OutOfRange => OutOfRange
  | NoFuel => NoFuel
  end.

Notation "x <- m ;; k" := (bind m (fun x => k))
  (at level 100, m at next level, right associativity).

(** ** Machine integers *)

Definition uint8 (z : Z) : Z := z mod 2 ^ 8.
Definition uint32 (z : Z) : Z := z mod 2 ^ 32.

(** Storage classes Verilator gives to a port of up to 64 bits
    ([CData] = uint8_t, [SData] = uint16_t, [IData] = uint32_t,
    [QData] = uint64_t).  The generated header that fixes the classes of
    the stream ports is not part of the sources, so they are parameters. *)
Inductive vl_type : Type := CData | SData | IData | QData.

Definition vl_bits (t : vl_type) : Z :=
  match t with CData => 8 | SData => 16 | IData => 32 | QData => 64 end.

(** Conversion of a value to the storage class of a port. *)
Definition vl_wrap (t : vl_type) (z : Z) : Z := z mod 2 ^ vl_bits t.

(** Arithmetic on an operand of class [t] mixed with [int] operands:
    [CData] and [SData] promote to [int] (the values met here stay far
    below 2^31), [IData] and [QData] compute modulo 2^32 and 2^64. *)
Definition vl_arith (t : vl_type) (z : Z) : Z :=
  match t with
  | CData | SData => z
  | IData => z mod 2 ^ 32
  | QData => z mod 2 ^ 64
  end.

(** ** [std::vector<uint8_t>] *)

Definition vec_new (n : Z) : list Z := replicate (Z.to_nat n) 0.
Arguments vec_new : simpl never.

Definition vec_get (v : list Z) (i : Z) : res Z :=
  if 0 <=? i then
    match v !! Z.to_nat i with
    | Some x => Ret x
    | None => OutOfRange
    end
  else OutOfRange.

Definition vec_set (v : list Z) (i : Z) (x : Z) : res (list Z) :=
  if (0 <=? i) && (i <? Z.of_nat (length v))
  then Ret (<[Z.to_nat i := uint8 x]> v)
  else OutOfRange.

(** ** Pins of the DUT

    One-bit handshake and clock signals are booleans: the harness writes
    0 or 1 to them and only tests them for truth. *)

Record in_pins : Type := {
  clk : bool;
  rst_n : bool;
  s_axi_aclk : bool;
  s_axi_aresetn : bool;
  s_axi_awaddr : Z;
  s_axi_awvalid : bool;
  s_axi_wdata : Z;
  s_axi_wvalid : bool;
  s_axi_wstrb : Z;
  s_axis_tdata : Z;
  s_axis_tvalid : bool;
  s_axis_tlast : bool;
  s_axis_tuser : Z;
  m_axis_tready : bool
}.

Record out_pins : Type := {
  s_axi_awready : bool;
  s_axi_wready : bool;
  s_axis_tready : bool;
  m_axis_tdata : Z;
  m_axis_tvalid : bool;
  m_axis_tuser : Z
}.

Definition set_clk (v : bool) (p : in_pins) : in_pins :=
  {| clk := v; rst_n := rst_n p; s_axi_aclk := s_axi_aclk p; s_axi_aresetn :=
     s_axi_aresetn p; s_axi_awaddr := s_axi_awaddr p; s_axi_awvalid :=
     s_axi_awvalid p; s_axi_wdata := s_axi_wdata p; s_axi_wvalid :=
     s_axi_wvalid p; s_axi_wstrb := s_axi_wstrb p; s_axis_tdata :=
     s_axis_tdata p; s_axis_tvalid := s_axis_tvalid p; s_axis_tlast :=
     s_axis_tlast p; s_axis_tuser := s_axis_tuser p; m_axis_tready :=
     m_axis_tready p |}.
Definition set_rst_n (v : bool) (p : in_pins) : in_pins :=
  {| clk := clk p; rst_n := v; s_axi_aclk := s_axi_aclk p; s_axi_aresetn :=
     s_axi_aresetn p; s_axi_awaddr := s_axi_awaddr p; s_axi_awvalid :=
     s_axi_awvalid p; s_axi_wdata := s_axi_wdata p; s_axi_wvalid :=
     s_axi_wvalid p; s_axi_wstrb := s_axi_wstrb p; s_axis_tdata :=
     s_axis_tdata p; s_axis_tvalid := s_axis_tvalid p; s_axis_tlast :=
     s_axis_tlast p; s_axis_tuser := s_axis_tuser p; m_axis_tready :=
     m_axis_tready p |}.
Definition set_s_axi_aclk (v : bool) (p : in_pins) : in_pins :=
  {| clk := clk p; rst_n := rst_n p; s_axi_aclk := v; s_axi_aresetn :=
     s_axi_aresetn p; s_axi_awaddr := s_axi_awaddr p; s_axi_awvalid :=
     s_axi_awvalid p; s_axi_wdata := s_axi_wdata p; s_axi_wvalid :=
     s_axi_wvalid p; s_axi_wstrb := s_axi_wstrb p; s_axis_tdata :=
     s_axis_tdata p; s_axis_tvalid := s_axis_tvalid p; s_axis_tlast :=
     s_axis_tlast p; s_axis_tuser := s_axis_tuser p; m_axis_tready :=
     m_axis_tready p |}.
Definition set_s_axi_aresetn (v : bool) (p : in_pins) : in_pins :=
  {| clk := clk p; rst_n := rst_n p; s_axi_aclk := s_axi_aclk p; s_axi_aresetn
     := v; s_axi_awaddr := s_axi_awaddr p; s_axi_awvalid := s_axi_awvalid p;
     s_axi_wdata := s_axi_wdata p; s_axi_wvalid := s_axi_wvalid p; s_axi_wstrb
     := s_axi_wstrb p; s_axis_tdata := s_axis_tdata p; s_axis_tvalid :=
     s_axis_tvalid p; s_axis_tlast := s_axis_tlast p; s_axis_tuser :=
     s_axis_tuser p; m_axis_tready := m_axis_tready p |}.
Definition set_s_axi_awaddr (v : Z) (p : in_pins) : in_pins :=
  {| clk := clk p; rst_n := rst_n p; s_axi_aclk := s_axi_aclk p; s_axi_aresetn
     := s_axi_aresetn p; s_axi_awaddr := v; s_axi_awvalid := s_axi_awvalid p;
     s_axi_wdata := s_axi_wdata p; s_axi_wvalid := s_axi_wvalid p; s_axi_wstrb
     := s_axi_wstrb p; s_axis_tdata := s_axis_tdata p; s_axis_tvalid :=
     s_axis_tvalid p; s_axis_tlast := s_axis_tlast p; s_axis_tuser :=
     s_axis_tuser p; m_axis_tready := m_axis_tready p |}.
Definition set_s_axi_awvalid (v : bool) (p : in_pins) : in_pins :=
  {| clk := clk p; rst_n := rst_n p; s_axi_aclk := s_axi_aclk p; s_axi_aresetn
     := s_axi_aresetn p; s_axi_awaddr := s_axi_awaddr p; s_axi_awvalid := v;
     s_axi_wdata := s_axi_wdata p; s_axi_wvalid := s_axi_wvalid p; s_axi_wstrb
     := s_axi_wstrb p; s_axis_tdata := s_axis_tdata p; s_axis_tvalid :=
     s_axis_tvalid p; s_axis_tlast := s_axis_tlast p; s_axis_tuser :=
     s_axis_tuser p; m_axis_tready := m_axis_tready p |}.
Definition set_s_axi_wdata (v : Z) (p : in_pins) : in_pins :=
  {| clk := clk p; rst_n := rst_n p; s_axi_aclk := s_axi_aclk p; s_axi_aresetn
     := s_axi_aresetn p; s_axi_awaddr := s_axi_awaddr p; s_axi_awvalid :=
     s_axi_awvalid p; s_axi_wdata := v; s_axi_wvalid := s_axi_wvalid p;
     s_axi_wstrb := s_axi_wstrb p; s_axis_tdata := s_axis_tdata p;
     s_axis_tvalid := s_axis_tvalid p; s_axis_tlast := s_axis_tlast p;
     s_axis_tuser := s_axis_tuser p; m_axis_tready := m_axis_tready p |}.
Definition set_s_axi_wvalid (v : bool) (p : in_pins) : in_pins :=
  {| clk := clk p; rst_n := rst_n p; s_axi_aclk := s_axi_aclk p; s_axi_aresetn
     := s_axi_aresetn p; s_axi_awaddr := s_axi_awaddr p; s_axi_awvalid :=
     s_axi_awvalid p; s_axi_wdata := s_axi_wdata p; s_axi_wvalid := v;
     s_axi_wstrb := s_axi_wstrb p; s_axis_tdata := s_axis_tdata p;
     s_axis_tvalid := s_axis_tvalid p; s_axis_tlast := s_axis_tlast p;
     s_axis_tuser := s_axis_tuser p; m_axis_tready := m_axis_tready p |}.
Definition set_s_axi_wstrb (v : Z) (p : in_pins) : in_pins :=
  {| clk := clk p; rst_n := rst_n p; s_axi_aclk := s_axi_aclk p; s_axi_aresetn
     := s_axi_aresetn p; s_axi_awaddr := s_axi_awaddr p; s_axi_awvalid :=
     s_axi_awvalid p; s_axi_wdata := s_axi_wdata p; s_axi_wvalid :=
     s_axi_wvalid p; s_axi_wstrb := v; s_axis_tdata := s_axis_tdata p;
     s_axis_tvalid := s_axis_tvalid p; s_axis_tlast := s_axis_tlast p;
     s_axis_tuser := s_axis_tuser p; m_axis_tready := m_axis_tready p |}.
Definition set_s_axis_tdata (v : Z) (p : in_pins) : in_pins :=
  {| clk := clk p; rst_n := rst_n p; s_axi_aclk := s_axi_aclk p; s_axi_aresetn
     := s_axi_aresetn p; s_axi_awaddr := s_axi_awaddr p; s_axi_awvalid :=
     s_axi_awvalid p; s_axi_wdata := s_axi_wdata p; s_axi_wvalid :=
     s_axi_wvalid p; s_axi_wstrb := s_axi_wstrb p; s_axis_tdata := v;
     s_axis_tvalid := s_axis_tvalid p; s_axis_tlast := s_axis_tlast p;
     s_axis_tuser := s_axis_tuser p; m_axis_tready := m_axis_tready p |}.
Definition set_s_axis_tvalid (v : bool) (p : in_pins) : in_pins :=
  {| clk := clk p; rst_n := rst_n p; s_axi_aclk := s_axi_aclk p; s_axi_aresetn
     := s_axi_aresetn p; s_axi_awaddr := s_axi_awaddr p; s_axi_awvalid :=
     s_axi_awvalid p; s_axi_wdata := s_axi_wdata p; s_axi_wvalid :=
     s_axi_wvalid p; s_axi_wstrb := s_axi_wstrb p; s_axis_tdata :=
     s_axis_tdata p; s_axis_tvalid := v; s_axis_tlast := s_axis_tlast p;
     s_axis_tuser := s_axis_tuser p; m_axis_tready := m_axis_tready p |}.
Definition set_s_axis_tlast (v : bool) (p : in_pins) : in_pins :=
  {| clk := clk p; rst_n := rst_n p; s_axi_aclk := s_axi_aclk p; s_axi_aresetn
     := s_axi_aresetn p; s_axi_awaddr := s_axi_awaddr p; s_axi_awvalid :=
     s_axi_awvalid p; s_axi_wdata := s_axi_wdata p; s_axi_wvalid :=
     s_axi_wvalid p; s_axi_wstrb := s_axi_wstrb p; s_axis_tdata :=
     s_axis_tdata p; s_axis_tvalid := s_axis_tvalid p; s_axis_tlast := v;
     s_axis_tuser := s_axis_tuser p; m_axis_tready := m_axis_tready p |}.
Definition set_s_axis_tuser (v : Z) (p : in_pins) : in_pins :=
  {| clk := clk p; rst_n := rst_n p; s_axi_aclk := s_axi_aclk p; s_axi_aresetn
     := s_axi_aresetn p; s_axi_awaddr := s_axi_awaddr p; s_axi_awvalid :=
     s_axi_awvalid p; s_axi_wdata := s_axi_wdata p; s_axi_wvalid :=
     s_axi_wvalid p; s_axi_wstrb := s_axi_wstrb p; s_axis_tdata :=
     s_axis_tdata p; s_axis_tvalid := s_axis_tvalid p; s_axis_tlast :=
     s_axis_tlast p; s_axis_tuser := v; m_axis_tready := m_axis_tready p |}.
Definition set_m_axis_tready (v : bool) (p : in_pins) : in_pins :=
  {| clk := clk p; rst_n := rst_n p; s_axi_aclk := s_axi_aclk p; s_axi_aresetn
     := s_axi_aresetn p; s_axi_awaddr := s_axi_awaddr p; s_axi_awvalid :=
     s_axi_awvalid p; s_axi_wdata := s_axi_wdata p; s_axi_wvalid :=
     s_axi_wvalid p; s_axi_wstrb := s_axi_wstrb p; s_axis_tdata :=
     s_axis_tdata p; s_axis_tvalid := s_axis_tvalid p; s_axis_tlast :=
     s_axis_tlast p; s_axis_tuser := s_axis_tuser p; m_axis_tready := v |}.

(** The model object: the DUT's internal state with its pins. *)
Record Vaxi4s_rgb_dw_pw_top (St : Type) : Type := {
  core : St;
  ip : in_pins;
  op : out_pins
}.
Arguments core {St} _.
Arguments ip {St} _.
Arguments op {St} _.

Definition zero_in : in_pins :=
  {| clk := false; rst_n := false; s_axi_aclk := false;
     s_axi_aresetn := false; s_axi_awaddr := 0; s_axi_awvalid := false;
     s_axi_wdata := 0; s_axi_wvalid := false; s_axi_wstrb := 0;
     s_axis_tdata := 0; s_axis_tvalid := false; s_axis_tlast := false;
     s_axis_tuser := 0; m_axis_tready := false |}.

Definition zero_out : out_pins :=
  {| s_axi_awready := false; s_axi_wready := false; s_axis_tready := false;
     m_axis_tdata := 0; m_axis_tvalid := false; m_axis_tuser := 0 |}.

(** [new Vaxi4s_rgb_dw_pw_top]: every pin cleared. *)
Definition new_dut {St : Type} (st0 : St) : Vaxi4s_rgb_dw_pw_top St :=
  {| core := st0; ip := zero_in; op := zero_out |}.

(** Assignment to an input pin of the object. *)
Definition drive {St : Type} (f : in_pins -> in_pins)
    (d : Vaxi4s_rgb_dw_pw_top St) : Vaxi4s_rgb_dw_pw_top St :=
  {| core := core d; ip := f (ip d); op := op d |}.

(** ** Frame source: [generate_test_pattern] *)

(** [for (int i = i0; i < i0 + n; i++) body], threading the loop state. *)
Fixpoint for_range {A : Type} (n : nat) (i0 : Z) (body : Z -> A -> res A)
    (a : A) : res A :=
  match n with
  | O => Ret a
  | S k => a' <- body i0 a ;; for_range k (i0 + 1) body a'
  end.

(** Body of the inner loop: the three stores of pixel (x, y). *)
Definition put_pattern_pixel (y x : Z) (image : list Z) : res (list Z) :=
  let idx := (y * IMAGE_WIDTH + x) * 3 in
  image <- vec_set image (idx + 0) ((x * 255) ÷ IMAGE_WIDTH) ;;
  image <- vec_set image (idx + 1) ((y * 255) ÷ IMAGE_HEIGHT) ;;
  vec_set image (idx + 2) (((x + y) * 255) ÷ (IMAGE_WIDTH + IMAGE_HEIGHT)).

Definition generate_test_pattern (image : list Z) : res (list Z) :=
  for_range (Z.to_nat IMAGE_HEIGHT) 0
    (fun y image => for_range (Z.to_nat IMAGE_WIDTH) 0 (put_pattern_pixel y) image)
    image.

(** The gradient the frame source is specified to write at pixel (x, y),
    with floor division. *)
Definition pattern_at (image : list Z) (y x : Z) : Prop :=
  let idx := (y * IMAGE_WIDTH + x) * 3 in
  vec_get image (idx + 0) = Ret (x * 255 / IMAGE_WIDTH)
  /\ vec_get image (idx + 1) = Ret (y * 255 / IMAGE_HEIGHT)
  /\ vec_get image (idx + 2)
     = Ret ((x + y) * 255 / (IMAGE_WIDTH + IMAGE_HEIGHT)).

(** ** Stream consumer arithmetic (lines 153-167) *)

(** The destination pixel derived from the received [m_axis_tuser]. *)
Definition out_pixel_of (ty : vl_type) (tuser : Z) : Z :=
  Z.rem
    (vl_arith ty
       (vl_arith ty (tuser * IMAGE_WIDTH)
        + Z.rem (vl_arith ty (tuser + 1)) IMAGE_WIDTH))
    (IMAGE_WIDTH * IMAGE_HEIGHT).

(** The guarded store of the three channel bytes. *)
Definition store_pixel (out_pixel r g b : Z) (output_image : list Z)
    : res (list Z) :=
  if out_pixel <? IMAGE_WIDTH * IMAGE_HEIGHT then
    let out_idx := out_pixel * 3 in
    o <- vec_set output_image (out_idx + 0) r ;;
    o <- vec_set o (out_idx + 1) g ;;
    vec_set o (out_idx + 2) b
  else Ret output_image.

(** Packing of the three input bytes into the 24-bit word (lines 124-126). *)
Definition pack_rgb (b0 b1 b2 : Z) : Z :=
  uint32 (Z.lor (Z.lor (Z.shiftl b2 16) (Z.shiftl b1 8)) b0).

(** ** The harness over an arbitrary DUT *)

(** Local variables of [main] that live across the main loop. *)
Record sim (St : Type) : Type := {
  dut : Vaxi4s_rgb_dw_pw_top St;
  input_image : list Z;
  output_image : list Z;
  pixel_count : Z;
  cycle_count : Z;
  input_active : bool;
  output_active : bool
}.
Arguments dut {St} _.
Arguments input_image {St} _.
Arguments output_image {St} _.
Arguments pixel_count {St} _.
Arguments cycle_count {St} _.
Arguments input_active {St} _.
Arguments output_active {St} _.

(** Shape of the loop state: both buffers have W*H*3 bytes and the
    counters are within their bounds. *)
Definition wf {St : Type} (s : sim St) : Prop :=
  Z.of_nat (length (input_image s)) = IMAGE_WIDTH * IMAGE_HEIGHT * 3
  /\ Z.of_nat (length (output_image s)) = IMAGE_WIDTH * IMAGE_HEIGHT * 3
  /\ 0 <= pixel_count s <= IMAGE_WIDTH * IMAGE_HEIGHT
  /\ 0 <= cycle_count s <= maxCycles.

Section Harness.
Context {St : Type}.

(** [dut->eval()]: the DUT's reaction to the current input pins. *)
Variable dut_eval : St -> in_pins -> St * out_pins.

(** Storage classes of the stream data and user ports. *)
Variables tdata_ty tuser_ty : vl_type.

Definition eval (d : Vaxi4s_rgb_dw_pw_top St) : Vaxi4s_rgb_dw_pw_top St :=
  let r := dut_eval (core d) (ip d) in
  {| core := fst r; ip := ip d; op := snd r |}.

(** *** Register configuration driver: [configure_kernel] *)

(** [n] successive calls of [eval] with no pin written in between. *)
Fixpoint evals (n : nat) (d : Vaxi4s_rgb_dw_pw_top St)
    : Vaxi4s_rgb_dw_pw_top St :=
  match n with
  | O => d
  | S k => evals k (eval d)
  end.

(** Lines 40-44: the write request for the first coefficient. *)
Definition assert_write (d : Vaxi4s_rgb_dw_pw_top St) (k00 : Z)
    : Vaxi4s_rgb_dw_pw_top St :=
  let d := drive (set_s_axi_awaddr 0) d in
  let d := drive (set_s_axi_awvalid true) d in
  let d := drive (set_s_axi_wdata (uint8 k00)) d in
  let d := drive (set_s_axi_wvalid true) d in
  drive (set_s_axi_wstrb 15) d.

(** The loop condition of line 47, negated: both readies are up. *)
Definition write_ready (d : Vaxi4s_rgb_dw_pw_top St) : bool :=
  s_axi_awready (op d) && s_axi_wready (op d).

(** [while (!(awready && wready)) dut->eval();] *)
Fixpoint wait_write_handshake (fuel : nat) (d : Vaxi4s_rgb_dw_pw_top St)
    : res (Vaxi4s_rgb_dw_pw_top St) :=
  if write_ready d then Ret d
  else
    match fuel with
    | O => NoFuel
    | S f => wait_write_handshake f (eval d)
    end.

(** Lines 51-52. *)
Definition deassert_write (d : Vaxi4s_rgb_dw_pw_top St)
    : Vaxi4s_rgb_dw_pw_top St :=
  let d := drive (set_s_axi_awvalid false) d in
  drive (set_s_axi_wvalid false) d.

Definition configure_kernel (fuel : nat) (d : Vaxi4s_rgb_dw_pw_top St)
    (k00 k01 k02 k10 k11 k12 k20 k21 k22 : Z)
    : res (Vaxi4s_rgb_dw_pw_top St) :=
  d <- wait_write_handshake fuel (assert_write d k00) ;;
  Ret (deassert_write d).

(** *** Main simulation loop *)

Definition loop_cond (s : sim St) : bool :=
  (pixel_count s <? IMAGE_WIDTH * IMAGE_HEIGHT)
  && (cycle_count s <? maxCycles).

(** Clock generation (lines 115-116). *)
Definition toggle_clocks (d : Vaxi4s_rgb_dw_pw_top St)
    : Vaxi4s_rgb_dw_pw_top St :=
  let d := drive (set_clk (negb (clk (ip d)))) d in
  drive (set_s_axi_aclk (negb (s_axi_aclk (ip d)))) d.

Definition tick (s : sim St) : sim St :=
  {| dut := toggle_clocks (dut s); input_image := input_image s;
     output_image := output_image s;
     pixel_count := pixel_count s;
     cycle_count := cycle_count s;
     input_active := input_active s;
     output_active := output_active s |}.

(** Lines 128-141: offer the pixel whose bytes are [b0], [b1], [b2]. *)
Definition offer_pixel (s : sim St) (b0 b1 b2 : Z) : sim St :=
  let rgb_data := pack_rgb b0 b1 b2 in
  let d := drive (set_s_axis_tdata (vl_wrap tdata_ty rgb_data)) (dut s) in
  let d := drive (set_s_axis_tvalid true) d in
  let d :=
    drive (set_s_axis_tlast
             (Z.rem (pixel_count s + 1) IMAGE_WIDTH =? 0)) d in
  let d :=
    drive (set_s_axis_tuser
             (vl_wrap tuser_ty (Z.rem (pixel_count s) IMAGE_WIDTH))) d in
  {| dut := d; input_image := input_image s;
     output_image := output_image s;
     pixel_count := pixel_count s + 1;
     cycle_count := cycle_count s;
     input_active := false;
     output_active := output_active s |}.

(** Lines 145-147: the handshake completed. *)
Definition retire_handshake (s : sim St) : sim St :=
  let d := drive (set_s_axis_tvalid false) (dut s) in
  let d := drive (set_s_axis_tlast false) d in
  {| dut := d; input_image := input_image s;
     output_image := output_image s;
     pixel_count := pixel_count s;
     cycle_count := cycle_count s;
     input_active := true;
     output_active := output_active s |}.

(** Input side (lines 119-148). *)
Definition input_side (s : sim St) : res (sim St) :=
  let d := dut s in
  if input_active s && (pixel_count s <? IMAGE_WIDTH * IMAGE_HEIGHT) then
    if negb (s_axis_tvalid (ip d))
       || (s_axis_tvalid (ip d) && s_axis_tready (op d)) then
      let pixel_idx := pixel_count s * 3 in
      b2 <- vec_get (input_image s) (pixel_idx + 2) ;;
      b1 <- vec_get (input_image s) (pixel_idx + 1) ;;
      b0 <- vec_get (input_image s) (pixel_idx + 0) ;;
      Ret (offer_pixel s b0 b1 b2)
    else Ret s
  else if s_axis_tvalid (ip d) && s_axis_tready (op d) then
    Ret (retire_handshake s)
  else Ret s.

(** The test of line 151: an output transfer is accepted. *)
Definition output_accepted (s : sim St) : bool :=
  m_axis_tvalid (op (dut s)) && m_axis_tready (ip (dut s)).

(** Lines 153-160: the channel bytes and the destination of the
    transfer on the output pins. *)
Definition output_data (s : sim St) : Z :=
  uint32 (vl_wrap tdata_ty (m_axis_tdata (op (dut s)))).

Definition out_pixel (s : sim St) : Z :=
  out_pixel_of tuser_ty (vl_wrap tuser_ty (m_axis_tuser (op (dut s)))).

Definition with_output (s : sim St) (o : list Z) : sim St :=
  {| dut := dut s; input_image := input_image s;
     output_image := o;
     pixel_count := pixel_count s;
     cycle_count := cycle_count s;
     input_active := input_active s;
     output_active := true |}.

(** Output side (lines 151-170). *)
Definition output_side (s : sim St) : res (sim St) :=
  if output_accepted s then
    let r := uint8 (Z.land (output_data s) 255) in
    let g := uint8 (Z.land (Z.shiftr (output_data s) 8) 255) in
    let b := uint8 (Z.land (Z.shiftr (output_data s) 16) 255) in
    o <- store_pixel (out_pixel s) r g b (output_image s) ;;
    Ret (with_output s o)
  else Ret s.

(** Lines 173-176: evaluate the DUT and count the cycle. *)
Definition advance (s : sim St) : sim St :=
  {| dut := eval (dut s); input_image := input_image s;
     output_image := output_image s;
     pixel_count := pixel_count s;
     cycle_count := cycle_count s + 1;
     input_active := input_active s;
     output_active := output_active s |}.

(** One iteration of the loop (lines 114-182). *)
Definition loop_body (s : sim St) : res (sim St) :=
  s <- input_side (tick s) ;;
  s <- output_side s ;;
  Ret (advance s).

Fixpoint loop_fuel (fuel : nat) (s : sim St) : res (sim St) :=
  if loop_cond s then
    match fuel with
    | O => NoFuel
    | S f => s' <- loop_body s ;; loop_fuel f s'
    end
  else Ret s.

(** The [while] loop of line 113; the cycle budget left is enough fuel. *)
Definition main_loop (s : sim St) : res (sim St) :=
  loop_fuel (Z.to_nat (maxCycles - cycle_count s)) s.

(** [n] iterations of the body, whatever the loop condition. *)
Fixpoint iter_body (n : nat) (s : sim St) : res (sim St) :=
  match n with
  | O => Ret s
  | S k => s' <- loop_body s ;; iter_body k s'
  end.

(** Output transfers accepted by the consumer in the first [n]
    iterations starting from [s]. *)
Fixpoint outputs_received (n : nat) (s : sim St) : Z :=
  match n with
  | O => 0
  | S k =>
      (if output_accepted s then 1 else 0)
      + match loop_body s with
        | Ret s' => outputs_received k s'
        | _ => 0
        end
  end.

(** *** [main] up to the end of the loop *)

(** Reset sequence (lines 78-83). *)
Fixpoint reset_sequence (n : nat) (d : Vaxi4s_rgb_dw_pw_top St)
    : Vaxi4s_rgb_dw_pw_top St :=
  match n with
  | O => d
  | S k => reset_sequence k (eval (toggle_clocks d))
  end.

(** Lines 96-108: the state in which the loop is entered. *)
Definition loop_entry (d : Vaxi4s_rgb_dw_pw_top St) (image : list Z)
    : sim St :=
  let d := drive (set_s_axis_tvalid false) d in
  let d := drive (set_s_axis_tlast false) d in
  let d := drive (set_s_axis_tuser (vl_wrap tuser_ty 0)) d in
  let d := drive (set_m_axis_tready true) d in
  {| dut := d; input_image := image;
     output_image := vec_new (IMAGE_WIDTH * IMAGE_HEIGHT * 3);
     pixel_count := 0; cycle_count := 0;
     input_active := true; output_active := false |}.

(** Lines 64-86: the new model object taken through reset. *)
Definition power_on (st0 : St) : Vaxi4s_rgb_dw_pw_top St :=
  let d := new_dut st0 in
  let d := drive (set_clk false) d in
  let d := drive (set_rst_n false) d in
  let d := drive (set_s_axi_aclk false) d in
  let d := drive (set_s_axi_aresetn false) d in
  let d := reset_sequence 10 d in
  let d := drive (set_rst_n true) d in
  drive (set_s_axi_aresetn true) d.

(** [main] from its first line to the loop (lines 59-110). *)
Definition main_setup (fuel : nat) (st0 : St) : res (sim St) :=
  d <- configure_kernel fuel (power_on st0) 0 (-1) 0 (-1) 4 (-1) 0 (-1) 0 ;;
  image <- generate_test_pattern (vec_new (IMAGE_WIDTH * IMAGE_HEIGHT * 3)) ;;
  Ret (loop_entry d image).

(** [main] up to the end of the loop; [fuel] bounds the wait of
    [configure_kernel], the only place where [main] can fail to return. *)
Definition main (fuel : nat) (st0 : St) : res (sim St) :=
  s <- main_setup fuel st0 ;;
  main_loop s.

(** What the input pins carry, in terms of the producer's variables:
    valid is asserted exactly while the producer waits for a handshake,
    and the pixel on offer is the one counted last. *)
Definition producer_inv (s : sim St) : Prop :=
  input_active s = negb (s_axis_tvalid (ip (dut s)))
  /\ (s_axis_tvalid (ip (dut s)) = true ->
      exists b0 b1 b2,
        0 <= pixel_count s - 1
        /\ vec_get (input_image s) ((pixel_count s - 1) * 3 + 0) = Ret b0
        /\ vec_get (input_image s) ((pixel_count s - 1) * 3 + 1) = Ret b1
        /\ vec_get (input_image s) ((pixel_count s - 1) * 3 + 2) = Ret b2
        /\ s_axis_tdata (ip (dut s)) = vl_wrap tdata_ty (pack_rgb b0 b1 b2)
        /\ s_axis_tlast (ip (dut s))
           = (Z.rem (pixel_count s - 1 + 1) IMAGE_WIDTH =? 0)
        /\ s_axis_tuser (ip (dut s))
           = vl_wrap tuser_ty (Z.rem (pixel_count s - 1) IMAGE_WIDTH)).

(** States the loop passes through when entered in [s0]. *)
Inductive loop_reach (s0 : sim St) : sim St -> Prop :=
| reach_entry : loop_reach s0 s0
| reach_step (s s' : sim St) :
    loop_reach s0 s -> loop_cond s = true -> loop_body s = Ret s' ->
    loop_reach s0 s'.

End Harness.

(** ** Console, trace and file output

    A binary output stream is the list of bytes written to it so far;
    [std::cout] and [std::cerr] are the lists of lines sent to them (each
    ends in [std::endl] in the source); of the VCD trace only the
    timestamps of the [dump] calls are kept. *)

Definition nl : string := String (Ascii.ascii_of_nat 10) EmptyString.

(** The bytes of a text, one per character. *)
Definition bytes_of_text (s : string) : list Z :=
  map (fun c => Z.of_N (Ascii.N_of_ascii c)) (String.list_ascii_of_string s).

(** [file << s] *)
Definition put_text (file : list Z) (s : string) : list Z :=
  file ++ bytes_of_text s.

(** [operator<<] on an [int]: decimal digits, with a minus sign when
    negative. *)
Definition dec (z : Z) : string :=
  DecimalString.NilZero.string_of_int (Z.to_int z).

(** [write_ppm_header] (lines 17-19). *)
Definition write_ppm_header (file : list Z) (width height : Z) : list Z :=
  let file := put_text file ("P6" +:+ nl) in
  let file := put_text file (dec width) in
  let file := put_text file " " in
  let file := put_text file (dec height) in
  put_text file (nl +:+ "255" +:+ nl).

(** [ppm_file.write(reinterpret_cast<char*>(&output_image[idx]), 3)] *)
Definition write_pixel (output_image : list Z) (i : Z) (file : list Z)
    : res (list Z) :=
  let idx := i * 3 in
  c0 <- vec_get output_image idx ;;
  c1 <- vec_get output_image (idx + 1) ;;
  c2 <- vec_get output_image (idx + 2) ;;
  Ret (file ++ [c0; c1; c2]).

(** Lines 190-195: header, then the pixels in order. *)
Definition write_ppm (output_image : list Z) : res (list Z) :=
  let file := write_ppm_header [] IMAGE_WIDTH IMAGE_HEIGHT in
  for_range (Z.to_nat (IMAGE_WIDTH * IMAGE_HEIGHT)) 0
    (write_pixel output_image) file.

(** The bytes a decimal rendering can hold: a minus sign or a digit. *)
Definition sign_or_digit (b : Z) : Prop := b = 45 \/ 48 <= b <= 57.

Record console : Type := {
  cout : list string;
  cerr : list string;
  vcd : list Z
}.

Definition no_output : console := {| cout := []; cerr := []; vcd := [] |}.

(** [std::cout << line << std::endl] *)
Definition say (line : string) (c : console) : console :=
  {| cout := cout c ++ [line]; cerr := cerr c; vcd := vcd c |}.

(** [std::cerr << line << std::endl] *)
Definition complain (line : string) (c : console) : console :=
  {| cout := cout c; cerr := cerr c ++ [line]; vcd := vcd c |}.

(** [trace->dump(t)] *)
Definition dump (t : Z) (c : console) : console :=
  {| cout := cout c; cerr := cerr c; vcd := vcd c ++ [t] |}.

(** The progress line of lines 180-181. *)
Definition progress_line (cycle_count pixel_count : Z) : string :=
  "Cycle: " +:+ dec cycle_count +:+ ", Pixels processed: " +:+ dec pixel_count.

(** What a run of [main] leaves behind: the loop variables at the end,
    the console and trace, and the PPM file if it could be created. *)
Record run (St : Type) : Type := {
  final : sim St;
  out : console;
  ppm : option (list Z)
}.
Arguments final {St} _.
Arguments out {St} _.
Arguments ppm {St} _.

Section Observed.
Context {St : Type}.
Variable dut_eval : St -> in_pins -> St * out_pins.
Variables tdata_ty tuser_ty : vl_type.

(** Reset sequence with its dumps (lines 78-83); [i] is the loop index. *)
Fixpoint reset_sequence_obs (n : nat) (i : Z) (d : Vaxi4s_rgb_dw_pw_top St)
    (c : console) : Vaxi4s_rgb_dw_pw_top St * console :=
  match n with
  | O => (d, c)
  | S k =>
      let d := eval dut_eval (toggle_clocks d) in
      let c := dump (i * 2) c in
      reset_sequence_obs k (i + 1) d c
  end.

(** One iteration with its dump and progress line (lines 114-182). *)
Definition loop_body_obs (s : sim St) (c : console)
    : res (sim St * console) :=
  s <- input_side tdata_ty tuser_ty (tick s) ;;
  s <- output_side tdata_ty tuser_ty s ;;
  let c := dump (cycle_count s) c in
  let s := advance dut_eval s in
  let c :=
    if Z.rem (cycle_count s) 10000 =? 0
    then say (progress_line (cycle_count s) (pixel_count s)) c
    else c in
  Ret (s, c).

Fixpoint loop_fuel_obs (fuel : nat) (s : sim St) (c : console)
    : res (sim St * console) :=
  if loop_cond s then
    match fuel with
    | O => NoFuel
    | S f => r <- loop_body_obs s c ;; loop_fuel_obs f (fst r) (snd r)
    end
  else Ret (s, c).

(** Lines 185-201: the closing message and the PPM file; [can_open]
    tells whether [rtl_out.ppm] can be created. *)
Definition write_results (can_open : bool) (s : sim St) (c : console)
    : res (run St) :=
  let c :=
    say ("Simulation completed in " +:+ dec (cycle_count s) +:+ " cycles") c in
  if can_open then
    file <- write_ppm (output_image s) ;;
    Ret {| final := s;
           out := say "Output image written to rtl_out.ppm" c;
           ppm := Some file |}
  else
    Ret {| final := s;
           out := complain "Failed to create output PPM file" c;
           ppm := None |}.

(** [main] with everything it prints and writes. *)
Definition main_obs (fuel : nat) (can_open : bool) (st0 : St)
    : res (run St) :=
  let d := new_dut st0 in
  let d := drive (set_clk false) d in
  let d := drive (set_rst_n false) d in
  let d := drive (set_s_axi_aclk false) d in
  let d := drive (set_s_axi_aresetn false) d in
  let r := reset_sequence_obs 10 0 d no_output in
  let d := drive (set_rst_n true) (fst r) in
  let d := drive (set_s_axi_aresetn true) d in
  d <- configure_kernel dut_eval fuel d 0 (-1) 0 (-1) 4 (-1) 0 (-1) 0 ;;
  image <- generate_test_pattern (vec_new (IMAGE_WIDTH * IMAGE_HEIGHT * 3)) ;;
  let s := loop_entry tuser_ty d image in
  let c := say "Starting RTL simulation..." (snd r) in
  r <- loop_fuel_obs (Z.to_nat (maxCycles - cycle_count s)) s c ;;
  write_results can_open (fst r) (snd r).

End Observed.

(** ** Concrete devices used to exercise the harness *)

(** A combinational pass-through: the output port mirrors the input port
    (data, valid and user unchanged), ready is handed back unchanged, and
    register writes are accepted at once. *)
Definition passthrough_eval (st : unit) (p : in_pins) : unit * out_pins :=
  (tt, {| s_axi_awready := true; s_axi_wready := true;
          s_axis_tready := m_axis_tready p;
          m_axis_tdata := s_axis_tdata p;
          m_axis_tvalid := s_axis_tvalid p;
          m_axis_tuser := s_axis_tuser p |}).

(** A sink: always ready for input, never produces output. *)
Definition sink_eval (st : unit) (p : in_pins) : unit * out_pins :=
  (tt, {| s_axi_awready := true; s_axi_wready := true;
          s_axis_tready := true;
          m_axis_tdata := 0; m_axis_tvalid := false; m_axis_tuser := 0 |}).

(** A register port that needs two evaluations before it raises both
    ready signals; its state counts the evaluations. *)
Definition slow_cfg_eval (st : nat) (p : in_pins) : nat * out_pins :=
  (S st, {| s_axi_awready := Nat.leb 1 st; s_axi_wready := Nat.leb 1 st;
            s_axis_tready := false;
            m_axis_tdata := 0; m_axis_tvalid := false; m_axis_tuser := 0 |}).

(** A loop state in which the DUT offers an output transfer whose user
    value, 480, names a row below the image. *)
Definition sample_output_state : sim unit :=
  {| dut := {| core := tt;
               ip := set_m_axis_tready true zero_in;
               op := {| s_axi_awready := true; s_axi_wready := true;
                        s_axis_tready := true;
                        m_axis_tdata := 197121;
                        m_axis_tvalid := true;
                        m_axis_tuser := 480 |} |};
     input_image := vec_new (IMAGE_WIDTH * IMAGE_HEIGHT * 3);
     output_image := vec_new (IMAGE_WIDTH * IMAGE_HEIGHT * 3);
     pixel_count := 0; cycle_count := 0;
     input_active := true; output_active := false |}.

(** The loop entered on a zeroed input image with the sink attached, and
    the state after its first iteration, in which pixel 0 is on offer. *)
Definition sink_entry : sim unit :=
  loop_entry SData (new_dut tt) (vec_new (IMAGE_WIDTH * IMAGE_HEIGHT * 3)).

Definition sink_first_offer : sim unit :=
  advance sink_eval (offer_pixel IData SData (tick sink_entry) 0 0 0).

(** The same entry with a DUT that never raises [s_axis_tready]: the
    state after the first iteration, where pixel 0 is pending, and the
    state two iterations later. *)
Definition stall_entry : sim nat :=
  loop_entry SData (new_dut 0%nat) (vec_new (IMAGE_WIDTH * IMAGE_HEIGHT * 3)).

Definition stall_first_offer : sim nat :=
  advance slow_cfg_eval (offer_pixel IData SData (tick stall_entry) 0 0 0).

Definition stall_two_later : sim nat :=
  advance slow_cfg_eval (tick (advance slow_cfg_eval (tick stall_first_offer))).

(** A DUT that never answers: every output pin stays low. *)
Definition deaf_eval (st : unit) (p : in_pins) : unit * out_pins :=
  (tt, zero_out).

(** * Properties *)

(** ** The model on small inputs *)

Example vec_get_past_end : vec_get [1; 2] 2 = OutOfRange.
Proof. reflexivity. Qed.

Example vec_get_negative : vec_get [1; 2] (-1) = OutOfRange.
Proof. reflexivity. Qed.

Example vec_set_truncates : vec_set [0; 0] 1 258 = Ret [0; 2].
Proof. reflexivity. Qed.

Example pack_rgb_bytes : pack_rgb 1 2 3 = 197121.
Proof. reflexivity. Qed.

Example put_pattern_pixel_3_0 :
  put_pattern_pixel 0 3 (replicate 12 0)
  = Ret [0; 0; 0; 0; 0; 0; 0; 0; 0; 1; 0; 0].
Proof. reflexivity. Qed.

Example store_pixel_short_buffer :
  store_pixel 1 7 8 9 [0; 0; 0; 0; 0; 0] = Ret [0; 0; 0; 7; 8; 9]
  /\ store_pixel 2 7 8 9 [0; 0; 0; 0; 0; 0] = OutOfRange.
Proof. split; reflexivity. Qed.

Example out_pixel_of_columns :
  out_pixel_of SData 0 = 1
  /\ out_pixel_of SData 2 = 1283
  /\ out_pixel_of SData 639 = 101760.
Proof. repeat split; reflexivity. Qed.

(** The unsigned 32-bit product wraps before the reduction modulo W*H. *)
Example out_pixel_of_wraps_32 : out_pixel_of IData 4294967295 = 3456.
Proof. reflexivity. Qed.

Example tlast_at_row_end :
  s_axis_tlast
    (ip (dut (offer_pixel IData SData
                {| dut := new_dut tt; input_image := []; output_image := [];
                   pixel_count := 639; cycle_count := 0;
                   input_active := true; output_active := false |}
                0 0 0))) = true.
Proof. reflexivity. Qed.

Example slow_cfg_needs_two_evals :
  configure_kernel slow_cfg_eval 1 (new_dut 0%nat) 7 0 0 0 0 0 0 0 0 = NoFuel
  /\ exists d, configure_kernel slow_cfg_eval 2 (new_dut 0%nat) 7 0 0 0 0 0 0 0 0
               = Ret d
               /\ core d = 2%nat
               /\ s_axi_wdata (ip d) = 7
               /\ s_axi_awvalid (ip d) = false.
Proof. split; [reflexivity|]. eexists. repeat split. Qed.

(** ** Vectors *)

Lemma vec_new_length (n : Z) : 0 <= n -> Z.of_nat (length (vec_new n)) = n.
Proof. intros Hn. unfold vec_new. rewrite length_replicate. lia. Qed.

Lemma vec_get_new (n i : Z) : 0 <= i < n -> vec_get (vec_new n) i = Ret 0.
Proof.
  intros Hi. unfold vec_get, vec_new.
  destruct (Z.leb_spec 0 i); [|lia].
  rewrite lookup_replicate_2 by lia. reflexivity.
Qed.

Lemma vec_get_in_range (v : list Z) (i : Z) :
  0 <= i < Z.of_nat (length v) -> exists x, vec_get v i = Ret x.
Proof.
  intros Hi. unfold vec_get. destruct (Z.leb_spec 0 i); [|lia].
  destruct (lookup_lt_is_Some_2 v (Z.to_nat i)) as [x Hx]; [lia|].
  exists x. rewrite Hx. reflexivity.
Qed.

Lemma vec_get_Ret_range (v : list Z) (i x : Z) :
  vec_get v i = Ret x -> 0 <= i < Z.of_nat (length v).
Proof.
  unfold vec_get. destruct (Z.leb_spec 0 i); [|discriminate].
  destruct (v !! Z.to_nat i) eqn:E; [|discriminate].
  intros _. apply lookup_lt_Some in E. lia.
Qed.

Lemma vec_set_in_range (v : list Z) (i x : Z) :
  0 <= i < Z.of_nat (length v) ->
  vec_set v i x = Ret (<[Z.to_nat i := uint8 x]> v).
Proof.
  intros Hi. unfold vec_set.
  destruct (Z.leb_spec 0 i); [|lia].
  destruct (Z.ltb_spec i (Z.of_nat (length v))); [|lia].
  reflexivity.
Qed.

Lemma vec_get_insert_eq (v : list Z) (i x : Z) :
  0 <= i < Z.of_nat (length v) ->
  vec_get (<[Z.to_nat i := x]> v) i = Ret x.
Proof.
  intros Hi. unfold vec_get. destruct (Z.leb_spec 0 i); [|lia].
  rewrite list_lookup_insert_eq by lia. reflexivity.
Qed.

Lemma vec_get_insert_ne (v : list Z) (i j x : Z) :
  0 <= i -> i <> j ->
  vec_get (<[Z.to_nat i := x]> v) j = vec_get v j.
Proof.
  intros Hi Hne. unfold vec_get. destruct (Z.leb_spec 0 j); [|reflexivity].
  rewrite list_lookup_insert_ne by lia. reflexivity.
Qed.

(** Two vectors of equal length with the same bytes are equal. *)
Lemma vec_ext (u v : list Z) :
  length u = length v ->
  (forall i, 0 <= i < Z.of_nat (length u) -> vec_get u i = vec_get v i) ->
  u = v.
Proof.
  intros Hlen Hget. apply list_eq. intros n.
  destruct (Nat.lt_ge_cases n (length u)) as [Hlt|Hge].
  - specialize (Hget (Z.of_nat n) ltac:(lia)).
    unfold vec_get in Hget. rewrite Nat2Z.id in Hget.
    destruct (Z.leb_spec 0 (Z.of_nat n)); [|lia].
    destruct (lookup_lt_is_Some_2 u n Hlt) as [a Ha].
    destruct (lookup_lt_is_Some_2 v n ltac:(lia)) as [b Hb].
    rewrite Ha, Hb in *. congruence.
  - rewrite !lookup_ge_None_2 by lia. reflexivity.
Qed.

(** The three consecutive stores that both the frame source and the
    consumer perform. *)
Lemma three_stores (v : list Z) (idx a b c : Z) :
  0 <= idx -> idx + 2 < Z.of_nat (length v) ->
  exists v',
    (o <- vec_set v (idx + 0) a ;;
     o <- vec_set o (idx + 1) b ;;
     vec_set o (idx + 2) c) = Ret v'
    /\ length v' = length v
    /\ vec_get v' (idx + 0) = Ret (uint8 a)
    /\ vec_get v' (idx + 1) = Ret (uint8 b)
    /\ vec_get v' (idx + 2) = Ret (uint8 c)
    /\ (forall j, j < idx \/ idx + 3 <= j -> vec_get v' j = vec_get v j).
Proof.
  intros H0 H2.
  rewrite (vec_set_in_range v (idx + 0)) by lia. cbn [bind].
  rewrite vec_set_in_range by (rewrite length_insert; lia). cbn [bind].
  rewrite vec_set_in_range by (rewrite !length_insert; lia).
  eexists. split; [reflexivity|].
  split; [rewrite !length_insert; reflexivity|].
  split; [|split; [|split]].
  - rewrite !vec_get_insert_ne by lia.
    apply vec_get_insert_eq. lia.
  - rewrite vec_get_insert_ne by lia.
    apply vec_get_insert_eq. rewrite length_insert. lia.
  - apply vec_get_insert_eq. rewrite !length_insert. lia.
  - intros j Hj. rewrite !vec_get_insert_ne by lia. reflexivity.
Qed.

(** ** Counted loops *)

Lemma for_range_inv {A : Type} (P : Z -> A -> Prop) (body : Z -> A -> res A) :
  forall (n : nat) (i0 : Z) (a : A),
    P i0 a ->
    (forall i a, i0 <= i < i0 + Z.of_nat n -> P i a ->
                 exists a', body i a = Ret a' /\ P (i + 1) a') ->
    exists a', for_range n i0 body a = Ret a' /\ P (i0 + Z.of_nat n) a'.
Proof.
  induction n as [|n IH]; intros i0 a HP Hstep.
  - exists a. split; [reflexivity|]. now replace (i0 + Z.of_nat 0) with i0 by lia.
  - destruct (Hstep i0 a ltac:(lia) HP) as (a1 & Hb & HP1).
    destruct (IH (i0 + 1) a1 HP1) as (a2 & Hr & HP2).
    + intros i b Hi. apply Hstep. lia.
    + exists a2. cbn [for_range]. rewrite Hb. cbn [bind].
      split; [exact Hr|]. now replace (i0 + Z.of_nat (S n)) with (i0 + 1 + Z.of_nat n) by lia.
Qed.

(** ** Frame source *)

Lemma gradient_byte (a n : Z) :
  0 < n -> 0 <= a < n -> uint8 ((a * 255) ÷ n) = a * 255 / n.
Proof.
  intros Hn Ha. rewrite Z.quot_div_nonneg by lia.
  unfold uint8. apply Z.mod_small. split.
  - apply Z.div_pos; lia.
  - apply Z.div_lt_upper_bound; [lia|]. change (2 ^ 8) with 256. nia.
Qed.

Lemma put_pattern_pixel_spec (y x : Z) (image : list Z) :
  0 <= y < IMAGE_HEIGHT -> 0 <= x < IMAGE_WIDTH ->
  Z.of_nat (length image) = IMAGE_WIDTH * IMAGE_HEIGHT * 3 ->
  exists image',
    put_pattern_pixel y x image = Ret image'
    /\ length image' = length image
    /\ pattern_at image' y x
    /\ (forall j, j < (y * IMAGE_WIDTH + x) * 3
                  \/ (y * IMAGE_WIDTH + x + 1) * 3 <= j ->
                  vec_get image' j = vec_get image j).
Proof.
  intros Hy Hx Hlen. unfold put_pattern_pixel, pattern_at.
  destruct (three_stores image ((y * IMAGE_WIDTH + x) * 3)
              ((x * 255) ÷ IMAGE_WIDTH) ((y * 255) ÷ IMAGE_HEIGHT)
              (((x + y) * 255) ÷ (IMAGE_WIDTH + IMAGE_HEIGHT)))
    as (v' & Hrun & Hl & H0 & H1 & H2 & Hframe).
  - unfold IMAGE_WIDTH, IMAGE_HEIGHT in *. lia.
  - unfold IMAGE_WIDTH, IMAGE_HEIGHT in *. lia.
  - exists v'. split; [exact Hrun|]. split; [exact Hl|]. split.
    + rewrite H0, H1, H2.
      rewrite !gradient_byte by (unfold IMAGE_WIDTH, IMAGE_HEIGHT in *; lia).
      auto.
    + intros j Hj. apply Hframe. lia.
Qed.

Lemma pattern_row_spec (y : Z) (image : list Z) :
  0 <= y < IMAGE_HEIGHT ->
  Z.of_nat (length image) = IMAGE_WIDTH * IMAGE_HEIGHT * 3 ->
  exists image',
    for_range (Z.to_nat IMAGE_WIDTH) 0 (put_pattern_pixel y) image = Ret image'
    /\ length image' = length image
    /\ (forall x, 0 <= x < IMAGE_WIDTH -> pattern_at image' y x)
    /\ (forall j, j < y * IMAGE_WIDTH * 3 \/ (y + 1) * IMAGE_WIDTH * 3 <= j ->
                  vec_get image' j = vec_get image j).
Proof.
  intros Hy Hlen.
  destruct (for_range_inv
    (fun x im =>
       length im = length image
       /\ (forall x', 0 <= x' < x -> pattern_at im y x')
       /\ (forall j, j < y * IMAGE_WIDTH * 3 \/ (y * IMAGE_WIDTH + x) * 3 <= j ->
                     vec_get im j = vec_get image j))
    (put_pattern_pixel y) (Z.to_nat IMAGE_WIDTH) 0 image)
    as (im & Hrun & Hl & Hpix & Hframe).
  - split; [reflexivity|]. split; [intros; lia|]. reflexivity.
  - intros x im Hx (Hl & Hpix & Hframe).
    assert (Hx' : 0 <= x < IMAGE_WIDTH) by (unfold IMAGE_WIDTH in *; lia).
    destruct (put_pattern_pixel_spec y x im Hy Hx') as (im' & Hrun & Hl' & Hp & Hf).
    { rewrite Hl. exact Hlen. }
    exists im'. split; [exact Hrun|]. split; [congruence|]. split.
    + intros x' Hx1. destruct (Z.eq_dec x' x) as [->|Hne]; [exact Hp|].
      specialize (Hpix x' ltac:(lia)). unfold pattern_at in *.
      rewrite !Hf by (unfold IMAGE_WIDTH in *; lia). exact Hpix.
    + intros j Hj. rewrite Hf by (unfold IMAGE_WIDTH in *; lia).
      apply Hframe. unfold IMAGE_WIDTH in *; lia.
  - exists im. split; [exact Hrun|]. split; [exact Hl|]. split.
    + intros x Hx. apply Hpix. unfold IMAGE_WIDTH in *. lia.
    + intros j Hj. apply Hframe. unfold IMAGE_WIDTH in *. lia.
Qed.

Lemma generate_test_pattern_spec (image : list Z) :
  Z.of_nat (length image) = IMAGE_WIDTH * IMAGE_HEIGHT * 3 ->
  exists image',
    generate_test_pattern image = Ret image'
    /\ length image' = length image
    /\ (forall y x, 0 <= y < IMAGE_HEIGHT -> 0 <= x < IMAGE_WIDTH ->
                    pattern_at image' y x).
Proof.
  intros Hlen. unfold generate_test_pattern.
  destruct (for_range_inv
    (fun y im =>
       length im = length image
       /\ (forall y' x', 0 <= y' < y -> 0 <= x' < IMAGE_WIDTH ->
                         pattern_at im y' x'))
    (fun y im => for_range (Z.to_nat IMAGE_WIDTH) 0 (put_pattern_pixel y) im)
    (Z.to_nat IMAGE_HEIGHT) 0 image)
    as (im & Hrun & Hl & Hpix).
  - split; [reflexivity|]. intros; lia.
  - intros y im Hy (Hl & Hpix).
    assert (Hy' : 0 <= y < IMAGE_HEIGHT) by (unfold IMAGE_HEIGHT in *; lia).
    destruct (pattern_row_spec y im Hy') as (im' & Hrun & Hl' & Hp & Hf).
    { rewrite Hl. exact Hlen. }
    exists im'. split; [exact Hrun|]. split; [congruence|].
    intros y' x' Hy1 Hx1. destruct (Z.eq_dec y' y) as [->|Hne]; [now apply Hp|].
    specialize (Hpix y' x' ltac:(lia) Hx1). unfold pattern_at in *.
    rewrite !Hf by (unfold IMAGE_WIDTH in *; lia). exact Hpix.
  - exists im. split; [exact Hrun|]. split; [exact Hl|].
    intros y x Hy Hx. apply Hpix; [|exact Hx]. unfold IMAGE_HEIGHT in *. lia.
Qed.

(** ** Stream consumer: destination index and guarded store *)

Lemma vl_wrap_range (ty : vl_type) (z : Z) :
  0 <= vl_wrap ty z < 2 ^ vl_bits ty.
Proof. unfold vl_wrap. apply Z.mod_pos_bound. destruct ty; reflexivity. Qed.

(** For the narrow classes the [int] arithmetic of line 159 stays below
    2^31, so no signed overflow is hidden in [vl_arith]. *)
Lemma narrow_index_fits_int (ty : vl_type) (t : Z) :
  ty = CData \/ ty = SData -> 0 <= t < 2 ^ vl_bits ty ->
  0 <= t * IMAGE_WIDTH + Z.rem (t + 1) IMAGE_WIDTH < 2 ^ 31.
Proof.
  intros Hty Ht. unfold IMAGE_WIDTH.
  assert (Hr : 0 <= Z.rem (t + 1) 640 < 640) by (apply Z.rem_bound_pos; lia).
  assert (t < 2 ^ 16) by (destruct Hty; subst ty; cbn in Ht; lia).
  change (2 ^ 16) with 65536 in *. change (2 ^ 31) with 2147483648. lia.
Qed.

Lemma out_pixel_of_range (ty : vl_type) (z : Z) :
  0 <= out_pixel_of ty (vl_wrap ty z) < IMAGE_WIDTH * IMAGE_HEIGHT.
Proof.
  unfold out_pixel_of. apply Z.rem_bound_pos; [|reflexivity].
  pose proof (vl_wrap_range ty z) as Ht.
  set (t := vl_wrap ty z) in *.
  destruct ty; cbn [vl_arith].
  - assert (0 <= Z.rem (t + 1) IMAGE_WIDTH < IMAGE_WIDTH)
      by (apply Z.rem_bound_pos; [lia|reflexivity]).
    unfold IMAGE_WIDTH in *. lia.
  - assert (0 <= Z.rem (t + 1) IMAGE_WIDTH < IMAGE_WIDTH)
      by (apply Z.rem_bound_pos; [lia|reflexivity]).
    unfold IMAGE_WIDTH in *. lia.
  - apply Z.mod_pos_bound. reflexivity.
  - apply Z.mod_pos_bound. reflexivity.
Qed.

Lemma low_byte (z : Z) : uint8 (Z.land z 255) = Z.land z 255.
Proof.
  unfold uint8. change 255 with (Z.ones 8).
  rewrite Z.land_ones by lia. apply Z.mod_mod. discriminate.
Qed.

Lemma store_pixel_spec (p r g b : Z) (o : list Z) :
  0 <= p < IMAGE_WIDTH * IMAGE_HEIGHT ->
  Z.of_nat (length o) = IMAGE_WIDTH * IMAGE_HEIGHT * 3 ->
  exists o',
    store_pixel p r g b o = Ret o'
    /\ length o' = length o
    /\ vec_get o' (p * 3 + 0) = Ret (uint8 r)
    /\ vec_get o' (p * 3 + 1) = Ret (uint8 g)
    /\ vec_get o' (p * 3 + 2) = Ret (uint8 b)
    /\ (forall j, j < p * 3 \/ (p + 1) * 3 <= j -> vec_get o' j = vec_get o j).
Proof.
  intros Hp Hlen. unfold store_pixel.
  destruct (Z.ltb_spec p (IMAGE_WIDTH * IMAGE_HEIGHT)); [|lia].
  destruct (three_stores o (p * 3) r g b) as (o' & Hrun & Hl & H0 & H1 & H2 & Hf).
  - lia.
  - unfold IMAGE_WIDTH, IMAGE_HEIGHT in *. lia.
  - exists o'. repeat split; try assumption. intros j Hj. apply Hf. lia.
Qed.

Lemma store_pixel_dropped (p r g b : Z) (o : list Z) :
  IMAGE_WIDTH * IMAGE_HEIGHT <= p -> store_pixel p r g b o = Ret o.
Proof.
  intros Hp. unfold store_pixel.
  destruct (Z.ltb_spec p (IMAGE_WIDTH * IMAGE_HEIGHT)); [lia|reflexivity].
Qed.

(** A user value that is a column index never selects output pixel 3:
    column c is stored at pixel (c * W + (c + 1) mod W) mod (W * H). *)
Lemma column_never_selects_pixel_3 (ty : vl_type) (t : Z) :
  0 <= t < IMAGE_WIDTH -> out_pixel_of ty t <> 3.
Proof.
  unfold IMAGE_WIDTH. intros Ht.
  assert (Hr : 0 <= Z.rem (t + 1) 640 < 640) by (apply Z.rem_bound_pos; lia).
  assert (Har : forall z, 0 <= z < 2147483648 -> vl_arith ty z = z).
  { intros z Hz.
    destruct ty; cbn [vl_arith]; try reflexivity; apply Z.mod_small.
    - change (2 ^ 32) with 4294967296. lia.
    - change (2 ^ 64) with 18446744073709551616. lia. }
  unfold out_pixel_of, IMAGE_WIDTH, IMAGE_HEIGHT.
  rewrite (Har (t + 1)) by lia.
  rewrite (Har (t * 640)) by lia.
  rewrite Har by lia.
  rewrite (Z.rem_mod_nonneg (t + 1)) in * by lia.
  rewrite Z.rem_mod_nonneg by lia.
  change (640 * 480) with 307200.
  pose proof (Z.div_mod (t + 1) 640 ltac:(lia)) as E1.
  pose proof (Z.mod_pos_bound (t + 1) 640 ltac:(lia)) as B1.
  pose proof (Z.div_mod (t * 640 + (t + 1) mod 640) 307200 ltac:(lia)) as E2.
  pose proof (Z.mod_pos_bound (t * 640 + (t + 1) mod 640) 307200 ltac:(lia)) as B2.
  lia.
Qed.

(** Conversion to a storage class never enlarges a non-negative value. *)
Lemma vl_wrap_le (ty : vl_type) (z : Z) : 0 <= z -> 0 <= vl_wrap ty z <= z.
Proof.
  intros Hz. unfold vl_wrap. split.
  - apply Z.mod_pos_bound. destruct ty; reflexivity.
  - apply Z.mod_le; [lia|destruct ty; reflexivity].
Qed.

(** ** One iteration of the main loop *)

(** Splitting of conjunctions, without unfolding definitions. *)
Ltac split_conj := repeat match goal with |- _ /\ _ => split end.

(** Unfolding of the three blocks of the loop body. *)
Ltac open_input_side := unfold input_side.
Ltac open_output_side := unfold output_side.
Ltac open_loop_body := unfold loop_body.
Ltac open_loop_entry := unfold loop_entry.
Ltac open_out_pixel := unfold out_pixel.

Section HarnessFacts.
Context {St : Type}.
Variable dut_eval : St -> in_pins -> St * out_pins.
Variables tdata_ty tuser_ty : vl_type.

Local Abbreviation input_side := (input_side tdata_ty tuser_ty).
Local Abbreviation output_side := (output_side tdata_ty tuser_ty).
Local Abbreviation offer_pixel := (offer_pixel tdata_ty tuser_ty).
Local Abbreviation out_pixel := (out_pixel tuser_ty).
Local Abbreviation output_data := (output_data tdata_ty).
Local Abbreviation loop_body := (loop_body dut_eval tdata_ty tuser_ty).
Local Abbreviation main_loop := (main_loop dut_eval tdata_ty tuser_ty).
Local Abbreviation loop_reach := (loop_reach dut_eval tdata_ty tuser_ty).
Local Abbreviation loop_entry := (loop_entry tuser_ty).

(** *** Producer *)

Lemma input_side_offer (s : sim St) :
  Z.of_nat (length (input_image s)) = IMAGE_WIDTH * IMAGE_HEIGHT * 3 ->
  input_active s = true ->
  0 <= pixel_count s < IMAGE_WIDTH * IMAGE_HEIGHT ->
  s_axis_tvalid (ip (dut s)) = false
  \/ s_axis_tready (op (dut s)) = true ->
  exists b0 b1 b2,
    vec_get (input_image s) (pixel_count s * 3 + 0) = Ret b0
    /\ vec_get (input_image s) (pixel_count s * 3 + 1) = Ret b1
    /\ vec_get (input_image s) (pixel_count s * 3 + 2) = Ret b2
    /\ input_side s = Ret (offer_pixel s b0 b1 b2).
Proof.
  intros Hlen Hact Hpc Hfree.
  destruct (vec_get_in_range (input_image s) (pixel_count s * 3 + 0)) as [b0 H0];
    [lia|].
  destruct (vec_get_in_range (input_image s) (pixel_count s * 3 + 1)) as [b1 H1];
    [lia|].
  destruct (vec_get_in_range (input_image s) (pixel_count s * 3 + 2)) as [b2 H2];
    [lia|].
  exists b0, b1, b2. repeat split; try assumption.
  open_input_side. rewrite Hact.
  destruct (Z.ltb_spec (pixel_count s) (IMAGE_WIDTH * IMAGE_HEIGHT)); [|lia].
  cbn [andb].
  replace (negb (s_axis_tvalid (ip (dut s)))
           || s_axis_tvalid (ip (dut s)) && s_axis_tready (op (dut s)))
    with true
    by (destruct Hfree as [-> | ->];
        destruct (s_axis_tvalid (ip (dut s))); reflexivity).
  rewrite H2, H1, H0. reflexivity.
Qed.

Lemma input_side_retire (s : sim St) :
  input_active s && (pixel_count s <? IMAGE_WIDTH * IMAGE_HEIGHT) = false ->
  s_axis_tvalid (ip (dut s)) = true ->
  s_axis_tready (op (dut s)) = true ->
  input_side s = Ret (retire_handshake s).
Proof.
  intros Hcond Hv Hr. open_input_side.
  rewrite Hcond, Hv, Hr. reflexivity.
Qed.

(** A pending pixel that the DUT has not taken: nothing is touched. *)
Lemma input_side_hold (s : sim St) :
  s_axis_tvalid (ip (dut s)) = true ->
  s_axis_tready (op (dut s)) = false ->
  input_side s = Ret s.
Proof.
  intros Hv Hr. open_input_side. rewrite Hv, Hr. cbn.
  destruct (input_active s && _); reflexivity.
Qed.

Lemma input_side_idle (s : sim St) :
  input_active s && (pixel_count s <? IMAGE_WIDTH * IMAGE_HEIGHT) = false ->
  s_axis_tvalid (ip (dut s)) && s_axis_tready (op (dut s)) = false ->
  input_side s = Ret s.
Proof.
  intros Hcond Hv. open_input_side. rewrite Hcond, Hv. reflexivity.
Qed.

(** What the input side leaves alone, whichever branch it takes. *)
Lemma input_side_total (s : sim St) :
  Z.of_nat (length (input_image s)) = IMAGE_WIDTH * IMAGE_HEIGHT * 3 ->
  0 <= pixel_count s ->
  exists s',
    input_side s = Ret s'
    /\ input_image s' = input_image s
    /\ output_image s' = output_image s
    /\ cycle_count s' = cycle_count s
    /\ output_active s' = output_active s
    /\ core (dut s') = core (dut s)
    /\ op (dut s') = op (dut s)
    /\ m_axis_tready (ip (dut s')) = m_axis_tready (ip (dut s))
    /\ (pixel_count s' = pixel_count s
        \/ pixel_count s < IMAGE_WIDTH * IMAGE_HEIGHT
           /\ pixel_count s' = pixel_count s + 1).
Proof.
  intros Hlen Hpc.
  destruct (input_active s && (pixel_count s <? IMAGE_WIDTH * IMAGE_HEIGHT))
    eqn:Hcond.
  - apply andb_true_iff in Hcond as [Hact Hlt]. apply Z.ltb_lt in Hlt.
    destruct (s_axis_tvalid (ip (dut s))) eqn:Hv;
      [destruct (s_axis_tready (op (dut s))) eqn:Hr|].
    + destruct (input_side_offer s Hlen Hact ltac:(lia) (or_intror Hr))
        as (b0 & b1 & b2 & _ & _ & _ & ->).
      eexists. split; [reflexivity|]. cbn. repeat split; auto.
    + exists s. rewrite input_side_hold by assumption. repeat split; auto.
    + destruct (input_side_offer s Hlen Hact ltac:(lia) (or_introl Hv))
        as (b0 & b1 & b2 & _ & _ & _ & ->).
      eexists. split; [reflexivity|]. cbn. repeat split; auto.
  - destruct (s_axis_tvalid (ip (dut s)) && s_axis_tready (op (dut s)))
      eqn:Hacc.
    + apply andb_true_iff in Hacc as [Hv Hr].
      rewrite input_side_retire by assumption.
      eexists. split; [reflexivity|]. cbn. repeat split; auto.
    + rewrite input_side_idle by assumption.
      exists s. repeat split; auto.
Qed.

(** *** Consumer *)

Lemma output_side_spec (s : sim St) :
  Z.of_nat (length (output_image s)) = IMAGE_WIDTH * IMAGE_HEIGHT * 3 ->
  exists s',
    output_side s = Ret s'
    /\ dut s' = dut s
    /\ input_image s' = input_image s
    /\ pixel_count s' = pixel_count s
    /\ cycle_count s' = cycle_count s
    /\ input_active s' = input_active s
    /\ length (output_image s') = length (output_image s)
    /\ (output_accepted s = false -> s' = s)
    /\ (output_accepted s = true ->
        vec_get (output_image s') (out_pixel s * 3 + 0)
          = Ret (Z.land (output_data s) 255)
        /\ vec_get (output_image s') (out_pixel s * 3 + 1)
          = Ret (Z.land (Z.shiftr (output_data s) 8) 255)
        /\ vec_get (output_image s') (out_pixel s * 3 + 2)
          = Ret (Z.land (Z.shiftr (output_data s) 16) 255))
    /\ (forall j, j < out_pixel s * 3 \/ (out_pixel s + 1) * 3 <= j ->
                  vec_get (output_image s') j = vec_get (output_image s) j).
Proof.
  intros Hlen. open_output_side.
  destruct (output_accepted s) eqn:Hacc.
  - destruct (store_pixel_spec (out_pixel s)
                (uint8 (Z.land (output_data s) 255))
                (uint8 (Z.land (Z.shiftr (output_data s) 8) 255))
                (uint8 (Z.land (Z.shiftr (output_data s) 16) 255))
                (output_image s))
      as (o' & Hrun & Hl & H0 & H1 & H2 & Hf).
    + apply out_pixel_of_range.
    + exact Hlen.
    + rewrite Hrun. cbn [bind]. eexists. split; [reflexivity|]. cbn.
      rewrite !low_byte in *.
      repeat split; auto; discriminate.
  - exists s. repeat split; auto; discriminate.
Qed.

(** *** Whole iteration *)

Lemma loop_body_spec (s : sim St) :
  wf s ->
  exists s',
    loop_body s = Ret s'
    /\ cycle_count s' = cycle_count s + 1
    /\ input_image s' = input_image s
    /\ length (output_image s') = length (output_image s)
    /\ m_axis_tready (ip (dut s')) = m_axis_tready (ip (dut s))
    /\ (pixel_count s' = pixel_count s
        \/ pixel_count s < IMAGE_WIDTH * IMAGE_HEIGHT
           /\ pixel_count s' = pixel_count s + 1)
    /\ (m_axis_tvalid (op (dut s)) = false ->
        output_image s' = output_image s).
Proof.
  intros (Hin & Hout & Hpc & Hcc). open_loop_body.
  destruct (input_side_total (tick s)) as
    (s1 & -> & Hi1 & Ho1 & Hc1 & _ & _ & Hop1 & Hrdy1 & Hpc1);
    [exact Hin | cbn; lia |].
  cbn [bind].
  destruct (output_side_spec s1) as
    (s2 & -> & Hd2 & Hi2 & Hp2 & Hc2 & _ & Hl2 & Hno2 & _ & _).
  { rewrite Ho1. exact Hout. }
  cbn [bind]. eexists. split; [reflexivity|]. cbn in *.
  rewrite Hc2, Hc1, Hi2, Hi1, Hl2, Ho1, Hp2, Hd2, Hrdy1.
  repeat split; auto.
  intros Hnv. rewrite Hno2; [exact Ho1|].
  unfold output_accepted. rewrite Hop1. cbn. rewrite Hnv. reflexivity.
Qed.

Lemma loop_body_wf (s s' : sim St) :
  wf s -> loop_cond s = true -> loop_body s = Ret s' -> wf s'.
Proof.
  intros Hwf Hcond Hrun.
  destruct (loop_body_spec s Hwf) as (s1 & Hrun1 & Hc & Hi & Ho & _ & Hp & _).
  rewrite Hrun in Hrun1. injection Hrun1 as <-.
  destruct Hwf as (Hin & Hout & Hpc & Hcc).
  unfold loop_cond in Hcond. apply andb_true_iff in Hcond as [_ Hlt].
  apply Z.ltb_lt in Hlt. unfold wf. rewrite Hi, Ho, Hc.
  repeat split; try lia.
Qed.

Lemma input_side_cases (s : sim St) :
  Z.of_nat (length (input_image s)) = IMAGE_WIDTH * IMAGE_HEIGHT * 3 ->
  0 <= pixel_count s ->
  exists s',
    input_side s = Ret s'
    /\ ((input_active s = true
         /\ pixel_count s < IMAGE_WIDTH * IMAGE_HEIGHT
         /\ (s_axis_tvalid (ip (dut s)) = false
             \/ s_axis_tready (op (dut s)) = true)
         /\ exists b0 b1 b2,
             vec_get (input_image s) (pixel_count s * 3 + 0) = Ret b0
             /\ vec_get (input_image s) (pixel_count s * 3 + 1) = Ret b1
             /\ vec_get (input_image s) (pixel_count s * 3 + 2) = Ret b2
             /\ s' = offer_pixel s b0 b1 b2)
        \/ ((input_active s = false
             \/ IMAGE_WIDTH * IMAGE_HEIGHT <= pixel_count s)
            /\ s_axis_tvalid (ip (dut s)) = true
            /\ s_axis_tready (op (dut s)) = true
            /\ s' = retire_handshake s)
        \/ ((s_axis_tvalid (ip (dut s)) = false
             \/ s_axis_tready (op (dut s)) = false)
            /\ (s_axis_tvalid (ip (dut s)) = false ->
                input_active s = false
                \/ IMAGE_WIDTH * IMAGE_HEIGHT <= pixel_count s)
            /\ s' = s)).
Proof.
  intros Hlen Hpc.
  destruct (input_active s && (pixel_count s <? IMAGE_WIDTH * IMAGE_HEIGHT))
    eqn:Hcond.
  - apply andb_true_iff in Hcond as [Hact Hlt]. apply Z.ltb_lt in Hlt.
    destruct (s_axis_tvalid (ip (dut s))) eqn:Hv;
      [destruct (s_axis_tready (op (dut s))) eqn:Hr|].
    + destruct (input_side_offer s Hlen Hact ltac:(lia) (or_intror Hr))
        as (b0 & b1 & b2 & H0 & H1 & H2 & ->).
      eexists. split; [reflexivity|]. left. repeat split; auto.
      exists b0, b1, b2. auto.
    + exists s. rewrite input_side_hold by assumption.
      split; [reflexivity|]. right; right. repeat split; auto. discriminate.
    + destruct (input_side_offer s Hlen Hact ltac:(lia) (or_introl Hv))
        as (b0 & b1 & b2 & H0 & H1 & H2 & ->).
      eexists. split; [reflexivity|]. left. repeat split; auto.
      exists b0, b1, b2. auto.
  - assert (Hoff : input_active s = false
                   \/ IMAGE_WIDTH * IMAGE_HEIGHT <= pixel_count s).
    { apply andb_false_iff in Hcond as [Ha|Hl]; [left; exact Ha|right].
      apply Z.ltb_ge in Hl. exact Hl. }
    destruct (s_axis_tvalid (ip (dut s)) && s_axis_tready (op (dut s)))
      eqn:Hacc.
    + apply andb_true_iff in Hacc as [Hv Hr].
      rewrite input_side_retire by assumption.
      eexists. split; [reflexivity|]. right; left. auto.
    + rewrite input_side_idle by assumption.
      exists s. split; [reflexivity|]. right; right.
      apply andb_false_iff in Hacc. auto.
Qed.

(** The body is the three blocks in sequence, none of which fails on a
    well-formed state. *)
Lemma loop_body_steps (s : sim St) :
  wf s ->
  exists s1 s2,
    input_side (tick s) = Ret s1
    /\ output_side s1 = Ret s2
    /\ loop_body s = Ret (advance dut_eval s2)
    /\ dut s2 = dut s1
    /\ input_image s2 = input_image s1
    /\ pixel_count s2 = pixel_count s1
    /\ input_active s2 = input_active s1.
Proof.
  intros (Hin & Hout & Hpc & Hcc).
  destruct (input_side_total (tick s)) as
    (s1 & Hs1 & Hi1 & Ho1 & _); [exact Hin | cbn; lia |].
  destruct (output_side_spec s1) as
    (s2 & Hs2 & Hd2 & Hi2 & Hp2 & _ & Ha2 & _).
  { rewrite Ho1. exact Hout. }
  exists s1, s2. open_loop_body. rewrite Hs1. cbn [bind]. rewrite Hs2.
  repeat split; auto.
Qed.

Lemma loop_body_producer_inv (s s' : sim St) :
  wf s -> producer_inv tdata_ty tuser_ty s -> loop_body s = Ret s' ->
  producer_inv tdata_ty tuser_ty s'.
Proof.
  intros Hwf (Hact & Hpend) Hrun.
  destruct (loop_body_steps s Hwf) as
    (s1 & s2 & Hs1 & _ & Hbody & Hd2 & Hi2 & Hp2 & Ha2).
  rewrite Hrun in Hbody. injection Hbody as ->.
  destruct Hwf as (Hin & _ & Hpc & _).
  destruct (input_side_cases (tick s)) as (s1' & Hs1' & Hcase);
    [exact Hin | cbn; lia |].
  rewrite Hs1 in Hs1'. injection Hs1' as <-.
  unfold producer_inv. cbn [advance dut input_active pixel_count input_image
                            eval ip].
  rewrite Hd2, Hi2, Hp2, Ha2.
  destruct Hcase as [(_ & _ & _ & b0 & b1 & b2 & H0 & H1 & H2 & ->)
                    |[(_ & _ & _ & ->) | (_ & _ & ->)]].
  - cbn in *. split; [reflexivity|]. intros _.
    exists b0, b1, b2.
    replace (pixel_count s + 1 - 1) with (pixel_count s) by lia.
    repeat split; auto; lia.
  - cbn. split; [reflexivity|]. discriminate.
  - cbn. split; [exact Hact|]. exact Hpend.
Qed.

(** *** The loop *)

Lemma loop_cond_false (s : sim St) :
  loop_cond s = false <->
  IMAGE_WIDTH * IMAGE_HEIGHT <= pixel_count s \/ maxCycles <= cycle_count s.
Proof.
  unfold loop_cond. rewrite andb_false_iff, !Z.ltb_ge. reflexivity.
Qed.

Lemma loop_cond_true (s : sim St) :
  loop_cond s = true <->
  pixel_count s < IMAGE_WIDTH * IMAGE_HEIGHT /\ cycle_count s < maxCycles.
Proof.
  unfold loop_cond. rewrite andb_true_iff, !Z.ltb_lt. reflexivity.
Qed.

Lemma loop_fuel_inv (P : sim St -> Prop) :
  (forall s s', wf s -> P s -> loop_cond s = true ->
                loop_body s = Ret s' -> P s') ->
  forall (fuel : nat) (s : sim St),
    wf s -> P s -> maxCycles - cycle_count s <= Z.of_nat fuel ->
    exists (n : nat) (s' : sim St),
      (n <= fuel)%nat
      /\ loop_fuel dut_eval tdata_ty tuser_ty fuel s = Ret s'
      /\ iter_body dut_eval tdata_ty tuser_ty n s = Ret s'
      /\ wf s' /\ P s'
      /\ loop_cond s' = false
      /\ cycle_count s' = cycle_count s + Z.of_nat n
      /\ (forall k sk, (k < n)%nat -> iter_body dut_eval tdata_ty tuser_ty k s = Ret sk ->
                       loop_cond sk = true).
Proof.
  intros Hstep. induction fuel as [|fuel IH]; intros s Hwf HP Hfuel.
  - exists O, s. cbn [loop_fuel iter_body].
    assert (Hc : loop_cond s = false) by (apply loop_cond_false; lia).
    rewrite Hc. split_conj; auto; try lia.
  - cbn [loop_fuel]. destruct (loop_cond s) eqn:Hc.
    + destruct (loop_body_spec s Hwf) as (s1 & Hb & Hcc & _).
      assert (Hwf1 : wf s1) by (eapply loop_body_wf; eassumption).
      destruct (IH s1 Hwf1 (Hstep s s1 Hwf HP Hc Hb) ltac:(lia))
        as (n & s' & Hn & Hrun & Hit & Hwf' & HP' & Hc' & Hcc' & Hpre).
      exists (S n), s'. rewrite Hb. cbn [bind iter_body].
      rewrite Hb. cbn [bind]. split_conj; auto; try lia.
      intros [|k] sk Hk Hsk.
      * cbn in Hsk. injection Hsk as <-. exact Hc.
      * cbn [iter_body] in Hsk. rewrite Hb in Hsk. cbn [bind] in Hsk.
        eapply Hpre; [|exact Hsk]. lia.
    + exists O, s. split_conj; auto; try lia.
Qed.

Lemma main_loop_inv (P : sim St -> Prop) :
  (forall s s', wf s -> P s -> loop_cond s = true ->
                loop_body s = Ret s' -> P s') ->
  forall s : sim St,
    wf s -> P s ->
    exists (n : nat) (s' : sim St),
      main_loop s = Ret s'
      /\ iter_body dut_eval tdata_ty tuser_ty n s = Ret s'
      /\ wf s' /\ P s'
      /\ loop_cond s' = false
      /\ cycle_count s' = cycle_count s + Z.of_nat n
      /\ (forall k sk, (k < n)%nat ->
                       iter_body dut_eval tdata_ty tuser_ty k s = Ret sk ->
                       loop_cond sk = true).
Proof.
  intros Hstep s Hwf HP.
  destruct (loop_fuel_inv P Hstep (Z.to_nat (maxCycles - cycle_count s)) s
              Hwf HP ltac:(lia))
    as (n & s' & _ & Hrun & Hit & Hwf' & HP' & Hc & Hcc & Hpre).
  exists n, s'. split_conj; auto.
Qed.

Lemma loop_reach_inv (P : sim St -> Prop) (s0 : sim St) :
  wf s0 -> P s0 ->
  (forall s s', wf s -> P s -> loop_cond s = true ->
                loop_body s = Ret s' -> P s') ->
  forall s, loop_reach s0 s -> wf s /\ P s.
Proof.
  intros Hwf0 HP0 Hstep s Hreach.
  induction Hreach as [|s s' _ [Hwf HP] Hc Hb]; [auto|].
  split; [eapply loop_body_wf; eassumption|].
  eapply Hstep; eassumption.
Qed.

Lemma loop_reach_wf (s0 s : sim St) : wf s0 -> loop_reach s0 s -> wf s.
Proof.
  intros Hwf0 Hreach.
  apply (loop_reach_inv (fun _ => True) s0 Hwf0 I (fun _ _ _ _ _ _ => I) s Hreach).
Qed.

(** The state the loop returns is one of the states it passed through. *)
Lemma main_loop_reach (s0 : sim St) :
  wf s0 ->
  exists (n : nat) (sf : sim St),
    main_loop s0 = Ret sf
    /\ iter_body dut_eval tdata_ty tuser_ty n s0 = Ret sf
    /\ loop_reach s0 sf
    /\ wf sf
    /\ loop_cond sf = false
    /\ cycle_count sf = cycle_count s0 + Z.of_nat n
    /\ (forall k sk, (k < n)%nat ->
                     iter_body dut_eval tdata_ty tuser_ty k s0 = Ret sk ->
                     loop_cond sk = true).
Proof.
  intros Hwf0.
  destruct (main_loop_inv (loop_reach s0)) with (s := s0)
    as (n & sf & Hrun & Hit & Hwf & Hr & Hc & Hcc & Hpre).
  - intros s s' _ Hr Hc Hb. eapply reach_step; eassumption.
  - exact Hwf0.
  - apply reach_entry.
  - exists n, sf. split_conj; auto.
Qed.

(** *** The state at loop entry *)

Lemma loop_entry_wf (d : Vaxi4s_rgb_dw_pw_top St) (image : list Z) :
  Z.of_nat (length image) = IMAGE_WIDTH * IMAGE_HEIGHT * 3 ->
  wf (loop_entry d image).
Proof.
  intros Hlen. unfold wf. open_loop_entry.
  cbn [input_image output_image pixel_count cycle_count].
  rewrite vec_new_length by (unfold IMAGE_WIDTH, IMAGE_HEIGHT; lia).
  unfold IMAGE_WIDTH, IMAGE_HEIGHT, maxCycles in *. lia.
Qed.

Lemma loop_entry_producer_inv (d : Vaxi4s_rgb_dw_pw_top St) (image : list Z) :
  producer_inv tdata_ty tuser_ty (loop_entry d image).
Proof. unfold producer_inv. cbn. split; [reflexivity|discriminate]. Qed.

Lemma loop_reach_producer_inv (d : Vaxi4s_rgb_dw_pw_top St) (image : list Z)
    (s : sim St) :
  Z.of_nat (length image) = IMAGE_WIDTH * IMAGE_HEIGHT * 3 ->
  loop_reach (loop_entry d image) s ->
  wf s /\ producer_inv tdata_ty tuser_ty s.
Proof.
  intros Hlen Hreach.
  apply (loop_reach_inv (producer_inv tdata_ty tuser_ty) (loop_entry d image));
    auto using loop_entry_wf, loop_entry_producer_inv.
  intros s1 s2 Hwf Hinv _ Hb. eapply loop_body_producer_inv; eassumption.
Qed.

Lemma loop_reach_input_image (s0 s : sim St) :
  wf s0 -> loop_reach s0 s -> input_image s = input_image s0.
Proof.
  intros Hwf0 Hreach.
  apply (loop_reach_inv (fun s => input_image s = input_image s0) s0);
    auto.
  intros s1 s2 Hwf Heq _ Hb.
  destruct (loop_body_spec s1 Hwf) as (s2' & Hb' & _ & Hi & _).
  rewrite Hb in Hb'. injection Hb' as <-. congruence.
Qed.

(** *** A pending pixel *)

Lemma output_side_frame (s s' : sim St) :
  output_side s = Ret s' ->
  dut s' = dut s
  /\ pixel_count s' = pixel_count s
  /\ input_active s' = input_active s
  /\ input_image s' = input_image s
  /\ cycle_count s' = cycle_count s.
Proof.
  open_output_side. destruct (output_accepted s).
  - destruct (store_pixel _ _ _ _ _); cbn [bind]; try discriminate.
    intros [= <-]. cbn. auto.
  - intros [= <-]. auto.
Qed.

Lemma loop_body_hold (s s' : sim St) :
  s_axis_tvalid (ip (dut s)) = true ->
  s_axis_tready (op (dut s)) = false ->
  loop_body s = Ret s' ->
  s_axis_tvalid (ip (dut s')) = true
  /\ s_axis_tdata (ip (dut s')) = s_axis_tdata (ip (dut s))
  /\ s_axis_tlast (ip (dut s')) = s_axis_tlast (ip (dut s))
  /\ s_axis_tuser (ip (dut s')) = s_axis_tuser (ip (dut s))
  /\ pixel_count s' = pixel_count s
  /\ input_active s' = input_active s.
Proof.
  intros Hv Hr. open_loop_body.
  rewrite (input_side_hold (tick s)) by (cbn; assumption). cbn [bind].
  destruct (output_side (tick s)) as [s2| |] eqn:Hout; cbn [bind];
    try discriminate.
  intros [= <-].
  destruct (output_side_frame _ _ Hout) as (Hd & Hp & Ha & _).
  cbn [advance dut eval ip pixel_count input_active]. rewrite Hd, Hp, Ha.
  cbn. split_conj; auto.
Qed.

Lemma iter_body_hold (n : nat) :
  forall s sn : sim St,
    s_axis_tvalid (ip (dut s)) = true ->
    iter_body dut_eval tdata_ty tuser_ty n s = Ret sn ->
    (forall k sk, (k < n)%nat ->
                  iter_body dut_eval tdata_ty tuser_ty k s = Ret sk ->
                  s_axis_tready (op (dut sk)) = false) ->
    s_axis_tvalid (ip (dut sn)) = true
    /\ s_axis_tdata (ip (dut sn)) = s_axis_tdata (ip (dut s))
    /\ s_axis_tlast (ip (dut sn)) = s_axis_tlast (ip (dut s))
    /\ s_axis_tuser (ip (dut sn)) = s_axis_tuser (ip (dut s))
    /\ pixel_count sn = pixel_count s.
Proof.
  induction n as [|n IH]; intros s sn Hv Hrun Hstall.
  - cbn in Hrun. injection Hrun as <-. auto.
  - cbn [iter_body] in Hrun.
    destruct (loop_body s) as [s1| |] eqn:Hb; cbn [bind] in Hrun;
      try discriminate.
    assert (Hr : s_axis_tready (op (dut s)) = false)
      by (apply (Hstall O s); [lia|reflexivity]).
    destruct (loop_body_hold s s1 Hv Hr Hb) as (Hv1 & Hd1 & Hl1 & Hu1 & Hp1 & _).
    destruct (IH s1 sn Hv1 Hrun) as (Hvn & Hdn & Hln & Hun & Hpn).
    + intros k sk Hk Hsk. apply (Hstall (S k) sk); [lia|].
      cbn [iter_body]. rewrite Hb. exact Hsk.
    + split_conj; congruence.
Qed.

(** While valid is asserted the producer is not in its offering state,
    so the iteration cannot count a further pixel. *)
Lemma valid_blocks_offer (s s' : sim St) :
  wf s -> producer_inv tdata_ty tuser_ty s ->
  s_axis_tvalid (ip (dut s)) = true ->
  loop_body s = Ret s' ->
  pixel_count s' = pixel_count s.
Proof.
  intros Hwf (Hact & _) Hv Hrun.
  destruct (loop_body_steps s Hwf) as
    (s1 & s2 & Hs1 & _ & Hbody & _ & _ & Hp2 & _).
  rewrite Hrun in Hbody. injection Hbody as ->.
  destruct Hwf as (Hin & _ & Hpc & _).
  destruct (input_side_cases (tick s)) as (s1' & Hs1' & Hcase);
    [exact Hin | cbn; lia |].
  rewrite Hs1 in Hs1'. injection Hs1' as <-.
  cbn [advance pixel_count]. rewrite Hp2.
  rewrite Hv in Hact. cbn in Hact.
  destruct Hcase as [(Ha & _) | [(_ & _ & _ & ->) | (_ & _ & ->)]].
  - cbn in Ha. congruence.
  - reflexivity.
  - reflexivity.
Qed.

(** The iteration when the pending pixel stalls and the DUT offers no
    output: only the clocks, the DUT and the cycle count move. *)
Lemma loop_body_stalled (s : sim St) :
  s_axis_tvalid (ip (dut s)) = true ->
  s_axis_tready (op (dut s)) = false ->
  m_axis_tvalid (op (dut s)) = false ->
  loop_body s = Ret (advance dut_eval (tick s)).
Proof.
  intros Hv Hr Hm. open_loop_body.
  rewrite (input_side_hold (tick s)) by (cbn; assumption). cbn [bind].
  open_output_side. unfold output_accepted. cbn. rewrite Hm. reflexivity.
Qed.

(** The first iteration on a zeroed input image, when the DUT shows no
    output: pixel 0 is put on offer. *)
Lemma loop_body_first_offer (d : Vaxi4s_rgb_dw_pw_top St) :
  m_axis_tvalid (op d) = false ->
  loop_body (loop_entry d (vec_new (IMAGE_WIDTH * IMAGE_HEIGHT * 3)))
  = Ret (advance dut_eval
           (offer_pixel
              (tick (loop_entry d (vec_new (IMAGE_WIDTH * IMAGE_HEIGHT * 3))))
              0 0 0)).
Proof.
  intros Hm. open_loop_body.
  destruct (input_side_offer
              (tick (loop_entry d (vec_new (IMAGE_WIDTH * IMAGE_HEIGHT * 3)))))
    as (b0 & b1 & b2 & H0 & H1 & H2 & ->).
  - apply vec_new_length. unfold IMAGE_WIDTH, IMAGE_HEIGHT. lia.
  - reflexivity.
  - cbn. unfold IMAGE_WIDTH, IMAGE_HEIGHT. lia.
  - left. reflexivity.
  - cbn in H0, H1, H2.
    rewrite vec_get_new in H0, H1, H2
      by (unfold IMAGE_WIDTH, IMAGE_HEIGHT; lia).
    injection H0 as <-. injection H1 as <-. injection H2 as <-.
    cbn [bind]. open_output_side. unfold output_accepted. cbn.
    rewrite Hm. reflexivity.
Qed.

(** *** Register configuration driver *)

Lemma evals_ip (n : nat) :
  forall d : Vaxi4s_rgb_dw_pw_top St, ip (evals dut_eval n d) = ip d.
Proof.
  induction n as [|n IH]; intros d; [reflexivity|].
  cbn [evals]. rewrite IH. reflexivity.
Qed.

Lemma wait_write_handshake_ready (fuel : nat) (d : Vaxi4s_rgb_dw_pw_top St) :
  write_ready d = true -> wait_write_handshake dut_eval fuel d = Ret d.
Proof. intros Hr. destruct fuel; cbn; rewrite Hr; reflexivity. Qed.

Lemma wait_write_handshake_spec (n : nat) :
  forall (d : Vaxi4s_rgb_dw_pw_top St) (fuel : nat),
    (forall i, (i < n)%nat -> write_ready (evals dut_eval i d) = false) ->
    write_ready (evals dut_eval n d) = true ->
    (n <= fuel)%nat ->
    wait_write_handshake dut_eval fuel d = Ret (evals dut_eval n d).
Proof.
  induction n as [|n IH]; intros d fuel Hbusy Hready Hfuel.
  - apply wait_write_handshake_ready. exact Hready.
  - destruct fuel as [|fuel]; [lia|].
    pose proof (Hbusy O ltac:(lia)) as H0. cbn [evals] in H0.
    cbn [wait_write_handshake evals]. rewrite H0.
    apply IH; [|exact Hready|lia].
    intros i Hi. apply (Hbusy (S i)). lia.
Qed.

(** A DUT that never raises both readies keeps the driver spinning:
    no number of evaluations ends the wait. *)
Lemma wait_write_handshake_blocks (fuel : nat) :
  forall d : Vaxi4s_rgb_dw_pw_top St,
    (forall i, write_ready (evals dut_eval i d) = false) ->
    wait_write_handshake dut_eval fuel d = NoFuel.
Proof.
  induction fuel as [|fuel IH]; intros d Hbusy;
    pose proof (Hbusy O) as H0; cbn [evals] in H0;
    cbn [wait_write_handshake]; rewrite H0; [reflexivity|].
  apply IH. intros i. apply (Hbusy (S i)).
Qed.

(** *** After the last pixel *)

Lemma loop_fuel_exit (fuel : nat) (s : sim St) :
  loop_cond s = false -> loop_fuel dut_eval tdata_ty tuser_ty fuel s = Ret s.
Proof. intros Hc. destruct fuel; cbn [loop_fuel]; rewrite Hc; reflexivity. Qed.

Lemma loop_body_exhausted (s s' : sim St) :
  IMAGE_WIDTH * IMAGE_HEIGHT <= pixel_count s ->
  loop_body s = Ret s' ->
  pixel_count s' = pixel_count s
  /\ (s_axis_tvalid (ip (dut s')) = true -> s_axis_tvalid (ip (dut s)) = true)
  /\ s_axis_tdata (ip (dut s')) = s_axis_tdata (ip (dut s))
  /\ s_axis_tuser (ip (dut s')) = s_axis_tuser (ip (dut s)).
Proof.
  intros Hpc. open_loop_body.
  assert (Hoff : input_active (tick s)
                 && (pixel_count (tick s) <? IMAGE_WIDTH * IMAGE_HEIGHT)
                 = false).
  { apply andb_false_iff. right. apply Z.ltb_ge. exact Hpc. }
  destruct (s_axis_tvalid (ip (dut (tick s)))
            && s_axis_tready (op (dut (tick s)))) eqn:Hacc.
  - apply andb_true_iff in Hacc as [Hv Hr].
    rewrite input_side_retire by assumption. cbn [bind].
    destruct (output_side (retire_handshake (tick s))) as [s2| |] eqn:Hout;
      cbn [bind]; try discriminate.
    intros [= <-]. destruct (output_side_frame _ _ Hout) as (Hd & Hp & _).
    cbn [advance dut eval ip pixel_count]. rewrite Hd, Hp. cbn.
    split_conj; auto; discriminate.
  - rewrite input_side_idle by assumption. cbn [bind].
    destruct (output_side (tick s)) as [s2| |] eqn:Hout;
      cbn [bind]; try discriminate.
    intros [= <-]. destruct (output_side_frame _ _ Hout) as (Hd & Hp & _).
    cbn [advance dut eval ip pixel_count]. rewrite Hd, Hp. cbn.
    split_conj; auto.
Qed.

Lemma iter_body_exhausted (n : nat) :
  forall s sn : sim St,
    IMAGE_WIDTH * IMAGE_HEIGHT <= pixel_count s ->
    iter_body dut_eval tdata_ty tuser_ty n s = Ret sn ->
    pixel_count sn = pixel_count s
    /\ (s_axis_tvalid (ip (dut sn)) = true ->
        s_axis_tvalid (ip (dut s)) = true)
    /\ s_axis_tdata (ip (dut sn)) = s_axis_tdata (ip (dut s))
    /\ s_axis_tuser (ip (dut sn)) = s_axis_tuser (ip (dut s)).
Proof.
  induction n as [|n IH]; intros s sn Hpc Hrun.
  - cbn in Hrun. injection Hrun as <-. auto.
  - cbn [iter_body] in Hrun.
    destruct (loop_body s) as [s1| |] eqn:Hb; cbn [bind] in Hrun;
      try discriminate.
    destruct (loop_body_exhausted s s1 Hpc Hb) as (Hp1 & Hv1 & Hd1 & Hu1).
    destruct (IH s1 sn ltac:(lia) Hrun) as (Hpn & Hvn & Hdn & Hun).
    split_conj; try congruence. auto.
Qed.

(** *** What an iteration shows of the DUT and of the producer *)

Lemma loop_body_op (s s' : sim St) :
  loop_body s = Ret s' ->
  exists st p, op (dut s') = snd (dut_eval st p).
Proof.
  open_loop_body.
  destruct (input_side (tick s)) as [s1| |]; cbn [bind]; try discriminate.
  destruct (output_side s1) as [s2| |]; cbn [bind]; try discriminate.
  intros [= <-]. exists (core (dut s2)), (ip (dut s2)). reflexivity.
Qed.

(** An iteration that counts a pixel leaves that pixel on offer. *)
Lemma loop_body_counts_offer (s s' : sim St) :
  wf s -> loop_body s = Ret s' ->
  pixel_count s' = pixel_count s + 1 ->
  s_axis_tvalid (ip (dut s')) = true /\ input_active s' = false.
Proof.
  intros Hwf Hrun Hcount.
  destruct (loop_body_steps s Hwf) as
    (s1 & s2 & Hs1 & _ & Hbody & Hd2 & _ & Hp2 & Ha2).
  rewrite Hrun in Hbody. injection Hbody as ->.
  destruct Hwf as (Hin & _ & Hpc & _).
  destruct (input_side_cases (tick s)) as (s1' & Hs1' & Hcase);
    [exact Hin | cbn; lia |].
  rewrite Hs1 in Hs1'. injection Hs1' as <-.
  cbn [advance dut eval ip pixel_count input_active] in *.
  rewrite Hd2, Ha2. rewrite Hp2 in Hcount.
  destruct Hcase as [(_ & _ & _ & b0 & b1 & b2 & _ & _ & _ & ->)
                    |[(_ & _ & _ & ->) | (_ & _ & ->)]];
    cbn in *; [auto | lia | lia].
Qed.

(** The loop stops in the very iteration that puts the last pixel on
    offer: a visited state whose count is W*H still has valid asserted. *)
Lemma loop_reach_last_offer (d : Vaxi4s_rgb_dw_pw_top St) (image : list Z)
    (s : sim St) :
  Z.of_nat (length image) = IMAGE_WIDTH * IMAGE_HEIGHT * 3 ->
  loop_reach (loop_entry d image) s ->
  pixel_count s = IMAGE_WIDTH * IMAGE_HEIGHT ->
  s_axis_tvalid (ip (dut s)) = true.
Proof.
  intros Hlen Hreach.
  apply (loop_reach_inv
           (fun s => pixel_count s = IMAGE_WIDTH * IMAGE_HEIGHT ->
                     s_axis_tvalid (ip (dut s)) = true)
           (loop_entry d image)); auto using loop_entry_wf.
  - cbn. unfold IMAGE_WIDTH, IMAGE_HEIGHT. lia.
  - intros s1 s2 Hwf _ Hc Hb Hfull.
    apply loop_cond_true in Hc as [Hlt _].
    destruct (loop_body_spec s1 Hwf) as (s2' & Hb' & _ & _ & _ & _ & Hp & _).
    rewrite Hb in Hb'. injection Hb' as <-.
    apply (loop_body_counts_offer s1 s2 Hwf Hb). lia.
Qed.

(** A DUT that shows no output at entry and produces none in any
    evaluation shows none in any visited state. *)
Lemma loop_reach_never_valid (s0 s : sim St) :
  wf s0 ->
  m_axis_tvalid (op (dut s0)) = false ->
  (forall st p, m_axis_tvalid (snd (dut_eval st p)) = false) ->
  loop_reach s0 s ->
  m_axis_tvalid (op (dut s)) = false.
Proof.
  intros Hwf0 H0 Hdut Hreach.
  apply (loop_reach_inv (fun s => m_axis_tvalid (op (dut s)) = false) s0);
    auto.
  intros s1 s2 _ _ _ Hb.
  destruct (loop_body_op s1 s2 Hb) as (st & p & ->). apply Hdut.
Qed.

(** *** Runs of the body *)

Lemma iter_body_inv (P : sim St -> Prop) :
  (forall s s', P s -> loop_body s = Ret s' -> P s') ->
  forall (n : nat) (s sn : sim St),
    P s -> iter_body dut_eval tdata_ty tuser_ty n s = Ret sn -> P sn.
Proof.
  intros Hstep. induction n as [|n IH]; intros s sn HP Hrun.
  - cbn in Hrun. injection Hrun as <-. exact HP.
  - cbn [iter_body] in Hrun.
    destruct (loop_body s) as [s1| |] eqn:Hb; cbn [bind] in Hrun;
      try discriminate.
    apply (IH s1 sn); [eapply Hstep; eassumption | exact Hrun].
Qed.

Lemma outputs_received_none (n : nat) :
  forall s : sim St,
    (forall k sk, iter_body dut_eval tdata_ty tuser_ty k s = Ret sk ->
                  output_accepted sk = false) ->
    outputs_received dut_eval tdata_ty tuser_ty n s = 0.
Proof.
  induction n as [|n IH]; intros s Hquiet; [reflexivity|].
  cbn [outputs_received]. rewrite (Hquiet O s eq_refl).
  destruct (loop_body s) as [s1| |] eqn:Hb; try reflexivity.
  rewrite IH; [reflexivity|].
  intros k sk Hsk. apply (Hquiet (S k) sk).
  cbn [iter_body]. rewrite Hb. exact Hsk.
Qed.

(** *** A DUT that is always ready for input *)

(** With such a DUT every pixel takes two iterations, one to offer it
    and one to retire the handshake, so the cycle count is tied to the
    pixel count. *)
Lemma always_ready_cycles (d : Vaxi4s_rgb_dw_pw_top St) (image : list Z)
    (s : sim St) :
  (forall st p, s_axis_tready (snd (dut_eval st p)) = true) ->
  Z.of_nat (length image) = IMAGE_WIDTH * IMAGE_HEIGHT * 3 ->
  loop_reach (loop_entry d image) s ->
  cycle_count s
  = 2 * pixel_count s - (if s_axis_tvalid (ip (dut s)) then 1 else 0).
Proof.
  intros Hready Hlen Hreach.
  enough (Hall : wf s /\ producer_inv tdata_ty tuser_ty s
                 /\ cycle_count s
                    = 2 * pixel_count s
                      - (if s_axis_tvalid (ip (dut s)) then 1 else 0)
                 /\ (s_axis_tvalid (ip (dut s)) = true ->
                     s_axis_tready (op (dut s)) = true))
    by (destruct Hall as (_ & _ & H & _); exact H).
  apply (loop_reach_inv
           (fun s => producer_inv tdata_ty tuser_ty s
                     /\ cycle_count s
                        = 2 * pixel_count s
                          - (if s_axis_tvalid (ip (dut s)) then 1 else 0)
                     /\ (s_axis_tvalid (ip (dut s)) = true ->
                         s_axis_tready (op (dut s)) = true))
           (loop_entry d image)); auto using loop_entry_wf.
  - split; [apply loop_entry_producer_inv|]. cbn. split; [reflexivity|discriminate].
  - intros s1 s' Hwf (Hinv & Hcyc & Hrdy) Hc Hb.
    split; [eapply loop_body_producer_inv; eassumption|].
    apply loop_cond_true in Hc as [Hlt _].
    destruct Hinv as (Hact & _).
    destruct (loop_body_steps s1 Hwf) as
      (s2 & s3 & Hs2 & Hs3 & Hbody & Hd3 & _ & Hp3 & _).
    rewrite Hb in Hbody. injection Hbody as ->.
    destruct (loop_body_op s1 _ Hb) as (st & p & Hop).
    destruct (output_side_frame _ _ Hs3) as (_ & _ & _ & _ & Hcc3).
    split.
    + destruct (input_side_cases (tick s1)) as (s2' & Hs2' & Hcase).
      { destruct Hwf as (Hin & _). exact Hin. }
      { destruct Hwf as (_ & _ & Hpc & _). cbn. lia. }
      rewrite Hs2 in Hs2'. injection Hs2' as <-.
      cbn [advance dut eval ip pixel_count cycle_count].
      rewrite Hd3, Hp3, Hcc3.
      destruct Hcase as [(Ha & _ & _ & b0 & b1 & b2 & _ & _ & _ & ->)
                        |[(_ & Hv & _ & ->) | (Hnot & Hidle & ->)]].
      * cbn in Ha. rewrite Ha in Hact.
        destruct (s_axis_tvalid (ip (dut s1))); [discriminate|].
        cbn. lia.
      * cbn in Hv. rewrite Hv in Hcyc. cbn. lia.
      * cbn in Hnot, Hidle. exfalso.
        destruct (s_axis_tvalid (ip (dut s1))) eqn:Hv.
        -- destruct Hnot as [Hn|Hn]; [discriminate|].
           rewrite (Hrdy eq_refl) in Hn. discriminate.
        -- cbn in Hact. destruct (Hidle eq_refl) as [Hi|Hi]; [congruence|lia].
    + intros _. rewrite Hop. apply Hready.
Qed.

(** *** [main] before the loop *)

(** When the register port is ready as soon as the request is made,
    [main] reaches the loop with the gradient image as its input. *)
Lemma main_setup_ready (fuel : nat) (st0 : St) :
  write_ready (assert_write (power_on dut_eval st0) 0) = true ->
  exists image,
    Z.of_nat (length image) = IMAGE_WIDTH * IMAGE_HEIGHT * 3
    /\ (forall y x, 0 <= y < IMAGE_HEIGHT -> 0 <= x < IMAGE_WIDTH ->
                    pattern_at image y x)
    /\ main_setup dut_eval tuser_ty fuel st0
       = Ret (loop_entry
                (deassert_write (assert_write (power_on dut_eval st0) 0))
                image).
Proof.
  intros Hready.
  destruct (generate_test_pattern_spec
              (vec_new (IMAGE_WIDTH * IMAGE_HEIGHT * 3)))
    as (image & Hgen & Hl & Hpat).
  { apply vec_new_length. unfold IMAGE_WIDTH, IMAGE_HEIGHT. lia. }
  exists image. split.
  { rewrite Hl. apply vec_new_length. unfold IMAGE_WIDTH, IMAGE_HEIGHT. lia. }
  split; [exact Hpat|].
  unfold main_setup, configure_kernel.
  rewrite wait_write_handshake_ready by exact Hready.
  cbn [bind]. rewrite Hgen. reflexivity.
Qed.

(** *** A DUT whose user output is a column index *)

(** If every user value the consumer reads is a column index, byte 9 (the
    red channel of pixel 3) of the output image is never written. *)
Lemma column_user_skips_pixel_3 (d : Vaxi4s_rgb_dw_pw_top St)
    (image : list Z) (s : sim St) :
  Z.of_nat (length image) = IMAGE_WIDTH * IMAGE_HEIGHT * 3 ->
  (forall s1, loop_reach (loop_entry d image) s1 ->
              0 <= vl_wrap tuser_ty (m_axis_tuser (op (dut s1))) < IMAGE_WIDTH) ->
  loop_reach (loop_entry d image) s ->
  vec_get (output_image s) 9 = Ret 0.
Proof.
  intros Hlen Hcol Hreach.
  enough (Hall : wf s /\ loop_reach (loop_entry d image) s
                 /\ vec_get (output_image s) 9 = Ret 0)
    by (destruct Hall as (_ & _ & H); exact H).
  apply (loop_reach_inv
           (fun s => loop_reach (loop_entry d image) s
                     /\ vec_get (output_image s) 9 = Ret 0)
           (loop_entry d image)); auto using loop_entry_wf.
  - split; [apply reach_entry|].
    apply vec_get_new. unfold IMAGE_WIDTH, IMAGE_HEIGHT. lia.
  - intros s1 s' Hwf (Hr1 & Hbyte) Hc Hb.
    split; [eapply reach_step; eassumption|].
    destruct (loop_body_steps s1 Hwf) as
      (s2 & s3 & Hs2 & Hs3 & Hbody & _).
    rewrite Hb in Hbody. injection Hbody as ->.
    destruct Hwf as (Hin & Hout & Hpc & _).
    destruct (input_side_total (tick s1)) as
      (s2' & Hs2' & _ & Ho2 & _ & _ & _ & Hop2 & _); [exact Hin|cbn; lia|].
    rewrite Hs2 in Hs2'. injection Hs2' as <-.
    destruct (output_side_spec s2) as
      (s3' & Hs3' & _ & _ & _ & _ & _ & _ & _ & _ & Hframe).
    { rewrite Ho2. exact Hout. }
    rewrite Hs3 in Hs3'. injection Hs3' as <-.
    cbn [advance output_image].
    rewrite Hframe; [rewrite Ho2; exact Hbyte|].
    assert (Hne : out_pixel s2 <> 3).
    { open_out_pixel. rewrite Hop2.
      apply column_never_selects_pixel_3. apply (Hcol s1 Hr1). }
    lia.
Qed.

End HarnessFacts.

(** * Results on the frame source *)

(** Every byte index of the image is a channel of a pixel (x, y). *)
Lemma byte_index_split (i : Z) :
  0 <= i < IMAGE_WIDTH * IMAGE_HEIGHT * 3 ->
  exists y x c,
    0 <= y < IMAGE_HEIGHT /\ 0 <= x < IMAGE_WIDTH /\ 0 <= c < 3
    /\ i = (y * IMAGE_WIDTH + x) * 3 + c.
Proof.
  unfold IMAGE_WIDTH, IMAGE_HEIGHT. intros Hi.
  exists (i / 3 / 640), ((i / 3) mod 640), (i mod 3).
  pose proof (Z.div_mod i 3 ltac:(lia)).
  pose proof (Z.mod_pos_bound i 3 ltac:(lia)).
  pose proof (Z.div_mod (i / 3) 640 ltac:(lia)).
  pose proof (Z.mod_pos_bound (i / 3) 640 ltac:(lia)).
  lia.
Qed.

Lemma pattern_unique (u v : list Z) :
  Z.of_nat (length u) = IMAGE_WIDTH * IMAGE_HEIGHT * 3 ->
  Z.of_nat (length v) = IMAGE_WIDTH * IMAGE_HEIGHT * 3 ->
  (forall y x, 0 <= y < IMAGE_HEIGHT -> 0 <= x < IMAGE_WIDTH -> pattern_at u y x) ->
  (forall y x, 0 <= y < IMAGE_HEIGHT -> 0 <= x < IMAGE_WIDTH -> pattern_at v y x) ->
  u = v.
Proof.
  intros Hu Hv Pu Pv. apply vec_ext; [lia|].
  intros i Hi. rewrite Hu in Hi.
  destruct (byte_index_split i Hi) as (y & x & c & Hy & Hx & Hc & ->).
  destruct (Pu y x Hy Hx) as (U0 & U1 & U2).
  destruct (Pv y x Hy Hx) as (V0 & V1 & V2).
  assert (Hcase : c = 0 \/ c = 1 \/ c = 2) by lia.
  destruct Hcase as [-> | [-> | ->]]; congruence.
Qed.

(** C10.  Given the buffer of W*H*3 bytes that [main] allocates, the frame
    source returns a buffer of W*H*3 bytes in which pixel (x, y) holds
    R = floor(x*255/W), G = floor(y*255/H), B = floor((x+y)*255/(W+H));
    the result is the same whatever the buffer held before, and the
    function touches nothing but the buffer. *)
Theorem generate_test_pattern_gradient (image : list Z) (x y : Z) :
  Z.of_nat (length image) = IMAGE_WIDTH * IMAGE_HEIGHT * 3 ->
  0 <= x < IMAGE_WIDTH ->
  0 <= y < IMAGE_HEIGHT ->
  exists image',
    generate_test_pattern image = Ret image'
    /\ Z.of_nat (length image') = IMAGE_WIDTH * IMAGE_HEIGHT * 3
    /\ vec_get image' ((y * IMAGE_WIDTH + x) * 3 + 0)
       = Ret (x * 255 / IMAGE_WIDTH)
    /\ vec_get image' ((y * IMAGE_WIDTH + x) * 3 + 1)
       = Ret (y * 255 / IMAGE_HEIGHT)
    /\ vec_get image' ((y * IMAGE_WIDTH + x) * 3 + 2)
       = Ret ((x + y) * 255 / (IMAGE_WIDTH + IMAGE_HEIGHT))
    /\ (forall other : list Z,
          Z.of_nat (length other) = IMAGE_WIDTH * IMAGE_HEIGHT * 3 ->
          generate_test_pattern other = Ret image').
Proof.
  intros Hlen Hx Hy.
  destruct (generate_test_pattern_spec image Hlen) as (im & Hrun & Hl & Hpat).
  exists im. split; [exact Hrun|]. split; [lia|].
  destruct (Hpat y x Hy Hx) as (H0 & H1 & H2).
  split_conj; auto.
  intros other Hother.
  destruct (generate_test_pattern_spec other Hother) as (im' & Hrun' & Hl' & Hpat').
  rewrite Hrun'. f_equal. apply pattern_unique; auto; lia.
Qed.

Lemma generate_test_pattern_gradient_witness :
  exists image',
    generate_test_pattern (vec_new (IMAGE_WIDTH * IMAGE_HEIGHT * 3)) = Ret image'
    /\ Z.of_nat (length image') = IMAGE_WIDTH * IMAGE_HEIGHT * 3
    /\ vec_get image' ((7 * IMAGE_WIDTH + 3) * 3 + 0) = Ret (3 * 255 / IMAGE_WIDTH)
    /\ vec_get image' ((7 * IMAGE_WIDTH + 3) * 3 + 1) = Ret (7 * 255 / IMAGE_HEIGHT)
    /\ vec_get image' ((7 * IMAGE_WIDTH + 3) * 3 + 2)
       = Ret ((3 + 7) * 255 / (IMAGE_WIDTH + IMAGE_HEIGHT))
    /\ (forall other : list Z,
          Z.of_nat (length other) = IMAGE_WIDTH * IMAGE_HEIGHT * 3 ->
          generate_test_pattern other = Ret image').
Proof.
  apply (generate_test_pattern_gradient
           (vec_new (IMAGE_WIDTH * IMAGE_HEIGHT * 3)) 3 7).
  - apply vec_new_length. unfold IMAGE_WIDTH, IMAGE_HEIGHT. lia.
  - unfold IMAGE_WIDTH. lia.
  - unfold IMAGE_HEIGHT. lia.
Defined.

(** * Results on the stream consumer *)

(** A user value of 480 would name row 480; the reduction modulo W*H
    sends the transfer to pixel 481 instead. *)
Example tuser_480_wraps : out_pixel_of SData 480 = 481.
Proof. reflexivity. Qed.

(** C3.  Whatever data and user value the DUT presents, the consumer step
    completes without an access outside the output buffer, keeps its
    length, and changes no byte outside one pixel whose index lies in
    [0, W*H); and the guarded store leaves the buffer untouched when it is
    handed an index at or beyond W*H. *)
Theorem consumer_stays_in_bounds {St : Type} (tdata_ty tuser_ty : vl_type)
    (s : sim St) (p r g b : Z) :
  Z.of_nat (length (output_image s)) = IMAGE_WIDTH * IMAGE_HEIGHT * 3 ->
  IMAGE_WIDTH * IMAGE_HEIGHT <= p ->
  (exists s',
      output_side tdata_ty tuser_ty s = Ret s'
      /\ length (output_image s') = length (output_image s)
      /\ 0 <= out_pixel tuser_ty s < IMAGE_WIDTH * IMAGE_HEIGHT
      /\ (forall j, j < out_pixel tuser_ty s * 3
                    \/ (out_pixel tuser_ty s + 1) * 3 <= j ->
                    vec_get (output_image s') j = vec_get (output_image s) j))
  /\ store_pixel p r g b (output_image s) = Ret (output_image s).
Proof.
  intros Hlen Hp. split.
  - destruct (output_side_spec tdata_ty tuser_ty s Hlen)
      as (s' & Hrun & _ & _ & _ & _ & _ & Hl & _ & _ & Hframe).
    exists s'. split_conj; auto; apply out_pixel_of_range.
  - apply store_pixel_dropped. exact Hp.
Qed.

Lemma consumer_stays_in_bounds_witness :
  (exists s',
      output_side IData SData sample_output_state = Ret s'
      /\ length (output_image s') = length (output_image sample_output_state)
      /\ 0 <= out_pixel SData sample_output_state < IMAGE_WIDTH * IMAGE_HEIGHT
      /\ (forall j, j < out_pixel SData sample_output_state * 3
                    \/ (out_pixel SData sample_output_state + 1) * 3 <= j ->
                    vec_get (output_image s') j
                    = vec_get (output_image sample_output_state) j))
  /\ store_pixel (IMAGE_WIDTH * IMAGE_HEIGHT) 1 2 3
       (output_image sample_output_state)
     = Ret (output_image sample_output_state).
Proof.
  apply (consumer_stays_in_bounds IData SData sample_output_state
           (IMAGE_WIDTH * IMAGE_HEIGHT) 1 2 3).
  - apply vec_new_length. unfold IMAGE_WIDTH, IMAGE_HEIGHT. lia.
  - lia.
Defined.

(** C4.  For every accepted output transfer the guard
    [out_pixel < IMAGE_WIDTH * IMAGE_HEIGHT] is true, because the index has
    just been reduced modulo W*H: the drop branch is never taken and the
    three channel bytes are written at the reduced index, also when the
    user value named a position outside the image. *)
Theorem accepted_output_always_stored {St : Type} (tdata_ty tuser_ty : vl_type)
    (s : sim St) :
  Z.of_nat (length (output_image s)) = IMAGE_WIDTH * IMAGE_HEIGHT * 3 ->
  output_accepted s = true ->
  (out_pixel tuser_ty s <? IMAGE_WIDTH * IMAGE_HEIGHT) = true
  /\ exists s',
       output_side tdata_ty tuser_ty s = Ret s'
       /\ vec_get (output_image s') (out_pixel tuser_ty s * 3 + 0)
          = Ret (Z.land (output_data tdata_ty s) 255)
       /\ vec_get (output_image s') (out_pixel tuser_ty s * 3 + 1)
          = Ret (Z.land (Z.shiftr (output_data tdata_ty s) 8) 255)
       /\ vec_get (output_image s') (out_pixel tuser_ty s * 3 + 2)
          = Ret (Z.land (Z.shiftr (output_data tdata_ty s) 16) 255).
Proof.
  intros Hlen Hacc. split.
  - apply Z.ltb_lt. apply out_pixel_of_range.
  - destruct (output_side_spec tdata_ty tuser_ty s Hlen)
      as (s' & Hrun & _ & _ & _ & _ & _ & _ & _ & Hbytes & _).
    exists s'. split; [exact Hrun|]. exact (Hbytes Hacc).
Qed.

Lemma accepted_output_always_stored_witness :
  (out_pixel SData sample_output_state <? IMAGE_WIDTH * IMAGE_HEIGHT) = true
  /\ exists s',
       output_side IData SData sample_output_state = Ret s'
       /\ vec_get (output_image s') (out_pixel SData sample_output_state * 3 + 0)
          = Ret (Z.land (output_data IData sample_output_state) 255)
       /\ vec_get (output_image s') (out_pixel SData sample_output_state * 3 + 1)
          = Ret (Z.land (Z.shiftr (output_data IData sample_output_state) 8) 255)
       /\ vec_get (output_image s') (out_pixel SData sample_output_state * 3 + 2)
          = Ret (Z.land (Z.shiftr (output_data IData sample_output_state) 16) 255).
Proof.
  apply (accepted_output_always_stored IData SData sample_output_state).
  - apply vec_new_length. unfold IMAGE_WIDTH, IMAGE_HEIGHT. lia.
  - reflexivity.
Defined.

(** * Results on the stream producer *)

Lemma sink_first_offer_body :
  loop_body sink_eval IData SData sink_entry = Ret sink_first_offer.
Proof.
  unfold sink_first_offer, sink_entry.
  apply loop_body_first_offer. reflexivity.
Qed.

Lemma sink_first_offer_reach :
  loop_reach sink_eval IData SData sink_entry sink_first_offer.
Proof.
  eapply reach_step; [apply reach_entry | reflexivity |].
  apply sink_first_offer_body.
Qed.

(** C9.  In every state of the loop in which a transfer is on offer, the
    transfer is pixel i = pixel_count - 1 of the input image, and
    [s_axis_tlast] is asserted if and only if (i + 1) mod W = 0. *)
Theorem tlast_marks_row_end {St : Type}
    (dut_eval : St -> in_pins -> St * out_pins) (tdata_ty tuser_ty : vl_type)
    (d : Vaxi4s_rgb_dw_pw_top St) (image : list Z) (s : sim St) :
  Z.of_nat (length image) = IMAGE_WIDTH * IMAGE_HEIGHT * 3 ->
  loop_reach dut_eval tdata_ty tuser_ty (loop_entry tuser_ty d image) s ->
  s_axis_tvalid (ip (dut s)) = true ->
  0 <= pixel_count s - 1 < IMAGE_WIDTH * IMAGE_HEIGHT
  /\ (exists b0 b1 b2,
        vec_get image ((pixel_count s - 1) * 3 + 0) = Ret b0
        /\ vec_get image ((pixel_count s - 1) * 3 + 1) = Ret b1
        /\ vec_get image ((pixel_count s - 1) * 3 + 2) = Ret b2
        /\ s_axis_tdata (ip (dut s)) = vl_wrap tdata_ty (pack_rgb b0 b1 b2))
  /\ (s_axis_tlast (ip (dut s)) = true
      <-> (pixel_count s - 1 + 1) mod IMAGE_WIDTH = 0).
Proof.
  intros Hlen Hreach Hvalid.
  pose proof (loop_entry_wf tuser_ty d image Hlen) as Hwf0.
  destruct (loop_reach_producer_inv dut_eval tdata_ty tuser_ty d image s
              Hlen Hreach) as (Hwf & _ & Hpend).
  pose proof (loop_reach_input_image dut_eval tdata_ty tuser_ty _ s Hwf0 Hreach)
    as Himg.
  cbn [loop_entry input_image] in Himg.
  destruct (Hpend Hvalid) as (b0 & b1 & b2 & Hi & H0 & H1 & H2 & Hd & Hl & _).
  destruct Hwf as (_ & _ & Hpc & _).
  split; [lia|]. split.
  - exists b0, b1, b2. rewrite <- Himg. auto.
  - rewrite Hl, Z.eqb_eq. rewrite Z.rem_mod_nonneg by (unfold IMAGE_WIDTH; lia).
    reflexivity.
Qed.

Lemma tlast_marks_row_end_witness :
  0 <= pixel_count sink_first_offer - 1 < IMAGE_WIDTH * IMAGE_HEIGHT
  /\ (exists b0 b1 b2,
        vec_get (vec_new (IMAGE_WIDTH * IMAGE_HEIGHT * 3))
          ((pixel_count sink_first_offer - 1) * 3 + 0) = Ret b0
        /\ vec_get (vec_new (IMAGE_WIDTH * IMAGE_HEIGHT * 3))
             ((pixel_count sink_first_offer - 1) * 3 + 1) = Ret b1
        /\ vec_get (vec_new (IMAGE_WIDTH * IMAGE_HEIGHT * 3))
             ((pixel_count sink_first_offer - 1) * 3 + 2) = Ret b2
        /\ s_axis_tdata (ip (dut sink_first_offer))
           = vl_wrap IData (pack_rgb b0 b1 b2))
  /\ (s_axis_tlast (ip (dut sink_first_offer)) = true
      <-> (pixel_count sink_first_offer - 1 + 1) mod IMAGE_WIDTH = 0).
Proof.
  apply (tlast_marks_row_end sink_eval IData SData (new_dut tt)
           (vec_new (IMAGE_WIDTH * IMAGE_HEIGHT * 3)) sink_first_offer).
  - apply vec_new_length. unfold IMAGE_WIDTH, IMAGE_HEIGHT. lia.
  - exact sink_first_offer_reach.
  - reflexivity.
Defined.

Lemma stall_first_offer_reach :
  loop_reach slow_cfg_eval IData SData stall_entry stall_first_offer.
Proof.
  eapply reach_step; [apply reach_entry | reflexivity |].
  unfold stall_first_offer, stall_entry.
  apply loop_body_first_offer. reflexivity.
Qed.

Lemma stall_two_iterations :
  iter_body slow_cfg_eval IData SData 2 stall_first_offer = Ret stall_two_later.
Proof.
  cbn [iter_body].
  rewrite (loop_body_stalled slow_cfg_eval IData SData stall_first_offer)
    by reflexivity.
  cbn [bind].
  rewrite (loop_body_stalled slow_cfg_eval IData SData
             (advance slow_cfg_eval (tick stall_first_offer)))
    by reflexivity.
  reflexivity.
Qed.

Lemma stall_never_ready (k : nat) (sk : sim nat) :
  (k < 2)%nat ->
  iter_body slow_cfg_eval IData SData k stall_first_offer = Ret sk ->
  s_axis_tready (op (dut sk)) = false.
Proof.
  intros Hk. destruct k as [|[|k]]; [| |lia].
  - intros [= <-]. reflexivity.
  - cbn [iter_body].
    rewrite (loop_body_stalled slow_cfg_eval IData SData stall_first_offer)
      by reflexivity.
    intros [= <-]. reflexivity.
Qed.

(** C8.  From any state of the loop in which a pixel is on offer: as long
    as the DUT has not raised ready, every further iteration leaves valid
    asserted and data, last and user unchanged, and counts no new pixel;
    and no iteration that starts with valid asserted offers another pixel,
    so at most one pixel is pending at any time. *)
Theorem pending_pixel_reoffered {St : Type}
    (dut_eval : St -> in_pins -> St * out_pins) (tdata_ty tuser_ty : vl_type)
    (d : Vaxi4s_rgb_dw_pw_top St) (image : list Z)
    (s : sim St) (n : nat) (sn : sim St) :
  Z.of_nat (length image) = IMAGE_WIDTH * IMAGE_HEIGHT * 3 ->
  loop_reach dut_eval tdata_ty tuser_ty (loop_entry tuser_ty d image) s ->
  s_axis_tvalid (ip (dut s)) = true ->
  iter_body dut_eval tdata_ty tuser_ty n s = Ret sn ->
  (forall k sk, (k < n)%nat ->
                iter_body dut_eval tdata_ty tuser_ty k s = Ret sk ->
                s_axis_tready (op (dut sk)) = false) ->
  (s_axis_tvalid (ip (dut sn)) = true
   /\ s_axis_tdata (ip (dut sn)) = s_axis_tdata (ip (dut s))
   /\ s_axis_tlast (ip (dut sn)) = s_axis_tlast (ip (dut s))
   /\ s_axis_tuser (ip (dut sn)) = s_axis_tuser (ip (dut s))
   /\ pixel_count sn = pixel_count s)
  /\ input_active s = false
  /\ (forall s', loop_body dut_eval tdata_ty tuser_ty s = Ret s' ->
                 pixel_count s' = pixel_count s).
Proof.
  intros Hlen Hreach Hv Hrun Hstall.
  destruct (loop_reach_producer_inv dut_eval tdata_ty tuser_ty d image s
              Hlen Hreach) as (Hwf & Hinv).
  split; [eapply iter_body_hold; eassumption|]. split.
  - destruct Hinv as (Hact & _). rewrite Hact, Hv. reflexivity.
  - intros s' Hb. eapply valid_blocks_offer; eassumption.
Qed.

Lemma pending_pixel_reoffered_witness :
  (s_axis_tvalid (ip (dut stall_two_later)) = true
   /\ s_axis_tdata (ip (dut stall_two_later))
      = s_axis_tdata (ip (dut stall_first_offer))
   /\ s_axis_tlast (ip (dut stall_two_later))
      = s_axis_tlast (ip (dut stall_first_offer))
   /\ s_axis_tuser (ip (dut stall_two_later))
      = s_axis_tuser (ip (dut stall_first_offer))
   /\ pixel_count stall_two_later = pixel_count stall_first_offer)
  /\ input_active stall_first_offer = false
  /\ (forall s', loop_body slow_cfg_eval IData SData stall_first_offer = Ret s' ->
                 pixel_count s' = pixel_count stall_first_offer).
Proof.
  apply (pending_pixel_reoffered slow_cfg_eval IData SData (new_dut 0%nat)
           (vec_new (IMAGE_WIDTH * IMAGE_HEIGHT * 3))
           stall_first_offer 2 stall_two_later).
  - apply vec_new_length. unfold IMAGE_WIDTH, IMAGE_HEIGHT. lia.
  - exact stall_first_offer_reach.
  - reflexivity.
  - exact stall_two_iterations.
  - exact stall_never_ready.
Defined.

(** * Results on the register configuration driver *)

(** C6.  [configure_kernel] puts address 0, the first coefficient, both
    valids and strobe 0xF on the pins and leaves the clocks alone; it then
    calls [eval] with every input pin held until the first evaluation
    count [n] at which both readies are seen together, clears the two
    valids and returns.  The other eight coefficients never reach a pin:
    the result does not depend on them. *)
Theorem configure_kernel_single_write {St : Type}
    (dut_eval : St -> in_pins -> St * out_pins)
    (d : Vaxi4s_rgb_dw_pw_top St)
    (k00 k01 k02 k10 k11 k12 k20 k21 k22 : Z) (n fuel : nat) :
  (forall i, (i < n)%nat ->
             write_ready (evals dut_eval i (assert_write d k00)) = false) ->
  write_ready (evals dut_eval n (assert_write d k00)) = true ->
  (n <= fuel)%nat ->
  (s_axi_awaddr (ip (assert_write d k00)) = 0
   /\ s_axi_awvalid (ip (assert_write d k00)) = true
   /\ s_axi_wdata (ip (assert_write d k00)) = uint8 k00
   /\ s_axi_wvalid (ip (assert_write d k00)) = true
   /\ s_axi_wstrb (ip (assert_write d k00)) = 15
   /\ clk (ip (assert_write d k00)) = clk (ip d)
   /\ s_axi_aclk (ip (assert_write d k00)) = s_axi_aclk (ip d))
  /\ (forall i, (i <= n)%nat ->
                ip (evals dut_eval i (assert_write d k00))
                = ip (assert_write d k00))
  /\ configure_kernel dut_eval fuel d k00 k01 k02 k10 k11 k12 k20 k21 k22
     = Ret (deassert_write (evals dut_eval n (assert_write d k00)))
  /\ (s_axi_awvalid
        (ip (deassert_write (evals dut_eval n (assert_write d k00)))) = false
      /\ s_axi_wvalid
           (ip (deassert_write (evals dut_eval n (assert_write d k00)))) = false
      /\ s_axi_awaddr
           (ip (deassert_write (evals dut_eval n (assert_write d k00)))) = 0
      /\ s_axi_wdata
           (ip (deassert_write (evals dut_eval n (assert_write d k00))))
         = uint8 k00
      /\ clk (ip (deassert_write (evals dut_eval n (assert_write d k00))))
         = clk (ip d)
      /\ s_axi_aclk
           (ip (deassert_write (evals dut_eval n (assert_write d k00))))
         = s_axi_aclk (ip d))
  /\ (forall c01 c02 c10 c11 c12 c20 c21 c22 : Z,
        configure_kernel dut_eval fuel d k00 c01 c02 c10 c11 c12 c20 c21 c22
        = configure_kernel dut_eval fuel d k00 k01 k02 k10 k11 k12 k20 k21 k22).
Proof.
  intros Hbusy Hready Hfuel.
  split; [cbn; split_conj; reflexivity|].
  split; [intros i _; apply evals_ip|].
  split.
  - unfold configure_kernel.
    rewrite (wait_write_handshake_spec dut_eval n _ fuel Hbusy Hready Hfuel).
    reflexivity.
  - split; [|intros; reflexivity].
    unfold deassert_write. cbn [drive ip]. rewrite evals_ip.
    cbn. split_conj; reflexivity.
Qed.

Lemma slow_cfg_busy (i : nat) :
  (i < 2)%nat ->
  write_ready (evals slow_cfg_eval i (assert_write (new_dut 0%nat) 7)) = false.
Proof. intros Hi. destruct i as [|[|i]]; [reflexivity|reflexivity|lia]. Qed.

Lemma configure_kernel_single_write_witness :
  configure_kernel slow_cfg_eval 5 (new_dut 0%nat) 7 1 2 3 4 5 6 7 8
  = Ret (deassert_write (evals slow_cfg_eval 2 (assert_write (new_dut 0%nat) 7)))
  /\ (forall c01 c02 c10 c11 c12 c20 c21 c22 : Z,
        configure_kernel slow_cfg_eval 5 (new_dut 0%nat) 7
          c01 c02 c10 c11 c12 c20 c21 c22
        = configure_kernel slow_cfg_eval 5 (new_dut 0%nat) 7 1 2 3 4 5 6 7 8).
Proof.
  destruct (configure_kernel_single_write slow_cfg_eval (new_dut 0%nat)
              7 1 2 3 4 5 6 7 8 2 5)
    as (_ & _ & Hrun & _ & Hindep).
  - exact slow_cfg_busy.
  - reflexivity.
  - lia.
  - split; [exact Hrun | exact Hindep].
Defined.

(** * Results on the cycle driver *)

(** C7.  Whatever the DUT does, the loop returns after [n] iterations with
    [n] at most [maxCycles]; and if the DUT shows no valid output in any
    state the loop passes through, the output image returned is the
    zero-initialised buffer. *)
Theorem main_loop_terminates {St : Type}
    (dut_eval : St -> in_pins -> St * out_pins) (tdata_ty tuser_ty : vl_type)
    (d : Vaxi4s_rgb_dw_pw_top St) (image : list Z) :
  Z.of_nat (length image) = IMAGE_WIDTH * IMAGE_HEIGHT * 3 ->
  exists (n : nat) (sf : sim St),
    main_loop dut_eval tdata_ty tuser_ty (loop_entry tuser_ty d image) = Ret sf
    /\ iter_body dut_eval tdata_ty tuser_ty n (loop_entry tuser_ty d image)
       = Ret sf
    /\ Z.of_nat n <= maxCycles
    /\ cycle_count sf = Z.of_nat n
    /\ loop_cond sf = false
    /\ ((forall s,
           loop_reach dut_eval tdata_ty tuser_ty (loop_entry tuser_ty d image) s ->
           m_axis_tvalid (op (dut s)) = false) ->
        output_image sf = vec_new (IMAGE_WIDTH * IMAGE_HEIGHT * 3)).
Proof.
  intros Hlen.
  pose proof (loop_entry_wf tuser_ty d image Hlen) as Hwf0.
  destruct (main_loop_reach dut_eval tdata_ty tuser_ty _ Hwf0)
    as (n & sf & Hrun & Hit & Hreach & Hwf & Hc & Hcc & _).
  exists n, sf. cbn [loop_entry cycle_count] in Hcc.
  destruct Hwf as (_ & _ & _ & Hbound).
  split_conj; auto; try lia.
  intros Hquiet.
  set (s0 := loop_entry tuser_ty d image) in *.
  destruct (loop_reach_inv dut_eval tdata_ty tuser_ty
              (fun s => loop_reach dut_eval tdata_ty tuser_ty s0 s
                        /\ output_image s = output_image s0)
              s0 Hwf0) with (s := sf) as (_ & _ & Hout); auto.
  - split; [apply reach_entry|reflexivity].
  - intros s1 s2 Hwf1 (Hr1 & Ho1) Hc1 Hb1.
    split; [eapply reach_step; eassumption|].
    destruct (loop_body_spec dut_eval tdata_ty tuser_ty s1 Hwf1)
      as (s2' & Hb' & _ & _ & _ & _ & _ & Hkeep).
    rewrite Hb1 in Hb'. injection Hb' as <-.
    rewrite Hkeep by (apply Hquiet; exact Hr1). exact Ho1.
Qed.

Lemma main_loop_terminates_witness :
  exists (n : nat) (sf : sim unit),
    main_loop sink_eval IData SData sink_entry = Ret sf
    /\ iter_body sink_eval IData SData n sink_entry = Ret sf
    /\ Z.of_nat n <= maxCycles
    /\ cycle_count sf = Z.of_nat n
    /\ loop_cond sf = false
    /\ output_image sf = vec_new (IMAGE_WIDTH * IMAGE_HEIGHT * 3).
Proof.
  unfold sink_entry.
  destruct (main_loop_terminates sink_eval IData SData (new_dut tt)
              (vec_new (IMAGE_WIDTH * IMAGE_HEIGHT * 3)))
    as (n & sf & Hrun & Hit & Hn & Hcc & Hc & Hzero).
  - apply vec_new_length. unfold IMAGE_WIDTH, IMAGE_HEIGHT. lia.
  - exists n, sf. split_conj; auto.
    apply Hzero. intros s Hreach.
    eapply loop_reach_never_valid; [| | |exact Hreach].
    + apply loop_entry_wf. apply vec_new_length.
      unfold IMAGE_WIDTH, IMAGE_HEIGHT. lia.
    + reflexivity.
    + reflexivity.
Defined.

(** What line 113 tests.  The loop returns at the first state in which
    the producer's count of offered input pixels has reached W*H or the
    cycle counter has reached [maxCycles], every earlier state having
    neither; when it returns on the count, the last pixel has only just
    been put on offer. *)
Theorem main_loop_exit_condition {St : Type}
    (dut_eval : St -> in_pins -> St * out_pins) (tdata_ty tuser_ty : vl_type)
    (d : Vaxi4s_rgb_dw_pw_top St) (image : list Z) :
  Z.of_nat (length image) = IMAGE_WIDTH * IMAGE_HEIGHT * 3 ->
  exists (n : nat) (sf : sim St),
    main_loop dut_eval tdata_ty tuser_ty (loop_entry tuser_ty d image) = Ret sf
    /\ iter_body dut_eval tdata_ty tuser_ty n (loop_entry tuser_ty d image)
       = Ret sf
    /\ (pixel_count sf = IMAGE_WIDTH * IMAGE_HEIGHT
        \/ cycle_count sf = maxCycles)
    /\ (forall k sk,
          (k < n)%nat ->
          iter_body dut_eval tdata_ty tuser_ty k (loop_entry tuser_ty d image)
          = Ret sk ->
          pixel_count sk < IMAGE_WIDTH * IMAGE_HEIGHT
          /\ cycle_count sk < maxCycles)
    /\ (pixel_count sf = IMAGE_WIDTH * IMAGE_HEIGHT ->
        s_axis_tvalid (ip (dut sf)) = true).
Proof.
  intros Hlen.
  pose proof (loop_entry_wf tuser_ty d image Hlen) as Hwf0.
  destruct (main_loop_reach dut_eval tdata_ty tuser_ty _ Hwf0)
    as (n & sf & Hrun & Hit & Hreach & Hwf & Hc & Hcc & Hpre).
  exists n, sf. split; [exact Hrun|]. split; [exact Hit|]. split; [|split].
  - apply loop_cond_false in Hc. destruct Hwf as (_ & _ & Hp & Hb).
    destruct Hc; [left|right]; lia.
  - intros k sk Hk Hsk. apply loop_cond_true. eapply Hpre; eassumption.
  - intros Hfull.
    eapply loop_reach_last_offer; eassumption.
Qed.

Lemma main_loop_exit_condition_witness :
  exists (n : nat) (sf : sim unit),
    main_loop sink_eval IData SData sink_entry = Ret sf
    /\ iter_body sink_eval IData SData n sink_entry = Ret sf
    /\ (pixel_count sf = IMAGE_WIDTH * IMAGE_HEIGHT
        \/ cycle_count sf = maxCycles)
    /\ (forall k sk,
          (k < n)%nat ->
          iter_body sink_eval IData SData k sink_entry = Ret sk ->
          pixel_count sk < IMAGE_WIDTH * IMAGE_HEIGHT
          /\ cycle_count sk < maxCycles)
    /\ (pixel_count sf = IMAGE_WIDTH * IMAGE_HEIGHT ->
        s_axis_tvalid (ip (dut sf)) = true).
Proof.
  unfold sink_entry.
  apply (main_loop_exit_condition sink_eval IData SData (new_dut tt)
           (vec_new (IMAGE_WIDTH * IMAGE_HEIGHT * 3))).
  apply vec_new_length. unfold IMAGE_WIDTH, IMAGE_HEIGHT. lia.
Defined.

(** C2 on the code.  The loop is to run until all W*H output pixels are
    received or the budget is spent.  With the sink attached, [main]
    leaves the loop well within the budget although the consumer has
    accepted no output transfer at all: neither of the two conditions
    holds at exit. *)
Lemma sink_exits_without_output :
  exists (e : sim unit) (n : nat) (sf : sim unit),
    main_setup sink_eval SData 0 tt = Ret e
    /\ main sink_eval IData SData 0 tt = Ret sf
    /\ iter_body sink_eval IData SData n e = Ret sf
    /\ outputs_received sink_eval IData SData n e = 0
    /\ cycle_count sf < maxCycles
    /\ ~ (outputs_received sink_eval IData SData n e
          = IMAGE_WIDTH * IMAGE_HEIGHT
          \/ cycle_count sf = maxCycles).
Proof.
  destruct (main_setup_ready sink_eval SData 0 tt eq_refl)
    as (image & Hlen & _ & Hsetup).
  set (d := deassert_write (assert_write (power_on sink_eval tt) 0)) in *.
  pose proof (loop_entry_wf SData d image Hlen) as Hwf0.
  destruct (main_loop_reach sink_eval IData SData _ Hwf0)
    as (n & sf & Hrun & Hit & Hreach & Hwf & _ & _ & _).
  assert (Hnone : outputs_received sink_eval IData SData n
                    (loop_entry SData d image) = 0).
  { apply outputs_received_none. intros k sk Hsk.
    enough (Hq : m_axis_tvalid (op (dut sk)) = false)
      by (unfold output_accepted; rewrite Hq; reflexivity).
    apply (iter_body_inv sink_eval IData SData
             (fun s => m_axis_tvalid (op (dut s)) = false))
      with (n := k) (s := loop_entry SData d image); auto.
    intros s s' _ Hb.
    destruct (loop_body_op sink_eval IData SData s s' Hb) as (st & p & ->).
    reflexivity. }
  assert (Hcyc : cycle_count sf < maxCycles).
  { pose proof (always_ready_cycles sink_eval IData SData d image sf
                  (fun _ _ => eq_refl) Hlen Hreach) as Hc.
    destruct Hwf as (_ & _ & Hpc & _).
    unfold IMAGE_WIDTH, IMAGE_HEIGHT, maxCycles in *.
    destruct (s_axis_tvalid (ip (dut sf))); lia. }
  exists (loop_entry SData d image), n, sf.
  split; [exact Hsetup|]. split.
  { unfold main. rewrite Hsetup. exact Hrun. }
  split; [exact Hit|]. split; [exact Hnone|]. split; [exact Hcyc|].
  rewrite Hnone. unfold IMAGE_WIDTH, IMAGE_HEIGHT. lia.
Qed.

(** * The pass-through DUT *)

(** With the pass-through attached, the user value on both ports is
    always the column index the producer wrote. *)
Lemma passthrough_user_is_column (tdata_ty tuser_ty : vl_type)
    (d : Vaxi4s_rgb_dw_pw_top unit) (image : list Z) (s : sim unit) :
  Z.of_nat (length image) = IMAGE_WIDTH * IMAGE_HEIGHT * 3 ->
  0 <= m_axis_tuser (op d) < IMAGE_WIDTH ->
  loop_reach passthrough_eval tdata_ty tuser_ty (loop_entry tuser_ty d image) s ->
  0 <= s_axis_tuser (ip (dut s)) < IMAGE_WIDTH
  /\ 0 <= m_axis_tuser (op (dut s)) < IMAGE_WIDTH.
Proof.
  intros Hlen Hd Hreach.
  enough (Hall : wf s
                 /\ (0 <= s_axis_tuser (ip (dut s)) < IMAGE_WIDTH
                     /\ 0 <= m_axis_tuser (op (dut s)) < IMAGE_WIDTH))
    by (destruct Hall as (_ & H); exact H).
  apply (loop_reach_inv passthrough_eval tdata_ty tuser_ty
           (fun s => 0 <= s_axis_tuser (ip (dut s)) < IMAGE_WIDTH
                     /\ 0 <= m_axis_tuser (op (dut s)) < IMAGE_WIDTH)
           (loop_entry tuser_ty d image)); auto using loop_entry_wf.
  - cbn [loop_entry dut drive ip op]. split; [|exact Hd].
    cbn. pose proof (vl_wrap_le tuser_ty 0 ltac:(lia)).
    unfold IMAGE_WIDTH. lia.
  - intros s1 s' Hwf (Hu & Hm) _ Hb.
    destruct (loop_body_steps passthrough_eval tdata_ty tuser_ty s1 Hwf) as
      (s2 & s3 & Hs2 & _ & Hbody & Hd3 & _).
    rewrite Hb in Hbody. injection Hbody as ->.
    destruct Hwf as (Hin & _ & Hpc & _).
    assert (Hu2 : 0 <= s_axis_tuser (ip (dut s2)) < IMAGE_WIDTH).
    { destruct (input_side_cases tdata_ty tuser_ty (tick s1))
        as (s2' & Hs2' & Hcase); [exact Hin|cbn; lia|].
      rewrite Hs2 in Hs2'. injection Hs2' as <-.
      destruct Hcase as [(_ & _ & _ & b0 & b1 & b2 & _ & _ & _ & ->)
                        |[(_ & _ & _ & ->) | (_ & _ & ->)]]; cbn.
      - assert (Hr : 0 <= Z.rem (pixel_count s1) IMAGE_WIDTH < IMAGE_WIDTH)
          by (apply Z.rem_bound_pos; [lia|reflexivity]).
        pose proof (vl_wrap_le tuser_ty _ (proj1 Hr)). lia.
      - exact Hu.
      - exact Hu. }
    cbn [advance dut eval ip op passthrough_eval snd m_axis_tuser].
    rewrite Hd3. split; exact Hu2.
Qed.

(** C1 on the code.  With the pass-through DUT attached, [main] runs its
    loop to completion and the output image differs from the input image:
    byte 9, the red channel of pixel (3, 0), is 1 in the input and still 0
    in the output. *)
Theorem passthrough_output_differs (tdata_ty tuser_ty : vl_type) :
  exists sf : sim unit,
    main passthrough_eval tdata_ty tuser_ty 0 tt = Ret sf
    /\ loop_cond sf = false
    /\ vec_get (input_image sf) 9 = Ret 1
    /\ vec_get (output_image sf) 9 = Ret 0
    /\ output_image sf <> input_image sf.
Proof.
  destruct (main_setup_ready passthrough_eval tuser_ty 0 tt eq_refl)
    as (image & Hlen & Hpat & Hsetup).
  set (d := deassert_write (assert_write (power_on passthrough_eval tt) 0)) in *.
  assert (Hd : 0 <= m_axis_tuser (op d) < IMAGE_WIDTH)
    by (cbn; unfold IMAGE_WIDTH; lia).
  pose proof (loop_entry_wf tuser_ty d image Hlen) as Hwf0.
  destruct (main_loop_reach passthrough_eval tdata_ty tuser_ty _ Hwf0)
    as (n & sf & Hrun & _ & Hreach & _ & Hc & _ & _).
  assert (Hin : vec_get (input_image sf) 9 = Ret 1).
  { rewrite (loop_reach_input_image passthrough_eval tdata_ty tuser_ty _ sf
               Hwf0 Hreach).
    cbn [loop_entry input_image].
    destruct (Hpat 0 3) as (Hr & _ & _);
      [unfold IMAGE_HEIGHT; lia | unfold IMAGE_WIDTH; lia |].
    exact Hr. }
  assert (Hout : vec_get (output_image sf) 9 = Ret 0).
  { apply (column_user_skips_pixel_3 passthrough_eval tdata_ty tuser_ty
             d image sf Hlen); [|exact Hreach].
    intros s1 Hr1.
    destruct (passthrough_user_is_column tdata_ty tuser_ty d image s1
                Hlen Hd Hr1) as (_ & Hm).
    pose proof (vl_wrap_le tuser_ty _ (proj1 Hm)). lia. }
  exists sf. split.
  { unfold main. rewrite Hsetup. exact Hrun. }
  split; [exact Hc|]. split; [exact Hin|]. split; [exact Hout|].
  intros Heq. rewrite Heq in Hout. congruence.
Qed.

(** * Further properties of the stream arithmetic *)

(** The packed word is the base-256 number with digits R, G, B. *)
Lemma lor_shiftl_low (a b n : Z) :
  0 <= n -> 0 <= b < 2 ^ n -> Z.lor (Z.shiftl a n) b = a * 2 ^ n + b.
Proof.
  intros Hn Hb.
  assert (Hland : Z.land (Z.shiftl a n) b = 0).
  { apply Z.bits_inj'. intros i Hi. rewrite Z.land_spec, Z.bits_0.
    destruct (Z.lt_ge_cases i n).
    - rewrite Z.shiftl_spec_low by lia. reflexivity.
    - destruct (Z.eq_dec b 0) as [->|Hne].
      + rewrite Z.bits_0. apply andb_false_r.
      + rewrite (Z.bits_above_log2 b i), andb_false_r; [reflexivity|lia|].
        apply Z.lt_le_trans with n; [apply Z.log2_lt_pow2; lia|lia]. }
  rewrite <- Z.lxor_lor by exact Hland.
  rewrite <- Z.add_nocarry_lxor by exact Hland.
  rewrite Z.shiftl_mul_pow2 by lia. reflexivity.
Qed.

Lemma pack_rgb_value (b0 b1 b2 : Z) :
  0 <= b0 < 256 -> 0 <= b1 < 256 -> 0 <= b2 < 256 ->
  pack_rgb b0 b1 b2 = b0 + 256 * b1 + 65536 * b2.
Proof.
  intros H0 H1 H2. unfold pack_rgb, uint32.
  assert (E1 : Z.lor (Z.shiftl b2 16) (Z.shiftl b1 8)
               = (b2 * 256 + b1) * 2 ^ 8).
  { replace (Z.shiftl b2 16) with (Z.shiftl (Z.shiftl b2 8) 8)
      by (rewrite Z.shiftl_shiftl by lia; reflexivity).
    rewrite <- Z.shiftl_lor, !Z.shiftl_mul_pow2 by lia.
    f_equal. rewrite <- (Z.shiftl_mul_pow2 b2 8) by lia.
    rewrite lor_shiftl_low by (change (2 ^ 8) with 256; lia).
    reflexivity. }
  rewrite E1, <- Z.shiftl_mul_pow2 by lia.
  rewrite lor_shiftl_low by (change (2 ^ 8) with 256; lia).
  change (2 ^ 8) with 256. change (2 ^ 32) with 4294967296.
  rewrite Z.mod_small by lia. lia.
Qed.

(** X1.  When the DUT returns on [m_axis_tdata] the word the producer put
    on [s_axis_tdata], and the data port holds at least 24 bits, the
    consumer's three masks and shifts give back the three bytes the
    producer packed. *)
Theorem offered_word_unpacks {St St' : Type} (tdata_ty tuser_ty : vl_type)
    (s : sim St) (c : sim St') (b0 b1 b2 : Z) :
  tdata_ty = IData \/ tdata_ty = QData ->
  0 <= b0 < 256 -> 0 <= b1 < 256 -> 0 <= b2 < 256 ->
  m_axis_tdata (op (dut c))
  = s_axis_tdata (ip (dut (offer_pixel tdata_ty tuser_ty s b0 b1 b2))) ->
  Z.land (output_data tdata_ty c) 255 = b0
  /\ Z.land (Z.shiftr (output_data tdata_ty c) 8) 255 = b1
  /\ Z.land (Z.shiftr (output_data tdata_ty c) 16) 255 = b2.
Proof.
  intros Hty H0 H1 H2 Hecho.
  unfold output_data. rewrite Hecho. cbn [offer_pixel dut drive ip s_axis_tdata
    set_s_axis_tdata set_s_axis_tvalid set_s_axis_tlast set_s_axis_tuser].
  rewrite pack_rgb_value by assumption.
  set (v := b0 + 256 * b1 + 65536 * b2).
  assert (Hv : 0 <= v < 16777216) by (unfold v; lia).
  assert (Hw : vl_wrap tdata_ty v = v).
  { unfold vl_wrap. apply Z.mod_small.
    destruct Hty as [-> | ->]; cbn [vl_bits].
    - change (2 ^ 32) with 4294967296. lia.
    - change (2 ^ 64) with 18446744073709551616. lia. }
  rewrite !Hw. unfold uint32. change (2 ^ 32) with 4294967296.
  rewrite (Z.mod_small v) by lia.
  change 255 with (Z.ones 8).
  rewrite !Z.land_ones, !Z.shiftr_div_pow2 by lia.
  change (2 ^ 8) with 256. change (2 ^ 16) with 65536.
  unfold v. repeat split.
  - Z.div_mod_to_equations. lia.
  - Z.div_mod_to_equations. lia.
  - Z.div_mod_to_equations. lia.
Qed.

Lemma offered_word_unpacks_witness :
  Z.land (output_data IData sample_output_state) 255 = 1
  /\ Z.land (Z.shiftr (output_data IData sample_output_state) 8) 255 = 2
  /\ Z.land (Z.shiftr (output_data IData sample_output_state) 16) 255 = 3.
Proof.
  apply (offered_word_unpacks IData SData sink_entry sample_output_state 1 2 3).
  - left. reflexivity.
  - lia.
  - lia.
  - lia.
  - reflexivity.
Defined.

(** On a 16-bit data port the blue byte does not survive the write to the
    pin. *)
Example narrow_data_port_drops_blue :
  vl_wrap SData (pack_rgb 1 2 3) = 513.
Proof. reflexivity. Qed.

(** X2.  The destination index uses the one user value [t] twice: its
    row is [t mod H] and its column is [(t + 1) mod W].  Row and column
    are therefore tied, column - 1 = row modulo 160, and only one pixel
    in 160 can ever be the destination of a transfer. *)
Theorem out_pixel_row_column (ty : vl_type) (t : Z) :
  0 <= t < 2 ^ 21 ->
  out_pixel_of ty t / IMAGE_WIDTH = t mod IMAGE_HEIGHT
  /\ out_pixel_of ty t mod IMAGE_WIDTH = (t + 1) mod IMAGE_WIDTH
  /\ (out_pixel_of ty t mod IMAGE_WIDTH - 1 - out_pixel_of ty t / IMAGE_WIDTH)
     mod 160 = 0.
Proof.
  change (2 ^ 21) with 2097152. intros Ht.
  assert (Hr : 0 <= Z.rem (t + 1) 640 < 640) by (apply Z.rem_bound_pos; lia).
  assert (Har : forall z, 0 <= z < 2147483648 -> vl_arith ty z = z).
  { intros z Hz.
    destruct ty; cbn [vl_arith]; try reflexivity; apply Z.mod_small.
    - change (2 ^ 32) with 4294967296. lia.
    - change (2 ^ 64) with 18446744073709551616. lia. }
  unfold out_pixel_of, IMAGE_WIDTH, IMAGE_HEIGHT.
  rewrite (Har (t + 1)) by lia.
  rewrite (Har (t * 640)) by lia.
  rewrite Har by lia.
  rewrite (Z.rem_mod_nonneg (t + 1)) in * by lia.
  rewrite Z.rem_mod_nonneg by lia.
  change (640 * 480) with 307200.
  set (p := (t * 640 + (t + 1) mod 640) mod 307200).
  assert (Hp : p / 640 = t mod 480 /\ p mod 640 = (t + 1) mod 640).
  { unfold p. Z.div_mod_to_equations. lia. }
  destruct Hp as [-> ->]. split; [reflexivity|]. split; [reflexivity|].
  Z.div_mod_to_equations. lia.
Qed.

Lemma out_pixel_row_column_witness :
  out_pixel_of SData 481 / IMAGE_WIDTH = 481 mod IMAGE_HEIGHT
  /\ out_pixel_of SData 481 mod IMAGE_WIDTH = (481 + 1) mod IMAGE_WIDTH
  /\ (out_pixel_of SData 481 mod IMAGE_WIDTH - 1
      - out_pixel_of SData 481 / IMAGE_WIDTH) mod 160 = 0.
Proof. apply (out_pixel_row_column SData 481). lia. Defined.

(** * Further properties of the frame source *)

Lemma vec_set_Ret (v v' : list Z) (i x : Z) :
  vec_set v i x = Ret v' ->
  0 <= i < Z.of_nat (length v) /\ length v' = length v.
Proof.
  unfold vec_set.
  destruct (Z.leb_spec 0 i); destruct (Z.ltb_spec i (Z.of_nat (length v)));
    cbn [andb]; try discriminate.
  intros [= <-]. rewrite length_insert. lia.
Qed.

(** A counted loop that returned has run its last iteration, from a state
    that shares every property the body preserves. *)
Lemma for_range_last {A : Type} (P : A -> Prop) (body : Z -> A -> res A) :
  (forall i x y, body i x = Ret y -> P x -> P y) ->
  forall (n : nat) (i0 : Z) (a a' : A),
    P a -> for_range (S n) i0 body a = Ret a' ->
    exists x, P x /\ body (i0 + Z.of_nat n) x = Ret a'.
Proof.
  intros Hkeep. induction n as [|n IH]; intros i0 a a' HP Hrun.
  - cbn [for_range] in Hrun.
    destruct (body i0 a) as [y| |] eqn:Hb; cbn [bind] in Hrun; try discriminate.
    injection Hrun as <-. exists a.
    replace (i0 + Z.of_nat 0) with i0 by lia. auto.
  - change (for_range (S (S n)) i0 body a)
      with (a1 <- body i0 a ;; for_range (S n) (i0 + 1) body a1) in Hrun.
    destruct (body i0 a) as [y| |] eqn:Hb; cbn [bind] in Hrun; try discriminate.
    destruct (IH (i0 + 1) y a' (Hkeep _ _ _ Hb HP) Hrun) as (x & Hx & Hlast).
    exists x. split; [exact Hx|].
    replace (i0 + Z.of_nat (S n)) with (i0 + 1 + Z.of_nat n) by lia.
    exact Hlast.
Qed.

Lemma for_range_keeps {A : Type} (P : A -> Prop) (body : Z -> A -> res A) :
  (forall i x y, body i x = Ret y -> P x -> P y) ->
  forall (n : nat) (i0 : Z) (a a' : A),
    P a -> for_range n i0 body a = Ret a' -> P a'.
Proof.
  intros Hkeep. induction n as [|n IH]; intros i0 a a' HP Hrun.
  - cbn in Hrun. injection Hrun as <-. exact HP.
  - cbn [for_range] in Hrun.
    destruct (body i0 a) as [y| |] eqn:Hb; cbn [bind] in Hrun; try discriminate.
    eapply IH; [|exact Hrun]. eapply Hkeep; eassumption.
Qed.

Lemma put_pattern_pixel_Ret (y x : Z) (image image' : list Z) :
  put_pattern_pixel y x image = Ret image' ->
  length image' = length image
  /\ (y * IMAGE_WIDTH + x) * 3 + 2 < Z.of_nat (length image).
Proof.
  unfold put_pattern_pixel.
  destruct (vec_set image _ _) as [v1| |] eqn:E1; cbn [bind]; try discriminate.
  destruct (vec_set v1 _ _) as [v2| |] eqn:E2; cbn [bind]; try discriminate.
  intros E3.
  apply vec_set_Ret in E1 as [_ L1]. apply vec_set_Ret in E2 as [_ L2].
  apply vec_set_Ret in E3 as [B3 L3]. split; [congruence|].
  rewrite L2, L1 in B3. lia.
Qed.

(** X9.  [generate_test_pattern] indexes the vector up to byte
    W*H*3 - 1: whenever it returns, the vector it was given had at least
    W*H*3 bytes, and its length is unchanged.  On a shorter vector the
    function subscripts past the end. *)
Theorem generate_test_pattern_needs_full_buffer (image image' : list Z) :
  generate_test_pattern image = Ret image' ->
  IMAGE_WIDTH * IMAGE_HEIGHT * 3 <= Z.of_nat (length image)
  /\ length image' = length image.
Proof.
  unfold generate_test_pattern. intros Hrun.
  assert (Hrow : forall y x0 y0,
             for_range (Z.to_nat IMAGE_WIDTH) 0 (put_pattern_pixel y) x0 = Ret y0 ->
             length x0 = length image -> length y0 = length image).
  { intros y x0 y0 Hr Hl.
    apply (for_range_keeps (fun v => length v = length image)
             (put_pattern_pixel y)) with (3 := Hr); [|exact Hl].
    intros i u v Hb Hu. apply put_pattern_pixel_Ret in Hb as [Hb _]. congruence. }
  split.
  - change (Z.to_nat IMAGE_HEIGHT) with (S 479) in Hrun.
    destruct (for_range_last (fun v => length v = length image) _
                (fun y x0 y0 Hr Hl => Hrow y x0 y0 Hr Hl)
                479%nat 0 image image' eq_refl Hrun) as (u & Hu & Hlast).
    change (Z.to_nat IMAGE_WIDTH) with (S 639) in Hlast.
    destruct (for_range_last (fun v => length v = length image)
                (put_pattern_pixel (0 + Z.of_nat 479))) with (3 := Hlast)
      as (w & Hw & Hpix); [|exact Hu|].
    + intros i a b Hb Ha. apply put_pattern_pixel_Ret in Hb as [Hb _]. congruence.
    + apply put_pattern_pixel_Ret in Hpix as [_ Hpix].
      rewrite Hw in Hpix. unfold IMAGE_WIDTH, IMAGE_HEIGHT in *. lia.
  - apply (for_range_keeps (fun v => length v = length image) _
             (fun y x0 y0 Hr Hl => Hrow y x0 y0 Hr Hl)) with (2 := Hrun).
    reflexivity.
Qed.

Lemma generate_test_pattern_needs_full_buffer_witness :
  exists image',
    generate_test_pattern (vec_new (IMAGE_WIDTH * IMAGE_HEIGHT * 3)) = Ret image'
    /\ IMAGE_WIDTH * IMAGE_HEIGHT * 3
       <= Z.of_nat (length (vec_new (IMAGE_WIDTH * IMAGE_HEIGHT * 3)))
    /\ length image' = length (vec_new (IMAGE_WIDTH * IMAGE_HEIGHT * 3)).
Proof.
  destruct (generate_test_pattern_spec (vec_new (IMAGE_WIDTH * IMAGE_HEIGHT * 3)))
    as (image' & Hrun & _).
  - apply vec_new_length. unfold IMAGE_WIDTH, IMAGE_HEIGHT. lia.
  - exists image'. split; [exact Hrun|].
    exact (generate_test_pattern_needs_full_buffer _ image' Hrun).
Defined.

(** * Further properties of the handshake and the cycle driver *)

Section HarnessMore.
Context {St : Type}.
Variable dut_eval : St -> in_pins -> St * out_pins.
Variables tdata_ty tuser_ty : vl_type.

Local Abbreviation input_side := (input_side tdata_ty tuser_ty).
Local Abbreviation output_side := (output_side tdata_ty tuser_ty).
Local Abbreviation offer_pixel := (offer_pixel tdata_ty tuser_ty).
Local Abbreviation loop_body := (loop_body dut_eval tdata_ty tuser_ty).
Local Abbreviation main_loop := (main_loop dut_eval tdata_ty tuser_ty).
Local Abbreviation loop_reach := (loop_reach dut_eval tdata_ty tuser_ty).
Local Abbreviation loop_entry := (loop_entry tuser_ty).

(** The input side returns one of three states, whatever the vectors. *)
Lemma input_side_shape (s s' : sim St) :
  input_side s = Ret s' ->
  s' = s \/ s' = retire_handshake s
  \/ exists b0 b1 b2, s' = offer_pixel s b0 b1 b2.
Proof.
  open_input_side.
  destruct (input_active s && _).
  - destruct (negb _ || _); [|intros [= <-]; auto].
    destruct (vec_get _ _) as [b2| |]; cbn [bind]; try discriminate.
    destruct (vec_get _ _) as [b1| |]; cbn [bind]; try discriminate.
    destruct (vec_get _ _) as [b0| |]; cbn [bind]; try discriminate.
    intros [= <-]. right; right. exists b0, b1, b2. reflexivity.
  - destruct (_ && _); intros [= <-]; auto.
Qed.

(** An iteration leaves every pin outside the input stream alone, except
    the two clocks, which it inverts. *)
Lemma loop_body_pins (s s' : sim St) :
  loop_body s = Ret s' ->
  clk (ip (dut s')) = negb (clk (ip (dut s)))
  /\ s_axi_aclk (ip (dut s')) = negb (s_axi_aclk (ip (dut s)))
  /\ rst_n (ip (dut s')) = rst_n (ip (dut s))
  /\ s_axi_aresetn (ip (dut s')) = s_axi_aresetn (ip (dut s))
  /\ s_axi_awaddr (ip (dut s')) = s_axi_awaddr (ip (dut s))
  /\ s_axi_awvalid (ip (dut s')) = s_axi_awvalid (ip (dut s))
  /\ s_axi_wdata (ip (dut s')) = s_axi_wdata (ip (dut s))
  /\ s_axi_wvalid (ip (dut s')) = s_axi_wvalid (ip (dut s))
  /\ s_axi_wstrb (ip (dut s')) = s_axi_wstrb (ip (dut s))
  /\ m_axis_tready (ip (dut s')) = m_axis_tready (ip (dut s))
  /\ cycle_count s' = cycle_count s + 1.
Proof.
  open_loop_body.
  destruct (input_side (tick s)) as [s1| |] eqn:Hin; cbn [bind]; try discriminate.
  destruct (output_side s1) as [s2| |] eqn:Hout; cbn [bind]; try discriminate.
  intros [= <-].
  destruct (output_side_frame tdata_ty tuser_ty _ _ Hout) as (Hd & _ & _ & _ & Hc).
  cbn [advance dut eval ip cycle_count]. rewrite Hd, Hc.
  destruct (input_side_shape _ _ Hin) as [-> | [-> | (b0 & b1 & b2 & ->)]];
    cbn; split_conj; reflexivity.
Qed.

(** ** Throughput with a DUT that is always ready *)

(** X3.  If every evaluation of the DUT raises [s_axis_tready], each
    pixel costs two iterations (offer, then retire) and the loop returns
    with all W*H pixels offered after exactly 2*W*H - 1 cycles, well
    inside the budget. *)
Theorem always_ready_run_length (d : Vaxi4s_rgb_dw_pw_top St) (image : list Z) :
  (forall st p, s_axis_tready (snd (dut_eval st p)) = true) ->
  Z.of_nat (length image) = IMAGE_WIDTH * IMAGE_HEIGHT * 3 ->
  exists sf,
    main_loop (loop_entry d image) = Ret sf
    /\ pixel_count sf = IMAGE_WIDTH * IMAGE_HEIGHT
    /\ cycle_count sf = 2 * (IMAGE_WIDTH * IMAGE_HEIGHT) - 1.
Proof.
  intros Hready Hlen.
  pose proof (loop_entry_wf tuser_ty d image Hlen) as Hwf0.
  destruct (main_loop_reach dut_eval tdata_ty tuser_ty _ Hwf0)
    as (n & sf & Hrun & _ & Hreach & Hwf & Hc & _ & _).
  pose proof (always_ready_cycles dut_eval tdata_ty tuser_ty d image sf
                Hready Hlen Hreach) as Hcyc.
  assert (Hfull : pixel_count sf = IMAGE_WIDTH * IMAGE_HEIGHT).
  { apply loop_cond_false in Hc. destruct Hwf as (_ & _ & Hpc & _).
    unfold IMAGE_WIDTH, IMAGE_HEIGHT, maxCycles in *.
    destruct (s_axis_tvalid (ip (dut sf))); lia. }
  exists sf. split; [exact Hrun|]. split; [exact Hfull|].
  rewrite (loop_reach_last_offer dut_eval tdata_ty tuser_ty d image sf
             Hlen Hreach Hfull) in Hcyc.
  lia.
Qed.

(** ** The budget with a DUT that is never ready *)

(** X4.  If no evaluation of the DUT raises [s_axis_tready], pixel 0 is
    offered in the first iteration and stays on offer: the loop spends
    the whole budget and returns at [cycle_count = maxCycles] with
    [pixel_count = 1] and valid still asserted. *)
Theorem never_ready_spends_budget (d : Vaxi4s_rgb_dw_pw_top St)
    (image : list Z) :
  (forall st p, s_axis_tready (snd (dut_eval st p)) = false) ->
  Z.of_nat (length image) = IMAGE_WIDTH * IMAGE_HEIGHT * 3 ->
  exists sf,
    main_loop (loop_entry d image) = Ret sf
    /\ cycle_count sf = maxCycles
    /\ pixel_count sf = 1
    /\ s_axis_tvalid (ip (dut sf)) = true.
Proof.
  intros Hdeaf Hlen.
  pose proof (loop_entry_wf tuser_ty d image Hlen) as Hwf0.
  destruct (main_loop_reach dut_eval tdata_ty tuser_ty _ Hwf0)
    as (n & sf & Hrun & _ & Hreach & Hwf & Hc & _ & _).
  assert (Hinv : wf sf
                 /\ ((pixel_count sf = 0 /\ cycle_count sf = 0
                      /\ s_axis_tvalid (ip (dut sf)) = false
                      /\ input_active sf = true)
                     \/ (pixel_count sf = 1
                         /\ s_axis_tvalid (ip (dut sf)) = true
                         /\ s_axis_tready (op (dut sf)) = false))).
  { apply (loop_reach_inv dut_eval tdata_ty tuser_ty
             (fun s => (pixel_count s = 0 /\ cycle_count s = 0
                        /\ s_axis_tvalid (ip (dut s)) = false
                        /\ input_active s = true)
                       \/ (pixel_count s = 1
                           /\ s_axis_tvalid (ip (dut s)) = true
                           /\ s_axis_tready (op (dut s)) = false))
             (loop_entry d image)); [exact Hwf0| | |exact Hreach].
    - left. cbn. auto.
    - intros s s' Hwfs Hcase _ Hb. right.
      destruct (loop_body_op dut_eval tdata_ty tuser_ty s s' Hb) as (st & p & Hop).
      destruct Hcase as [(Hp0 & _ & Hv & Ha) | (Hp1 & Hv & Hr)].
      + destruct (loop_body_steps dut_eval tdata_ty tuser_ty s Hwfs) as
          (s1 & s2 & Hs1 & _ & Hbody & Hd2 & _ & Hp2 & _).
        rewrite Hb in Hbody. injection Hbody as ->.
        destruct Hwfs as (Hin & _ & Hpc & _).
        destruct (input_side_cases tdata_ty tuser_ty (tick s)) as (s1' & Hs1' & Hcs);
          [exact Hin | cbn; lia |].
        rewrite Hs1 in Hs1'. injection Hs1' as <-.
        cbn [advance dut eval ip op pixel_count] in *. rewrite Hd2, Hp2.
        destruct Hcs as [(_ & _ & _ & b0 & b1 & b2 & _ & _ & _ & ->)
                        |[(_ & Hv' & _) | (_ & Hidle & _)]].
        * cbn. rewrite Hdeaf, Hp0. auto.
        * cbn in Hv'. congruence.
        * cbn in Hidle. destruct (Hidle Hv) as [Hi|Hi]; [congruence|].
          unfold IMAGE_WIDTH, IMAGE_HEIGHT in Hi. lia.
      + destruct (loop_body_hold dut_eval tdata_ty tuser_ty s s' Hv Hr Hb)
          as (Hv' & _ & _ & _ & Hp' & _).
        rewrite Hop, Hdeaf. split_conj; auto; congruence. }
  destruct Hinv as (_ & Hcase). apply loop_cond_false in Hc.
  exists sf. split; [exact Hrun|].
  destruct Hwf as (_ & _ & _ & Hcc).
  unfold IMAGE_WIDTH, IMAGE_HEIGHT, maxCycles in *.
  destruct Hcase as [(Hp0 & Hc0 & _) | (Hp1 & Hv & _)]; [exfalso; lia|].
  split_conj; auto; lia.
Qed.

(** ** A handshake that is accepted *)

(** X8.  When the harness sees ready while valid is asserted, the
    iteration clears valid and last and counts no pixel; if the loop goes
    on, the next iteration puts the next pixel on offer.  Valid is thus
    low for exactly one iteration between two consecutive pixels. *)
Theorem accepted_handshake_retires (d : Vaxi4s_rgb_dw_pw_top St)
    (image : list Z) (s : sim St) :
  Z.of_nat (length image) = IMAGE_WIDTH * IMAGE_HEIGHT * 3 ->
  loop_reach (loop_entry d image) s ->
  loop_cond s = true ->
  s_axis_tvalid (ip (dut s)) = true ->
  s_axis_tready (op (dut s)) = true ->
  exists s',
    loop_body s = Ret s'
    /\ s_axis_tvalid (ip (dut s')) = false
    /\ s_axis_tlast (ip (dut s')) = false
    /\ input_active s' = true
    /\ pixel_count s' = pixel_count s
    /\ (loop_cond s' = true ->
        exists s'',
          loop_body s' = Ret s''
          /\ s_axis_tvalid (ip (dut s'')) = true
          /\ input_active s'' = false
          /\ pixel_count s'' = pixel_count s + 1).
Proof.
  intros Hlen Hreach Hc Hv Hr.
  destruct (loop_reach_producer_inv dut_eval tdata_ty tuser_ty d image s
              Hlen Hreach) as (Hwf & Hact & _).
  rewrite Hv in Hact. cbn in Hact.
  destruct (loop_body_steps dut_eval tdata_ty tuser_ty s Hwf) as
    (s1 & s2 & Hs1 & _ & Hbody & Hd2 & _ & Hp2 & Ha2).
  assert (E1 : s1 = retire_handshake (tick s)).
  { rewrite input_side_retire in Hs1; [congruence| |exact Hv|exact Hr].
    cbn. rewrite Hact. reflexivity. }
  subst s1.
  exists (advance dut_eval s2). split; [exact Hbody|].
  cbn [advance dut eval ip pixel_count input_active].
  rewrite Hd2, Hp2, Ha2. cbn.
  split_conj; auto.
  intros Hc'.
  assert (Hwf' : wf (advance dut_eval s2)) by (eapply loop_body_wf; eassumption).
  apply loop_cond_true in Hc' as [Hlt _].
  cbn [advance pixel_count] in Hlt. rewrite Hp2 in Hlt. cbn in Hlt.
  destruct (loop_body_steps dut_eval tdata_ty tuser_ty _ Hwf') as
    (t1 & t2 & Ht1 & _ & Hbody' & Hd2' & _ & Hp2' & Ha2').
  destruct (input_side_offer tdata_ty tuser_ty (tick (advance dut_eval s2)))
    as (b0 & b1 & b2 & _ & _ & _ & Hoff).
  - destruct Hwf' as (Hin & _). exact Hin.
  - cbn. exact Ha2.
  - cbn. rewrite Hp2. cbn. destruct Hwf as (_ & _ & Hpc & _). lia.
  - left. cbn. rewrite Hd2. reflexivity.
  - rewrite Hoff in Ht1. injection Ht1 as <-.
    exists (advance dut_eval t2). split; [exact Hbody'|].
    cbn [advance dut eval ip pixel_count input_active].
    rewrite Hd2', Hp2', Ha2'. cbn. rewrite Hp2. cbn. auto.
Qed.

(** ** The column side channel *)

(** X7.  While a transfer is on offer, [s_axis_tuser] holds the column
    of the offered pixel, converted to the storage class of the port: it
    is the column itself on a port of 16 bits or more, and the column
    modulo 256 on an 8-bit port. *)
Theorem tuser_carries_column (d : Vaxi4s_rgb_dw_pw_top St) (image : list Z)
    (s : sim St) :
  Z.of_nat (length image) = IMAGE_WIDTH * IMAGE_HEIGHT * 3 ->
  loop_reach (loop_entry d image) s ->
  s_axis_tvalid (ip (dut s)) = true ->
  s_axis_tuser (ip (dut s))
  = ((pixel_count s - 1) mod IMAGE_WIDTH) mod 2 ^ vl_bits tuser_ty
  /\ (tuser_ty <> CData ->
      s_axis_tuser (ip (dut s)) = (pixel_count s - 1) mod IMAGE_WIDTH).
Proof.
  intros Hlen Hreach Hv.
  destruct (loop_reach_producer_inv dut_eval tdata_ty tuser_ty d image s
              Hlen Hreach) as (_ & _ & Hpend).
  destruct (Hpend Hv) as (b0 & b1 & b2 & Hi & _ & _ & _ & _ & _ & Hu).
  rewrite Z.rem_mod_nonneg in Hu by (unfold IMAGE_WIDTH; lia).
  unfold vl_wrap in Hu. split; [exact Hu|].
  intros Hty. rewrite Hu. apply Z.mod_small.
  pose proof (Z.mod_pos_bound (pixel_count s - 1) IMAGE_WIDTH eq_refl) as Hb.
  unfold IMAGE_WIDTH in *.
  destruct tuser_ty; [congruence| | |]; cbn [vl_bits].
  - change (2 ^ 16) with 65536. lia.
  - change (2 ^ 32) with 4294967296. lia.
  - change (2 ^ 64) with 18446744073709551616. lia.
Qed.

(** ** [main] before and around the loop *)

Lemma wait_write_handshake_Ret (fuel : nat) :
  forall d d' : Vaxi4s_rgb_dw_pw_top St,
    wait_write_handshake dut_eval fuel d = Ret d' ->
    exists n, (n <= fuel)%nat /\ d' = evals dut_eval n d /\ write_ready d' = true.
Proof.
  induction fuel as [|fuel IH]; intros d d'; cbn [wait_write_handshake];
    destruct (write_ready d) eqn:Hr.
  - intros [= <-]. exists O. auto.
  - discriminate.
  - intros [= <-]. exists O. split; [lia|]. auto.
  - intros Hrun. destruct (IH _ _ Hrun) as (n & Hn & -> & Hr').
    exists (S n). split; [lia|]. auto.
Qed.

Lemma reset_sequence_ip (n : nat) :
  forall d : Vaxi4s_rgb_dw_pw_top St,
    ip (reset_sequence dut_eval n d)
    = Nat.iter n (fun p => set_s_axi_aclk (negb (s_axi_aclk p))
                             (set_clk (negb (clk p)) p)) (ip d).
Proof.
  induction n as [|n IH]; intros d; [reflexivity|].
  cbn [reset_sequence]. rewrite IH, Nat.iter_succ_r. reflexivity.
Qed.

Lemma reset_sequence_op (n : nat) :
  forall d : Vaxi4s_rgb_dw_pw_top St,
    exists st p, op (reset_sequence dut_eval (S n) d) = snd (dut_eval st p).
Proof.
  induction n as [|n IH]; intros d.
  - cbn. eauto.
  - change (reset_sequence dut_eval (S (S n)) d)
      with (reset_sequence dut_eval (S n) (eval dut_eval (toggle_clocks d))).
    apply IH.
Qed.

Lemma evals_op (n : nat) :
  forall d : Vaxi4s_rgb_dw_pw_top St,
    exists st p, op (evals dut_eval (S n) d) = snd (dut_eval st p).
Proof.
  induction n as [|n IH]; intros d.
  - cbn. eauto.
  - change (evals dut_eval (S (S n)) d)
      with (evals dut_eval (S n) (eval dut_eval d)).
    apply IH.
Qed.

Lemma drive_op (f : in_pins -> in_pins) (d : Vaxi4s_rgb_dw_pw_top St) :
  op (drive f d) = op d.
Proof. reflexivity. Qed.

(** The output pins after reset are those of the tenth evaluation. *)
Lemma power_on_op (st0 : St) :
  exists st p, op (power_on dut_eval st0) = snd (dut_eval st p).
Proof.
  unfold power_on. rewrite !drive_op. apply reset_sequence_op.
Qed.

(** The reset sequence returns both clocks to 0 (ten inversions),
    releases both resets and touches no other input pin. *)
Lemma power_on_ip (st0 : St) :
  ip (power_on dut_eval st0) = set_s_axi_aresetn true (set_rst_n true zero_in).
Proof.
  unfold power_on. cbn [drive ip]. rewrite reset_sequence_ip. reflexivity.
Qed.

Lemma main_setup_Ret (fuel : nat) (st0 : St) (e : sim St) :
  main_setup dut_eval tuser_ty fuel st0 = Ret e ->
  exists (n : nat) (image : list Z),
    e = loop_entry
          (deassert_write
             (evals dut_eval n (assert_write (power_on dut_eval st0) 0)))
          image
    /\ Z.of_nat (length image) = IMAGE_WIDTH * IMAGE_HEIGHT * 3
    /\ (forall y x, 0 <= y < IMAGE_HEIGHT -> 0 <= x < IMAGE_WIDTH ->
                    pattern_at image y x).
Proof.
  unfold main_setup, configure_kernel.
  remember (wait_write_handshake dut_eval fuel
              (assert_write (power_on dut_eval st0) 0)) as w eqn:Hw.
  destruct w as [d'| |]; cbn [bind]; [|intros [=]|intros [=]].
  symmetry in Hw.
  destruct (wait_write_handshake_Ret _ _ _ Hw) as (n & _ & -> & _).
  destruct (generate_test_pattern_spec
              (vec_new (IMAGE_WIDTH * IMAGE_HEIGHT * 3)))
    as (image & Hgen & Hl & Hpat).
  { apply vec_new_length. unfold IMAGE_WIDTH, IMAGE_HEIGHT. lia. }
  rewrite Hgen. cbn [bind]. intros [= <-].
  exists n, image. split; [reflexivity|]. split; [|exact Hpat].
  rewrite Hl. apply vec_new_length. unfold IMAGE_WIDTH, IMAGE_HEIGHT. lia.
Qed.

(** X5.  If no evaluation of the DUT raises [s_axi_awready] and
    [s_axi_wready] together, the wait of [configure_kernel] never ends:
    [main] does not reach its loop, whatever number of evaluations it is
    allowed. *)
Theorem main_blocks_in_configure_kernel (fuel : nat) (st0 : St) :
  (forall st p, s_axi_awready (snd (dut_eval st p))
                && s_axi_wready (snd (dut_eval st p)) = false) ->
  configure_kernel dut_eval fuel (power_on dut_eval st0)
    0 (-1) 0 (-1) 4 (-1) 0 (-1) 0 = NoFuel
  /\ main dut_eval tdata_ty tuser_ty fuel st0 = NoFuel.
Proof.
  intros Hbusy.
  assert (Hcfg : configure_kernel dut_eval fuel (power_on dut_eval st0)
                   0 (-1) 0 (-1) 4 (-1) 0 (-1) 0 = NoFuel).
  { unfold configure_kernel.
    rewrite wait_write_handshake_blocks; [reflexivity|].
    intros [|i]; unfold write_ready.
    - cbn [evals]. unfold assert_write. rewrite !drive_op.
      destruct (power_on_op st0) as (st & p & ->).
      apply Hbusy.
    - destruct (evals_op i (assert_write (power_on dut_eval st0) 0))
        as (st & p & ->).
      apply Hbusy. }
  split; [exact Hcfg|].
  unfold main, main_setup. rewrite Hcfg. reflexivity.
Qed.

(** The producer touches none of the control pins and does not count
    cycles. *)
Lemma input_side_pins (s s1 : sim St) :
  input_side s = Ret s1 ->
  clk (ip (dut s1)) = clk (ip (dut s))
  /\ s_axi_aclk (ip (dut s1)) = s_axi_aclk (ip (dut s))
  /\ rst_n (ip (dut s1)) = rst_n (ip (dut s))
  /\ s_axi_aresetn (ip (dut s1)) = s_axi_aresetn (ip (dut s))
  /\ s_axi_awvalid (ip (dut s1)) = s_axi_awvalid (ip (dut s))
  /\ s_axi_wvalid (ip (dut s1)) = s_axi_wvalid (ip (dut s))
  /\ m_axis_tready (ip (dut s1)) = m_axis_tready (ip (dut s))
  /\ cycle_count s1 = cycle_count s.
Proof.
  intros Hin.
  destruct (input_side_shape _ _ Hin) as [-> | [-> | (b0 & b1 & b2 & ->)]];
    cbn; split_conj; reflexivity.
Qed.

(** X6.  Each time [main] tests the loop condition, [m_axis_tready] is
    high (the harness never backpressures the DUT), both resets are
    released, both register-write valids are low, and the two clocks are
    equal and high exactly when [cycle_count] is odd.  At the [eval] and
    [dump] of each iteration, after the toggle of lines 115-116 and before
    the count is incremented, the same pins hold and the two clocks are
    equal and high exactly when [cycle_count] is even. *)
Theorem main_loop_control_pins (fuel : nat) (st0 : St) (e s : sim St) :
  main_setup dut_eval tuser_ty fuel st0 = Ret e ->
  loop_reach e s ->
  (m_axis_tready (ip (dut s)) = true
   /\ rst_n (ip (dut s)) = true
   /\ s_axi_aresetn (ip (dut s)) = true
   /\ s_axi_awvalid (ip (dut s)) = false
   /\ s_axi_wvalid (ip (dut s)) = false
   /\ clk (ip (dut s)) = s_axi_aclk (ip (dut s))
   /\ clk (ip (dut s)) = Z.odd (cycle_count s))
  /\ (loop_cond s = true ->
      exists s1 s2,
        input_side (tick s) = Ret s1
        /\ output_side s1 = Ret s2
        /\ loop_body s = Ret (advance dut_eval s2)
        /\ cycle_count s2 = cycle_count s
        /\ m_axis_tready (ip (dut s2)) = true
        /\ rst_n (ip (dut s2)) = true
        /\ s_axi_aresetn (ip (dut s2)) = true
        /\ s_axi_awvalid (ip (dut s2)) = false
        /\ s_axi_wvalid (ip (dut s2)) = false
        /\ clk (ip (dut s2)) = s_axi_aclk (ip (dut s2))
        /\ clk (ip (dut s2)) = Z.even (cycle_count s2)).
Proof.
  intros Hsetup Hreach.
  destruct (main_setup_Ret _ _ _ Hsetup) as (n & image & -> & Hlen & _).
  pose proof (loop_reach_wf dut_eval tdata_ty tuser_ty _ _
                (loop_entry_wf tuser_ty _ image Hlen) Hreach) as Hwf.
  assert (Htop : m_axis_tready (ip (dut s)) = true
                 /\ rst_n (ip (dut s)) = true
                 /\ s_axi_aresetn (ip (dut s)) = true
                 /\ s_axi_awvalid (ip (dut s)) = false
                 /\ s_axi_wvalid (ip (dut s)) = false
                 /\ clk (ip (dut s)) = s_axi_aclk (ip (dut s))
                 /\ clk (ip (dut s)) = Z.odd (cycle_count s)).
  { clear Hwf. induction Hreach as [|s s' _ IH _ Hb].
    - cbn [loop_entry dut drive ip deassert_write cycle_count].
      rewrite evals_ip. cbn [assert_write drive ip]. rewrite power_on_ip.
      cbn. split_conj; reflexivity.
    - destruct IH as (H1 & H2 & H3 & H4 & H5 & H6 & H7).
      destruct (loop_body_pins _ _ Hb)
        as (P1 & P2 & P3 & P4 & _ & P6 & _ & P8 & _ & P10 & P11).
      rewrite P1, P2, P3, P4, P6, P8, P10, P11.
      split_conj; try assumption.
      + congruence.
      + rewrite H7. rewrite Z.add_1_r, Z.odd_succ, Z.negb_odd. reflexivity. }
  split; [exact Htop|]. intros _.
  destruct Htop as (H1 & H2 & H3 & H4 & H5 & H6 & H7).
  destruct (loop_body_steps dut_eval tdata_ty tuser_ty s Hwf)
    as (s1 & s2 & Hs1 & Hs2 & Hbody & Hd2 & _).
  destruct (input_side_pins _ _ Hs1)
    as (Q1 & Q2 & Q3 & Q4 & Q5 & Q6 & Q7 & Q8).
  destruct (output_side_frame tdata_ty tuser_ty _ _ Hs2)
    as (_ & _ & _ & _ & Hc2).
  exists s1, s2. rewrite Hd2, Hc2, Q1, Q2, Q3, Q4, Q5, Q6, Q7, Q8.
  cbn [tick dut cycle_count toggle_clocks drive ip
       set_clk set_s_axi_aclk clk s_axi_aclk rst_n s_axi_aresetn
       s_axi_awvalid s_axi_wvalid m_axis_tready].
  split_conj; try assumption; try reflexivity.
  - congruence.
  - rewrite H7. apply Z.negb_odd.
Qed.

(** X10.  In [main], with a data port of at least 24 bits, the word on
    [s_axis_tdata] while pixel i is on offer is the packed gradient of
    that pixel: R + 256 G + 65536 B for x = i mod W and y = i / W. *)
Theorem main_offers_gradient (fuel : nat) (st0 : St) (e s : sim St) :
  tdata_ty = IData \/ tdata_ty = QData ->
  main_setup dut_eval tuser_ty fuel st0 = Ret e ->
  loop_reach e s ->
  s_axis_tvalid (ip (dut s)) = true ->
  s_axis_tdata (ip (dut s))
  = ((pixel_count s - 1) mod IMAGE_WIDTH) * 255 / IMAGE_WIDTH
    + 256 * (((pixel_count s - 1) / IMAGE_WIDTH) * 255 / IMAGE_HEIGHT)
    + 65536 * (((pixel_count s - 1) mod IMAGE_WIDTH
                + (pixel_count s - 1) / IMAGE_WIDTH) * 255
               / (IMAGE_WIDTH + IMAGE_HEIGHT)).
Proof.
  intros Hty Hsetup Hreach Hv.
  destruct (main_setup_Ret _ _ _ Hsetup) as (n & image & -> & Hlen & Hpat).
  set (d := deassert_write _) in *.
  pose proof (loop_entry_wf tuser_ty d image Hlen) as Hwf0.
  destruct (loop_reach_producer_inv dut_eval tdata_ty tuser_ty d image s
              Hlen Hreach) as (Hwf & _ & Hpend).
  destruct (Hpend Hv) as (b0 & b1 & b2 & Hi & G0 & G1 & G2 & Hd & _).
  rewrite (loop_reach_input_image dut_eval tdata_ty tuser_ty _ s Hwf0 Hreach)
    in G0, G1, G2.
  cbn [loop_entry input_image] in G0, G1, G2.
  destruct Hwf as (_ & _ & Hpc & _).
  set (i := pixel_count s - 1) in *.
  assert (Hx : 0 <= i mod IMAGE_WIDTH < IMAGE_WIDTH)
    by (apply Z.mod_pos_bound; reflexivity).
  assert (Hy : 0 <= i / IMAGE_WIDTH < IMAGE_HEIGHT).
  { unfold IMAGE_WIDTH, IMAGE_HEIGHT in *. split.
    - apply Z.div_pos; lia.
    - apply Z.div_lt_upper_bound; lia. }
  destruct (Hpat (i / IMAGE_WIDTH) (i mod IMAGE_WIDTH) Hy Hx) as (P0 & P1 & P2).
  assert (Hidx : i / IMAGE_WIDTH * IMAGE_WIDTH + i mod IMAGE_WIDTH = i).
  { pose proof (Z.div_mod i IMAGE_WIDTH ltac:(discriminate)). lia. }
  rewrite Hidx in P0, P1, P2.
  rewrite P0 in G0. rewrite P1 in G1. rewrite P2 in G2.
  injection G0 as <-. injection G1 as <-. injection G2 as <-.
  rewrite Hd.
  assert (B0 : 0 <= i mod IMAGE_WIDTH * 255 / IMAGE_WIDTH < 256).
  { unfold IMAGE_WIDTH in *. split; [apply Z.div_pos; lia|].
    apply Z.div_lt_upper_bound; lia. }
  assert (B1 : 0 <= i / IMAGE_WIDTH * 255 / IMAGE_HEIGHT < 256).
  { unfold IMAGE_WIDTH, IMAGE_HEIGHT in *. split; [apply Z.div_pos; lia|].
    apply Z.div_lt_upper_bound; lia. }
  assert (B2 : 0 <= (i mod IMAGE_WIDTH + i / IMAGE_WIDTH) * 255
                    / (IMAGE_WIDTH + IMAGE_HEIGHT) < 256).
  { unfold IMAGE_WIDTH, IMAGE_HEIGHT in *. split; [apply Z.div_pos; lia|].
    apply Z.div_lt_upper_bound; lia. }
  rewrite pack_rgb_value by assumption.
  unfold vl_wrap. apply Z.mod_small.
  destruct Hty as [-> | ->]; cbn [vl_bits].
  - change (2 ^ 32) with 4294967296. lia.
  - change (2 ^ 64) with 18446744073709551616. lia.
Qed.

(** The first iteration always puts pixel 0 on offer. *)
Lemma first_iteration_offers (d : Vaxi4s_rgb_dw_pw_top St) (image : list Z) :
  Z.of_nat (length image) = IMAGE_WIDTH * IMAGE_HEIGHT * 3 ->
  exists s1,
    loop_body (loop_entry d image) = Ret s1
    /\ loop_reach (loop_entry d image) s1
    /\ s_axis_tvalid (ip (dut s1)) = true
    /\ pixel_count s1 = 1.
Proof.
  intros Hlen.
  pose proof (loop_entry_wf tuser_ty d image Hlen) as Hwf0.
  destruct (loop_body_steps dut_eval tdata_ty tuser_ty _ Hwf0) as
    (t1 & t2 & Ht1 & _ & Hbody & Hd2 & _ & Hp2 & _).
  destruct (input_side_offer tdata_ty tuser_ty (tick (loop_entry d image)))
    as (b0 & b1 & b2 & _ & _ & _ & Hoff).
  - exact Hlen.
  - reflexivity.
  - cbn. unfold IMAGE_WIDTH, IMAGE_HEIGHT. lia.
  - left. reflexivity.
  - rewrite Hoff in Ht1. injection Ht1 as <-.
    exists (advance dut_eval t2). split; [exact Hbody|]. split.
    + eapply reach_step; [apply reach_entry|reflexivity|exact Hbody].
    + cbn [advance dut eval ip pixel_count]. rewrite Hd2, Hp2. cbn. auto.
Qed.

End HarnessMore.

Lemma always_ready_run_length_witness :
  exists sf,
    main_loop sink_eval IData SData sink_entry = Ret sf
    /\ pixel_count sf = IMAGE_WIDTH * IMAGE_HEIGHT
    /\ cycle_count sf = 2 * (IMAGE_WIDTH * IMAGE_HEIGHT) - 1.
Proof.
  unfold sink_entry.
  apply (always_ready_run_length sink_eval IData SData (new_dut tt)
           (vec_new (IMAGE_WIDTH * IMAGE_HEIGHT * 3))).
  - intros st p. reflexivity.
  - apply vec_new_length. unfold IMAGE_WIDTH, IMAGE_HEIGHT. lia.
Defined.

Lemma never_ready_spends_budget_witness :
  exists sf,
    main_loop slow_cfg_eval IData SData stall_entry = Ret sf
    /\ cycle_count sf = maxCycles
    /\ pixel_count sf = 1
    /\ s_axis_tvalid (ip (dut sf)) = true.
Proof.
  unfold stall_entry.
  apply (never_ready_spends_budget slow_cfg_eval IData SData (new_dut 0%nat)
           (vec_new (IMAGE_WIDTH * IMAGE_HEIGHT * 3))).
  - intros st p. reflexivity.
  - apply vec_new_length. unfold IMAGE_WIDTH, IMAGE_HEIGHT. lia.
Defined.

Lemma accepted_handshake_retires_witness :
  exists s',
    loop_body sink_eval IData SData sink_first_offer = Ret s'
    /\ s_axis_tvalid (ip (dut s')) = false
    /\ s_axis_tlast (ip (dut s')) = false
    /\ input_active s' = true
    /\ pixel_count s' = pixel_count sink_first_offer
    /\ (loop_cond s' = true ->
        exists s'',
          loop_body sink_eval IData SData s' = Ret s''
          /\ s_axis_tvalid (ip (dut s'')) = true
          /\ input_active s'' = false
          /\ pixel_count s'' = pixel_count sink_first_offer + 1).
Proof.
  apply (accepted_handshake_retires sink_eval IData SData (new_dut tt)
           (vec_new (IMAGE_WIDTH * IMAGE_HEIGHT * 3)) sink_first_offer).
  - apply vec_new_length. unfold IMAGE_WIDTH, IMAGE_HEIGHT. lia.
  - exact sink_first_offer_reach.
  - reflexivity.
  - reflexivity.
  - reflexivity.
Defined.

Lemma tuser_carries_column_witness :
  s_axis_tuser (ip (dut sink_first_offer))
  = ((pixel_count sink_first_offer - 1) mod IMAGE_WIDTH) mod 2 ^ vl_bits SData
  /\ (SData <> CData ->
      s_axis_tuser (ip (dut sink_first_offer))
      = (pixel_count sink_first_offer - 1) mod IMAGE_WIDTH).
Proof.
  apply (tuser_carries_column sink_eval IData SData (new_dut tt)
           (vec_new (IMAGE_WIDTH * IMAGE_HEIGHT * 3)) sink_first_offer).
  - apply vec_new_length. unfold IMAGE_WIDTH, IMAGE_HEIGHT. lia.
  - exact sink_first_offer_reach.
  - reflexivity.
Defined.

Lemma main_blocks_in_configure_kernel_witness :
  configure_kernel deaf_eval 7 (power_on deaf_eval tt)
    0 (-1) 0 (-1) 4 (-1) 0 (-1) 0 = NoFuel
  /\ main deaf_eval IData SData 7 tt = NoFuel.
Proof.
  apply (main_blocks_in_configure_kernel deaf_eval IData SData 7 tt).
  intros st p. reflexivity.
Defined.

Lemma main_loop_control_pins_witness :
  exists e s : sim unit,
    main_setup sink_eval SData 0 tt = Ret e
    /\ loop_reach sink_eval IData SData e s
    /\ cycle_count s = 1
    /\ loop_cond s = true
    /\ (m_axis_tready (ip (dut s)) = true
        /\ rst_n (ip (dut s)) = true
        /\ s_axi_aresetn (ip (dut s)) = true
        /\ s_axi_awvalid (ip (dut s)) = false
        /\ s_axi_wvalid (ip (dut s)) = false
        /\ clk (ip (dut s)) = s_axi_aclk (ip (dut s))
        /\ clk (ip (dut s)) = Z.odd (cycle_count s))
    /\ exists s1 s2,
         input_side IData SData (tick s) = Ret s1
         /\ output_side IData SData s1 = Ret s2
         /\ loop_body sink_eval IData SData s = Ret (advance sink_eval s2)
         /\ cycle_count s2 = cycle_count s
         /\ m_axis_tready (ip (dut s2)) = true
         /\ rst_n (ip (dut s2)) = true
         /\ s_axi_aresetn (ip (dut s2)) = true
         /\ s_axi_awvalid (ip (dut s2)) = false
         /\ s_axi_wvalid (ip (dut s2)) = false
         /\ clk (ip (dut s2)) = s_axi_aclk (ip (dut s2))
         /\ clk (ip (dut s2)) = Z.even (cycle_count s2).
Proof.
  destruct (main_setup_ready sink_eval SData 0 tt eq_refl)
    as (image & Hlen & _ & Hsetup).
  destruct (first_iteration_offers sink_eval IData SData
              (deassert_write (assert_write (power_on sink_eval tt) 0))
              image Hlen) as (s1 & Hb & Hreach & _ & Hp).
  assert (Hc : cycle_count s1 = 1).
  { destruct (loop_body_pins sink_eval IData SData _ _ Hb)
      as (_ & _ & _ & _ & _ & _ & _ & _ & _ & _ & Hcc).
    rewrite Hcc. reflexivity. }
  assert (Hcond : loop_cond s1 = true).
  { unfold loop_cond. rewrite Hp, Hc. reflexivity. }
  eexists. exists s1.
  split; [exact Hsetup|]. split; [exact Hreach|]. split; [exact Hc|].
  split; [exact Hcond|].
  destruct (main_loop_control_pins sink_eval IData SData 0 tt _ s1
              Hsetup Hreach) as [Htop Heval].
  split; [exact Htop|exact (Heval Hcond)].
Defined.

Lemma main_offers_gradient_witness :
  exists e s : sim unit,
    main_setup sink_eval SData 0 tt = Ret e
    /\ loop_reach sink_eval IData SData e s
    /\ s_axis_tvalid (ip (dut s)) = true
    /\ s_axis_tdata (ip (dut s))
       = ((pixel_count s - 1) mod IMAGE_WIDTH) * 255 / IMAGE_WIDTH
         + 256 * (((pixel_count s - 1) / IMAGE_WIDTH) * 255 / IMAGE_HEIGHT)
         + 65536 * (((pixel_count s - 1) mod IMAGE_WIDTH
                     + (pixel_count s - 1) / IMAGE_WIDTH) * 255
                    / (IMAGE_WIDTH + IMAGE_HEIGHT)).
Proof.
  destruct (main_setup_ready sink_eval SData 0 tt eq_refl)
    as (image & Hlen & _ & Hsetup).
  destruct (first_iteration_offers sink_eval IData SData
              (deassert_write (assert_write (power_on sink_eval tt) 0))
              image Hlen) as (s1 & _ & Hreach & Hv & _).
  eexists. exists s1. split; [exact Hsetup|]. split; [exact Hreach|].
  split; [exact Hv|].
  apply (main_offers_gradient sink_eval IData SData 0 tt _ s1
           (or_introl eq_refl) Hsetup Hreach Hv).
Defined.

(** * The PPM writer *)

Example dec_examples :
  dec 640 = "640" /\ dec 0 = "0" /\ dec (-5) = "-5".
Proof. repeat split; reflexivity. Qed.

Example write_ppm_header_640_480 :
  write_ppm_header [] 640 480
  = [80; 54; 10; 54; 52; 48; 32; 52; 56; 48; 10; 50; 53; 53; 10].
Proof. reflexivity. Qed.

Lemma bytes_of_text_app (s t : string) :
  bytes_of_text (s +:+ t) = bytes_of_text s ++ bytes_of_text t.
Proof.
  unfold bytes_of_text. induction s as [|c s IH]; [reflexivity|].
  change (String c s +:+ t) with (String c (s +:+ t)).
  cbn [String.list_ascii_of_string map]. rewrite IH. reflexivity.
Qed.

Lemma bytes_of_text_inj (s t : string) :
  bytes_of_text s = bytes_of_text t -> s = t.
Proof.
  unfold bytes_of_text. revert t.
  induction s as [|c s IH]; intros [|c' t];
    cbn [String.list_ascii_of_string map]; try discriminate; [reflexivity|].
  intros [= Hc Hrest]. f_equal; [|apply IH; exact Hrest].
  apply N2Z.inj in Hc.
  rewrite <- (Ascii.ascii_N_embedding c), <- (Ascii.ascii_N_embedding c').
  f_equal. exact Hc.
Qed.

Lemma uint_bytes_are_digits (d : Decimal.uint) :
  Forall sign_or_digit
    (bytes_of_text (DecimalString.NilEmpty.string_of_uint d)).
Proof.
  unfold bytes_of_text, sign_or_digit.
  induction d; cbn; constructor; try exact IHd; cbn; lia.
Qed.

Lemma dec_bytes (z : Z) : Forall sign_or_digit (bytes_of_text (dec z)).
Proof.
  unfold dec.
  assert (Hu : forall d, Forall sign_or_digit
                 (bytes_of_text (DecimalString.NilZero.string_of_uint d))).
  { intros d. destruct d; try apply uint_bytes_are_digits.
    unfold bytes_of_text, sign_or_digit. cbn. constructor; [cbn; lia|constructor]. }
  destruct (Z.to_int z) as [d|d]; cbn [DecimalString.NilZero.string_of_int].
  - apply Hu.
  - unfold bytes_of_text. cbn. constructor.
    + unfold sign_or_digit. cbn. lia.
    + apply Hu.
Qed.

Lemma dec_inj (z z' : Z) : dec z = dec z' -> z = z'.
Proof.
  unfold dec. intros Heq.
  assert (Hok : forall n, Z.to_int n <> Decimal.Pos Decimal.Nil
                          /\ Z.to_int n <> Decimal.Neg Decimal.Nil).
  { intros [|p|p]; cbn; split; try discriminate;
      intros [= H]; apply (DecimalPos.Unsigned.to_uint_nonnil p); exact H. }
  apply (f_equal DecimalString.NilZero.int_of_string) in Heq.
  rewrite !DecimalString.NilZero.isi in Heq by apply Hok.
  injection Heq as Heq.
  rewrite <- (DecimalZ.of_to z), <- (DecimalZ.of_to z'). f_equal. exact Heq.
Qed.

(** Two texts free of the separator, each followed by it, are equal as
    soon as the whole sequences are. *)
Lemma split_at_separator (c : Z) (a a' r r' : list Z) :
  Forall (fun b => b <> c) a -> Forall (fun b => b <> c) a' ->
  a ++ c :: r = a' ++ c :: r' -> a = a' /\ r = r'.
Proof.
  revert a'. induction a as [|x a IH]; intros [|x' a'] Ha Ha' Heq; cbn in Heq.
  - injection Heq as ->. auto.
  - injection Heq as <- _. inversion Ha'; congruence.
  - injection Heq as -> _. inversion Ha; congruence.
  - injection Heq as -> Heq. inversion Ha; inversion Ha'; subst.
    destruct (IH a') as [-> ->]; auto.
Qed.

(** X11.  The header determines the dimensions: two headers written to
    the same stream are equal only if width and height are. *)
Theorem write_ppm_header_injective (file : list Z) (w h w' h' : Z) :
  write_ppm_header file w h = write_ppm_header file w' h' ->
  w = w' /\ h = h'.
Proof.
  unfold write_ppm_header, put_text. rewrite <- !app_assoc.
  intros Heq. apply app_inv_head in Heq. apply app_inv_head in Heq.
  change (bytes_of_text " ") with [32] in Heq.
  change (bytes_of_text (nl +:+ "255" +:+ nl)) with [10; 50; 53; 53; 10] in Heq.
  assert (Hfree : forall c z, c = 32 \/ c = 10 ->
            Forall (fun b => b <> c) (bytes_of_text (dec z))).
  { intros c z Hc. eapply Forall_impl; [apply dec_bytes|].
    intros b Hb. unfold sign_or_digit in Hb. lia. }
  cbn [app] in Heq.
  apply split_at_separator in Heq as [Hw Hrest]; [|apply Hfree; auto ..].
  apply split_at_separator in Hrest as [Hh _]; [|apply Hfree; auto ..].
  split; apply dec_inj, bytes_of_text_inj; assumption.
Qed.

Lemma write_ppm_header_injective_witness : 640 = 640 /\ 480 = 480.
Proof.
  apply (write_ppm_header_injective [] 640 480 640 480). reflexivity.
Defined.

Lemma vec_get_lookup (v : list Z) (i : Z) :
  0 <= i < Z.of_nat (length v) ->
  exists x, vec_get v i = Ret x /\ v !! Z.to_nat i = Some x.
Proof.
  intros Hi. unfold vec_get. destruct (Z.leb_spec 0 i); [|lia].
  destruct (lookup_lt_is_Some_2 v (Z.to_nat i)) as [x Hx]; [lia|].
  exists x. rewrite Hx. auto.
Qed.

(** One [write] call appends the three bytes that follow the ones already
    written. *)
Lemma write_pixel_take (output_image : list Z) (i : Z) (file : list Z) :
  0 <= i -> i * 3 + 3 <= Z.of_nat (length output_image) ->
  exists c0 c1 c2,
    write_pixel output_image i file = Ret (file ++ [c0; c1; c2])
    /\ take (Z.to_nat ((i + 1) * 3)) output_image
       = take (Z.to_nat (i * 3)) output_image ++ [c0; c1; c2].
Proof.
  intros Hi Hlen. unfold write_pixel.
  destruct (vec_get_lookup output_image (i * 3)) as (c0 & G0 & L0); [lia|].
  destruct (vec_get_lookup output_image (i * 3 + 1)) as (c1 & G1 & L1); [lia|].
  destruct (vec_get_lookup output_image (i * 3 + 2)) as (c2 & G2 & L2); [lia|].
  exists c0, c1, c2. rewrite G0, G1, G2. cbn [bind]. split; [reflexivity|].
  replace (Z.to_nat ((i + 1) * 3)) with (S (S (S (Z.to_nat (i * 3))))) by lia.
  replace (Z.to_nat (i * 3 + 1)) with (S (Z.to_nat (i * 3))) in L1 by lia.
  replace (Z.to_nat (i * 3 + 2)) with (S (S (Z.to_nat (i * 3)))) in L2 by lia.
  rewrite (take_S_r _ _ _ L2), (take_S_r _ _ _ L1), (take_S_r _ _ _ L0).
  rewrite <- !app_assoc. reflexivity.
Qed.

Lemma write_ppm_header_length (file : list Z) :
  length (write_ppm_header file IMAGE_WIDTH IMAGE_HEIGHT)
  = (length file + 15)%nat.
Proof.
  unfold write_ppm_header, put_text. rewrite <- !app_assoc, length_app.
  reflexivity.
Qed.

(** The pixel loop copies the first W*H*3 bytes of the image behind the
    header. *)
Lemma write_ppm_take (output_image : list Z) :
  IMAGE_WIDTH * IMAGE_HEIGHT * 3 <= Z.of_nat (length output_image) ->
  write_ppm output_image
  = Ret (write_ppm_header [] IMAGE_WIDTH IMAGE_HEIGHT
         ++ take (Z.to_nat (IMAGE_WIDTH * IMAGE_HEIGHT * 3)) output_image).
Proof.
  intros Hlen. unfold write_ppm.
  destruct (for_range_inv
              (fun i file =>
                 file = write_ppm_header [] IMAGE_WIDTH IMAGE_HEIGHT
                        ++ take (Z.to_nat (i * 3)) output_image)
              (write_pixel output_image)
              (Z.to_nat (IMAGE_WIDTH * IMAGE_HEIGHT)) 0
              (write_ppm_header [] IMAGE_WIDTH IMAGE_HEIGHT))
    as (file & Hrun & Hfile).
  - rewrite take_0, app_nil_r. reflexivity.
  - intros i file Hi ->.
    destruct (write_pixel_take output_image i
                (write_ppm_header [] IMAGE_WIDTH IMAGE_HEIGHT
                 ++ take (Z.to_nat (i * 3)) output_image))
      as (c0 & c1 & c2 & Hw & Ht).
    + lia.
    + unfold IMAGE_WIDTH, IMAGE_HEIGHT in *. lia.
    + eexists. split; [exact Hw|]. rewrite Ht, app_assoc. reflexivity.
  - rewrite Hrun, Hfile.
    replace ((0 + Z.of_nat (Z.to_nat (IMAGE_WIDTH * IMAGE_HEIGHT))) * 3)
      with (IMAGE_WIDTH * IMAGE_HEIGHT * 3)
      by (unfold IMAGE_WIDTH, IMAGE_HEIGHT; lia).
    reflexivity.
Qed.

(** X12.  For an image of at least W*H*3 bytes the writer returns a file
    of 15 + W*H*3 bytes: the header, then the pixels in index order, so
    that channel [c] of pixel [p] is the file byte at offset
    [15 + 3*p + c]. *)
Theorem write_ppm_layout (output_image : list Z) :
  IMAGE_WIDTH * IMAGE_HEIGHT * 3 <= Z.of_nat (length output_image) ->
  exists file,
    write_ppm output_image = Ret file
    /\ Z.of_nat (length file) = 15 + IMAGE_WIDTH * IMAGE_HEIGHT * 3
    /\ take 15 file = write_ppm_header [] IMAGE_WIDTH IMAGE_HEIGHT
    /\ forall p c,
         0 <= p < IMAGE_WIDTH * IMAGE_HEIGHT -> 0 <= c < 3 ->
         file !! Z.to_nat (15 + p * 3 + c)
         = output_image !! Z.to_nat (p * 3 + c).
Proof.
  intros Hlen. eexists. split; [apply write_ppm_take; exact Hlen|].
  pose proof (write_ppm_header_length []) as Hh. cbn [length Nat.add] in Hh.
  split_conj.
  - rewrite length_app, Hh, length_take.
    unfold IMAGE_WIDTH, IMAGE_HEIGHT in *. lia.
  - rewrite take_app_length' by exact Hh. reflexivity.
  - intros p c Hp Hc.
    rewrite lookup_app_r by (rewrite Hh; lia).
    rewrite Hh, lookup_take_lt
      by (unfold IMAGE_WIDTH, IMAGE_HEIGHT in *; lia).
    f_equal. lia.
Qed.

Lemma write_ppm_layout_witness :
  exists file,
    write_ppm (vec_new (IMAGE_WIDTH * IMAGE_HEIGHT * 3)) = Ret file
    /\ Z.of_nat (length file) = 15 + IMAGE_WIDTH * IMAGE_HEIGHT * 3
    /\ take 15 file = write_ppm_header [] IMAGE_WIDTH IMAGE_HEIGHT
    /\ forall p c,
         0 <= p < IMAGE_WIDTH * IMAGE_HEIGHT -> 0 <= c < 3 ->
         file !! Z.to_nat (15 + p * 3 + c)
         = vec_new (IMAGE_WIDTH * IMAGE_HEIGHT * 3) !! Z.to_nat (p * 3 + c).
Proof.
  apply (write_ppm_layout (vec_new (IMAGE_WIDTH * IMAGE_HEIGHT * 3))).
  rewrite vec_new_length; unfold IMAGE_WIDTH, IMAGE_HEIGHT; lia.
Defined.

(** * What a run prints, traces and writes *)

Section ObservedFacts.
Context {St : Type}.
Variable dut_eval : St -> in_pins -> St * out_pins.
Variables tdata_ty tuser_ty : vl_type.

Lemma reset_sequence_obs_spec (n : nat) :
  forall (i : Z) (d : Vaxi4s_rgb_dw_pw_top St) (c : console),
    reset_sequence_obs dut_eval n i d c
    = (reset_sequence dut_eval n d,
       {| cout := cout c; cerr := cerr c;
          vcd := vcd c ++ map (fun k => k * 2) (seqZ i (Z.of_nat n)) |}).
Proof.
  induction n as [|n IH]; intros i d c.
  - destruct c. cbn. rewrite app_nil_r. reflexivity.
  - cbn [reset_sequence_obs reset_sequence]. rewrite IH.
    rewrite (seqZ_cons i (Z.of_nat (S n))) by lia.
    replace (Z.pred (Z.of_nat (S n))) with (Z.of_nat n) by lia.
    replace (Z.succ i) with (i + 1) by lia.
    cbn [dump cout cerr vcd map]. rewrite <- app_assoc. reflexivity.
Qed.

Lemma loop_body_cycle (s s' : sim St) :
  loop_body dut_eval tdata_ty tuser_ty s = Ret s' ->
  cycle_count s' = cycle_count s + 1.
Proof.
  unfold loop_body.
  destruct (input_side tdata_ty tuser_ty (tick s)) as [s1| |] eqn:Hin;
    cbn [bind]; try discriminate.
  destruct (output_side tdata_ty tuser_ty s1) as [s2| |] eqn:Hout;
    cbn [bind]; try discriminate.
  intros [= <-]. cbn [advance cycle_count].
  apply output_side_frame in Hout as (_ & _ & _ & _ & ->).
  apply input_side_shape in Hin as [->|[->|(b0 & b1 & b2 & ->)]];
    reflexivity.
Qed.

(** The instrumented body runs the plain one, dumps at the old cycle
    count and prints when the new one is a multiple of 10000. *)
Lemma loop_body_obs_eq (s : sim St) (c : console) :
  loop_body_obs dut_eval tdata_ty tuser_ty s c
  = (s' <- loop_body dut_eval tdata_ty tuser_ty s ;;
     Ret (s',
          if Z.rem (cycle_count s') 10000 =? 0
          then say (progress_line (cycle_count s') (pixel_count s'))
                   (dump (cycle_count s' - 1) c)
          else dump (cycle_count s' - 1) c)).
Proof.
  unfold loop_body_obs, loop_body.
  destruct (input_side tdata_ty tuser_ty (tick s)) as [s1| |];
    cbn [bind]; try reflexivity.
  destruct (output_side tdata_ty tuser_ty s1) as [s2| |];
    cbn [bind]; try reflexivity.
  cbn [advance cycle_count pixel_count].
  replace (cycle_count s2 + 1 - 1) with (cycle_count s2) by lia.
  reflexivity.
Qed.

Lemma loop_reach_front (s s1 s' : sim St) :
  loop_cond s = true ->
  loop_body dut_eval tdata_ty tuser_ty s = Ret s1 ->
  loop_reach dut_eval tdata_ty tuser_ty s1 s' ->
  loop_reach dut_eval tdata_ty tuser_ty s s'.
Proof.
  intros Hc Hb Hr. induction Hr as [|x y _ IH Hcx Hbx].
  - eapply reach_step; [apply reach_entry|exact Hc|exact Hb].
  - eapply reach_step; [exact IH|exact Hcx|exact Hbx].
Qed.

(** The instrumented loop returns whenever the plain one does. *)
Lemma loop_fuel_obs_returns (fuel : nat) :
  forall (s sf : sim St) (c : console),
    loop_fuel dut_eval tdata_ty tuser_ty fuel s = Ret sf ->
    exists c', loop_fuel_obs dut_eval tdata_ty tuser_ty fuel s c = Ret (sf, c').
Proof.
  induction fuel as [|fuel IH]; intros s sf c; cbn [loop_fuel loop_fuel_obs];
    destruct (loop_cond s); try discriminate;
    try (intros [= <-]; eexists; reflexivity).
  rewrite loop_body_obs_eq.
  destruct (loop_body dut_eval tdata_ty tuser_ty s) as [s1| |];
    cbn [bind fst snd]; try discriminate.
  apply IH.
Qed.

(** What the instrumented loop adds to the console and the trace. *)
Lemma loop_fuel_obs_spec (fuel : nat) :
  forall (s : sim St) (c : console) (r : sim St * console),
    0 <= cycle_count s ->
    loop_fuel_obs dut_eval tdata_ty tuser_ty fuel s c = Ret r ->
    loop_fuel dut_eval tdata_ty tuser_ty fuel s = Ret (fst r)
    /\ cycle_count s <= cycle_count (fst r)
    /\ cerr (snd r) = cerr c
    /\ vcd (snd r)
       = vcd c ++ seqZ (cycle_count s) (cycle_count (fst r) - cycle_count s)
    /\ exists lines,
         cout (snd r) = cout c ++ lines
         /\ Z.of_nat (length lines)
            = cycle_count (fst r) / 10000 - cycle_count s / 10000
         /\ forall (j : nat) (line : string),
              lines !! j = Some line ->
              exists sj,
                loop_reach dut_eval tdata_ty tuser_ty s sj
                /\ cycle_count sj
                   = 10000 * (cycle_count s / 10000 + Z.of_nat j + 1)
                /\ line = progress_line (cycle_count sj) (pixel_count sj).
Proof.
  induction fuel as [|fuel IH]; intros s c r Hs;
    cbn [loop_fuel loop_fuel_obs]; destruct (loop_cond s) eqn:Hc;
    try discriminate.
  1, 3: intros [= <-]; cbn [fst snd]; split_conj;
    [reflexivity | lia | reflexivity
    | rewrite Z.sub_diag; cbn; rewrite app_nil_r; reflexivity
    | exists []; rewrite app_nil_r; split_conj;
      [reflexivity | cbn [length]; lia
      | intros j line Hj; rewrite lookup_nil in Hj; discriminate]].
  rewrite loop_body_obs_eq.
  destruct (loop_body dut_eval tdata_ty tuser_ty s) as [s1| |] eqn:Hb;
    cbn [bind fst snd]; try discriminate.
  pose proof (loop_body_cycle _ _ Hb) as Hc1.
  intros Hrun.
  apply IH in Hrun as (Hloop & Hle & Herr & Hvcd & lines & Hout & Hn & Hl);
    [|lia].
  split_conj.
  + exact Hloop.
  + lia.
  + rewrite Herr. destruct (Z.rem (cycle_count s1) 10000 =? 0); reflexivity.
  + rewrite Hvcd.
    rewrite (seqZ_cons (cycle_count s)) by lia.
    replace (Z.succ (cycle_count s)) with (cycle_count s1) by lia.
    replace (Z.pred (cycle_count (fst r) - cycle_count s))
      with (cycle_count (fst r) - cycle_count s1) by lia.
    replace (cycle_count s1 - 1) with (cycle_count s) by lia.
    destruct (Z.rem (cycle_count s1) 10000 =? 0);
      cbn [say dump vcd]; rewrite <- app_assoc; reflexivity.
  + rewrite Z.rem_mod_nonneg in Hout by lia.
    destruct (Z.eqb_spec (cycle_count s1 mod 10000) 0) as [Hz|Hz].
    * exists (progress_line (cycle_count s1) (pixel_count s1) :: lines).
      split_conj.
      -- rewrite Hout. cbn [say dump cout]. rewrite <- app_assoc.
         reflexivity.
      -- cbn [length]. rewrite Nat2Z.inj_succ, Hn, Hc1 in *.
         Z.div_mod_to_equations. lia.
      -- intros [|j] line Hj; cbn in Hj.
         ++ injection Hj as <-. exists s1. split_conj.
            ** eapply reach_step; [apply reach_entry|exact Hc|exact Hb].
            ** rewrite Hc1 in *. Z.div_mod_to_equations. lia.
            ** reflexivity.
         ++ destruct (Hl j line Hj) as (sj & Hr & Hcj & Hline).
            exists sj. split_conj.
            ** eapply loop_reach_front; eassumption.
            ** rewrite Hcj, Hc1 in *. Z.div_mod_to_equations. lia.
            ** exact Hline.
    * exists lines. split_conj.
      -- rewrite Hout. reflexivity.
      -- rewrite Hn, Hc1 in *. Z.div_mod_to_equations. lia.
      -- intros j line Hj.
         destruct (Hl j line Hj) as (sj & Hr & Hcj & Hline).
         exists sj. split_conj.
         ++ eapply loop_reach_front; eassumption.
         ++ rewrite Hcj, Hc1 in *. Z.div_mod_to_equations. lia.
         ++ exact Hline.
Qed.

Lemma main_obs_eq (fuel : nat) (can_open : bool) (st0 : St) :
  main_obs dut_eval tdata_ty tuser_ty fuel can_open st0
  = (s <- main_setup dut_eval tuser_ty fuel st0 ;;
     r <- loop_fuel_obs dut_eval tdata_ty tuser_ty
            (Z.to_nat (maxCycles - cycle_count s)) s
            (say "Starting RTL simulation..."
               {| cout := []; cerr := [];
                  vcd := map (fun k => k * 2) (seqZ 0 10) |}) ;;
     write_results can_open (fst r) (snd r)).
Proof.
  unfold main_obs, main_setup, power_on. cbv zeta.
  rewrite reset_sequence_obs_spec.
  change (Z.of_nat 10) with 10.
  cbn [fst snd no_output cout cerr vcd app].
  remember (generate_test_pattern _) as g eqn:Hg.
  remember (configure_kernel dut_eval fuel _ 0 (-1) 0 (-1) 4 (-1) 0 (-1) 0)
    as w eqn:Hw.
  destruct w as [d| |]; cbn [bind]; [|reflexivity|reflexivity].
  destruct g as [image| |]; cbn [bind]; reflexivity.
Qed.

Lemma main_setup_entry (fuel : nat) (st0 : St) (s0 : sim St) :
  main_setup dut_eval tuser_ty fuel st0 = Ret s0 ->
  wf s0 /\ cycle_count s0 = 0.
Proof.
  intros Hs. apply main_setup_Ret in Hs as (n & image & -> & Hlen & _).
  split; [apply loop_entry_wf; exact Hlen|reflexivity].
Qed.

(** The three stages of a run that returned. *)
Lemma main_obs_Ret (fuel : nat) (can_open : bool) (st0 : St) (r : run St) :
  main_obs dut_eval tdata_ty tuser_ty fuel can_open st0 = Ret r ->
  exists (s0 : sim St) (r0 : sim St * console),
    main_setup dut_eval tuser_ty fuel st0 = Ret s0
    /\ wf s0 /\ cycle_count s0 = 0
    /\ loop_fuel_obs dut_eval tdata_ty tuser_ty
         (Z.to_nat (maxCycles - cycle_count s0)) s0
         (say "Starting RTL simulation..."
            {| cout := []; cerr := [];
               vcd := map (fun k => k * 2) (seqZ 0 10) |})
       = Ret r0
    /\ write_results can_open (fst r0) (snd r0) = Ret r.
Proof.
  rewrite main_obs_eq.
  remember (main_setup dut_eval tuser_ty fuel st0) as m eqn:Hm.
  destruct m as [s0| |]; cbn [bind]; [|intros [=]|intros [=]].
  symmetry in Hm. destruct (main_setup_entry _ _ _ Hm) as [Hwf Hc0].
  remember (loop_fuel_obs dut_eval tdata_ty tuser_ty _ s0 _) as l eqn:Hl.
  destruct l as [r0| |]; cbn [bind]; [|intros [=]|intros [=]].
  intros Hw. exists s0, r0. split_conj; auto.
Qed.

Lemma write_results_Ret (can_open : bool) (s : sim St) (c : console)
    (r : run St) :
  write_results can_open s c = Ret r ->
  final r = s
  /\ vcd (out r) = vcd c
  /\ cout (out r)
     = cout c
       ++ ["Simulation completed in " +:+ dec (cycle_count s) +:+ " cycles"]
       ++ (if can_open then ["Output image written to rtl_out.ppm"] else [])
  /\ cerr (out r)
     = cerr c
       ++ (if can_open then [] else ["Failed to create output PPM file"])
  /\ (if can_open
      then exists file,
             write_ppm (output_image s) = Ret file /\ ppm r = Some file
      else ppm r = None).
Proof.
  unfold write_results. destruct can_open.
  - destruct (write_ppm (output_image s)) as [file| |] eqn:Hf;
      cbn [bind]; try discriminate.
    intros [= <-]. cbn [final out ppm say cout cerr vcd].
    rewrite app_nil_r, <- app_assoc. split_conj; try reflexivity.
    exists file. auto.
  - intros [= <-]. cbn [final out ppm say complain cout cerr vcd].
    rewrite app_nil_r. split_conj; reflexivity.
Qed.

(** A run whose loop returns goes on to the end of [main], whether or
    not the file can be created. *)
Lemma main_obs_returns (fuel : nat) (can_open : bool) (st0 : St)
    (sf : sim St) :
  main dut_eval tdata_ty tuser_ty fuel st0 = Ret sf ->
  exists r,
    main_obs dut_eval tdata_ty tuser_ty fuel can_open st0 = Ret r
    /\ final r = sf
    /\ wf sf.
Proof.
  unfold main. rewrite main_obs_eq.
  remember (main_setup dut_eval tuser_ty fuel st0) as m eqn:Hm.
  destruct m as [s0| |]; cbn [bind]; [|intros [=]|intros [=]].
  symmetry in Hm. destruct (main_setup_entry _ _ _ Hm) as [Hwf Hc0].
  intros Hloop.
  assert (Hwff : wf sf).
  { destruct (main_loop_reach dut_eval tdata_ty tuser_ty s0 Hwf)
      as (n & sf' & Hl & _ & _ & Hw & _).
    rewrite Hloop in Hl. injection Hl as <-. exact Hw. }
  unfold main_loop in Hloop.
  destruct (loop_fuel_obs_returns _ _ _
              (say "Starting RTL simulation..."
                 {| cout := []; cerr := [];
                    vcd := map (fun k => k * 2) (seqZ 0 10) |}) Hloop)
    as (c' & Hobs).
  rewrite Hobs. cbn [bind fst snd].
  unfold write_results. destruct can_open.
  - rewrite (write_ppm_take (output_image sf))
      by (destruct Hwff as (_ & Ho & _); rewrite Ho; lia). cbn [bind]. eexists. split_conj; [reflexivity|reflexivity|exact Hwff].
  - eexists. split_conj; [reflexivity|reflexivity|exact Hwff].
Qed.

(** X13.  The trace holds the ten reset dumps at the even times 0..18,
    then one dump per loop iteration, stamped with the cycle count before
    it is incremented: the time restarts at 0 when the loop begins. *)
Theorem main_trace_timestamps (fuel : nat) (can_open : bool) (st0 : St)
    (r : run St) :
  main_obs dut_eval tdata_ty tuser_ty fuel can_open st0 = Ret r ->
  vcd (out r)
  = [0; 2; 4; 6; 8; 10; 12; 14; 16; 18] ++ seqZ 0 (cycle_count (final r)).
Proof.
  intros Hrun.
  apply main_obs_Ret in Hrun as (s0 & r0 & _ & Hwf & Hc0 & Hloop & Hres).
  apply loop_fuel_obs_spec in Hloop as (_ & _ & _ & Hvcd & _); [|lia].
  apply write_results_Ret in Hres as (-> & -> & _).
  rewrite Hvcd, Hc0, Z.sub_0_r. reflexivity.
Qed.

(** X14.  Standard output holds the start line, one progress line per
    10000 completed cycles, the completion line with the final cycle
    count, and the confirmation when the file was written.  The progress
    line number [j] (from 0) reports cycle 10000*(j+1) and the number of
    pixels offered by the loop state reached at that cycle. *)
Theorem main_console_lines (fuel : nat) (can_open : bool) (st0 : St)
    (r : run St) :
  main_obs dut_eval tdata_ty tuser_ty fuel can_open st0 = Ret r ->
  exists (s0 : sim St) (lines : list string),
    main_setup dut_eval tuser_ty fuel st0 = Ret s0
    /\ cout (out r)
       = ["Starting RTL simulation..."] ++ lines
         ++ ["Simulation completed in " +:+ dec (cycle_count (final r))
             +:+ " cycles"]
         ++ (if can_open then ["Output image written to rtl_out.ppm"] else [])
    /\ Z.of_nat (length lines) = cycle_count (final r) / 10000
    /\ forall (j : nat) (line : string),
         lines !! j = Some line ->
         exists sj,
           loop_reach dut_eval tdata_ty tuser_ty s0 sj
           /\ cycle_count sj = 10000 * (Z.of_nat j + 1)
           /\ line = progress_line (10000 * (Z.of_nat j + 1)) (pixel_count sj).
Proof.
  intros Hrun.
  apply main_obs_Ret in Hrun as (s0 & r0 & Hsetup & Hwf & Hc0 & Hloop & Hres).
  apply loop_fuel_obs_spec in Hloop
    as (_ & _ & _ & _ & lines & Hout & Hn & Hl); [|lia].
  apply write_results_Ret in Hres as (Hfin & _ & Hcout & _).
  exists s0, lines. rewrite Hfin. split_conj.
  - exact Hsetup.
  - rewrite Hcout, Hout. cbn [say cout]. rewrite <- !app_assoc. reflexivity.
  - rewrite Hn, Hc0. change (0 / 10000) with 0. lia.
  - intros j line Hj. destruct (Hl j line Hj) as (sj & Hr & Hcj & ->).
    rewrite Hc0 in Hcj. change (0 / 10000) with 0 in Hcj.
    rewrite Z.add_0_l in Hcj.
    exists sj. split_conj; [exact Hr|exact Hcj|rewrite Hcj; reflexivity].
Qed.

(** X15.  When the loop of [main] ends in state [sf], [main] runs to its
    end.  If [rtl_out.ppm] could be created it holds the header followed
    by exactly the bytes of the output image, and nothing goes to standard
    error; if not, no file is written and standard error holds the one
    failure line. *)
Theorem main_writes_output_image (fuel : nat) (can_open : bool) (st0 : St)
    (sf : sim St) :
  main dut_eval tdata_ty tuser_ty fuel st0 = Ret sf ->
  exists r,
    main_obs dut_eval tdata_ty tuser_ty fuel can_open st0 = Ret r
    /\ final r = sf
    /\ ppm r
       = (if can_open
          then Some (write_ppm_header [] IMAGE_WIDTH IMAGE_HEIGHT
                     ++ output_image sf)
          else None)
    /\ cerr (out r)
       = (if can_open then [] else ["Failed to create output PPM file"]).
Proof.
  intros Hmain.
  destruct (main_obs_returns fuel can_open st0 sf Hmain)
    as (r & Hrun & Hfin & Hwf).
  exists r. split; [exact Hrun|]. split; [exact Hfin|].
  apply main_obs_Ret in Hrun as (s0 & r0 & _ & _ & Hc0 & Hloop & Hres).
  apply loop_fuel_obs_spec in Hloop as (_ & _ & Herr & _); [|lia].
  apply write_results_Ret in Hres as (Hf & _ & _ & Hcerr & Hppm).
  rewrite Hcerr, Herr. cbn [say cerr app]. split; [|reflexivity].
  destruct can_open; [|exact Hppm].
  destruct Hppm as (file & Hw & ->).
  rewrite <- Hfin, Hf in *.
  rewrite (write_ppm_take (output_image (fst r0))) in Hw
    by (destruct Hwf as (_ & Ho & _); rewrite Ho; lia). injection Hw as <-.
  rewrite take_ge; [reflexivity|].
  destruct Hwf as (_ & Ho & _). lia.
Qed.

End ObservedFacts.

Lemma sink_main_returns :
  exists sf, main sink_eval IData SData 0 tt = Ret sf.
Proof.
  unfold main.
  destruct (main_setup_ready sink_eval SData 0 tt eq_refl)
    as (image & Hlen & _ & Hsetup).
  rewrite Hsetup. cbn [bind].
  match goal with
  | |- exists sf, main_loop _ _ _ ?e = _ =>
      assert (Hwf : wf e) by (apply loop_entry_wf; exact Hlen);
      destruct (main_loop_reach sink_eval IData SData e Hwf)
        as (n & sf & Hl & _)
  end.
  exists sf. exact Hl.
Qed.

Lemma sink_main_obs_returns (can_open : bool) :
  exists r, main_obs sink_eval IData SData 0 can_open tt = Ret r.
Proof.
  destruct sink_main_returns as (sf & Hmain).
  destruct (main_obs_returns sink_eval IData SData 0 can_open tt sf Hmain)
    as (r & Hr & _).
  exists r. exact Hr.
Qed.

Lemma main_trace_timestamps_witness :
  exists r,
    main_obs sink_eval IData SData 0 true tt = Ret r
    /\ vcd (out r)
       = [0; 2; 4; 6; 8; 10; 12; 14; 16; 18]
         ++ seqZ 0 (cycle_count (final r)).
Proof.
  destruct (sink_main_obs_returns true) as (r & Hr).
  exists r. split; [exact Hr|].
  exact (main_trace_timestamps sink_eval IData SData 0 true tt r Hr).
Defined.

Lemma main_console_lines_witness :
  exists r,
    main_obs sink_eval IData SData 0 true tt = Ret r
    /\ exists (s0 : sim unit) (lines : list string),
         main_setup sink_eval SData 0 tt = Ret s0
         /\ cout (out r)
            = ["Starting RTL simulation..."] ++ lines
              ++ ["Simulation completed in " +:+ dec (cycle_count (final r))
                  +:+ " cycles"]
              ++ ["Output image written to rtl_out.ppm"]
         /\ Z.of_nat (length lines) = cycle_count (final r) / 10000
         /\ forall (j : nat) (line : string),
              lines !! j = Some line ->
              exists sj,
                loop_reach sink_eval IData SData s0 sj
                /\ cycle_count sj = 10000 * (Z.of_nat j + 1)
                /\ line
                   = progress_line (10000 * (Z.of_nat j + 1)) (pixel_count sj).
Proof.
  destruct (sink_main_obs_returns true) as (r & Hr).
  exists r. split; [exact Hr|].
  exact (main_console_lines sink_eval IData SData 0 true tt r Hr).
Defined.

Lemma main_writes_output_image_witness :
  exists sf r,
    main sink_eval IData SData 0 tt = Ret sf
    /\ main_obs sink_eval IData SData 0 false tt = Ret r
    /\ final r = sf
    /\ ppm r = None
    /\ cerr (out r) = ["Failed to create output PPM file"].
Proof.
  destruct sink_main_returns as (sf & Hmain).
  destruct (main_writes_output_image sink_eval IData SData 0 false tt sf Hmain)
    as (r & Hr).
  exists sf, r. split; [exact Hmain|exact Hr].
Defined.

(** * The handshake of the last pixel *)

(** C5 on the code.  With the sink attached, which is ready for input in
    every cycle, [main] leaves its loop with all W*H pixels counted, the
    DUT ready, and [s_axis_tvalid] still asserted: the loop ends in the
    very iteration that offers the last pixel, so the retirement every
    earlier pixel goes through never runs for it.  Nothing after the loop
    writes the pin, and the run ends in that state. *)
Theorem last_offer_never_retired :
  exists (sf : sim unit) (r : run unit),
    main sink_eval IData SData 0 tt = Ret sf
    /\ pixel_count sf = IMAGE_WIDTH * IMAGE_HEIGHT
    /\ s_axis_tready (op (dut sf)) = true
    /\ s_axis_tvalid (ip (dut sf)) = true
    /\ main_obs sink_eval IData SData 0 true tt = Ret r
    /\ final r = sf.
Proof.
  destruct (main_setup_ready sink_eval SData 0 tt eq_refl)
    as (image & Hlen & _ & Hsetup).
  set (d := deassert_write (assert_write (power_on sink_eval tt) 0)) in *.
  pose proof (loop_entry_wf SData d image Hlen) as Hwf0.
  destruct (main_loop_reach sink_eval IData SData _ Hwf0)
    as (n & sf & Hrun & _ & Hreach & Hwf & Hc & _ & _).
  pose proof (always_ready_cycles sink_eval IData SData d image sf
                (fun _ _ => eq_refl) Hlen Hreach) as Hcyc.
  assert (Hfull : pixel_count sf = IMAGE_WIDTH * IMAGE_HEIGHT).
  { apply loop_cond_false in Hc. destruct Hwf as (_ & _ & Hpc & _).
    unfold IMAGE_WIDTH, IMAGE_HEIGHT, maxCycles in *.
    destruct (s_axis_tvalid (ip (dut sf))); lia. }
  assert (Hmain : main sink_eval IData SData 0 tt = Ret sf).
  { unfold main. rewrite Hsetup. exact Hrun. }
  destruct (main_obs_returns sink_eval IData SData 0 true tt sf Hmain)
    as (r & Hr & Hfin & _).
  exists sf, r. split_conj.
  - exact Hmain.
  - exact Hfull.
  - destruct (loop_reach_inv sink_eval IData SData
                (fun s => pixel_count s = IMAGE_WIDTH * IMAGE_HEIGHT ->
                          s_axis_tready (op (dut s)) = true)
                (loop_entry SData d image) Hwf0) with (s := sf)
      as (_ & Hready).
    + cbn [loop_entry pixel_count]. unfold IMAGE_WIDTH, IMAGE_HEIGHT. lia.
    + intros s s' _ _ _ Hb _.
      destruct (loop_body_op sink_eval IData SData s s' Hb) as (st & p & ->).
      reflexivity.
    + exact Hreach.
    + exact (Hready Hfull).
  - exact (loop_reach_last_offer sink_eval IData SData d image sf
             Hlen Hreach Hfull).
  - exact Hr.
  - exact Hfin.
Qed.
